(** * Time Verify AI: the batch extraction pipeline and the job orchestrator

    A shallow embedding of [app.py]: the batching loop of
    [process_images_in_batches], the two-stage parse of the model's reply,
    the per-file worker [process_single_file], the background job
    [process_files_bulk] and the request handlers [process_bulk],
    [get_status] and [download_result] over the three module-level tables
    [processing_results], [processing_status] and [dashboard_metrics].

    Python values are modelled as follows.
    - [str] is a list of Unicode code points ([list N]).
    - [dict] keyed by job id is a [gmap]; a JSON object is an association
      list in insertion order with [dict] update semantics.
    - Exceptions are an explicit [result] type; functions that mutate the
      module-level tables live in a state-and-exception monad [M] in which
      writes made before a raise persist, as in Python.
    - The excluded collaborators (temporary files, the DOCX image
      extractor, the inference service) are oracles carried by a
      [file_world] record, one per processed file. *)

From Stdlib Require Import ZArith NArith Ascii String List Lia.
From stdpp Require Import base option list gmap.

Open Scope nat_scope.
Set Warnings "-register-all".

(* ===================================================================== *)
(** * Definitions                                                        *)
(* ===================================================================== *)

(** ** Python prelude *)

(** A Python [str]: a sequence of code points. *)
Definition str := list N.

(** Literal strings of the source, read as code points. *)
Definition lit (s : string) : str := N_of_ascii <$> list_ascii_of_string s.
Arguments lit : simpl never.

(** The exception classes that occur; all derive from [Exception]. *)
Inductive exn :=
| JSONDecodeError
| TypeError
| AttributeError
| KeyError
| ValueError
| OverflowError
| IllegalCharacterError   (* openpyxl.utils.exceptions *)
| RecursionError
| ExternalError.   (* raised by a collaborator: I/O, transport, service *)

Inductive result (A : Type) :=
| Ok (a : A)
| Raise (e : exn).
Arguments Ok {A} a.
Arguments Raise {A} e.

(** [range(start, stop, step)] for [step > 0]. *)
Definition py_range (start stop step : nat) : list nat :=
  (λ k, start + k * step) <$> seq 0 (Nat.div (stop - start + step - 1) step).

(** [l[i:j]] for [0 <= i <= j]; Python clamps the bounds to [len(l)]. *)
Definition py_slice {A} (l : list A) (i j : nat) : list A :=
  take (j - i) (drop i l).

(** ** Characters *)

(** [is_chr "x" c]: the code point [c] is the ASCII character [x]. *)
Definition is_chr (a : ascii) (c : N) : bool := N.eqb c (N_of_ascii a).
Arguments is_chr a%_char c%_N.

(** The double quote, U+0022, and the backslash, U+005C. *)
Definition QUOTE : N := 34.
Definition BACKSLASH : N := 92.

Definition is_quote (c : N) : bool := N.eqb c QUOTE.
Definition is_backslash (c : N) : bool := N.eqb c BACKSLASH.

(** Literals that contain double quotes are written with an apostrophe in
    place of each double quote. *)
Definition qlit (s : string) : str :=
  (λ c, if is_chr "'" c then QUOTE else c) <$> lit s.

Fixpoint starts_with (p s : str) : bool :=
  match p, s with
  | [], _ => true
  | _ :: _, [] => false
  | a :: p', b :: s' => N.eqb a b && starts_with p' s'
  end.

(** [str.isspace] for one code point (CPython's [_PyUnicode_IsWhitespace]). *)
Definition isspace (c : N) : bool :=
  ((9 <=? c) && (c <=? 13) || (28 <=? c) && (c <=? 32)
   || (c =? 133) || (c =? 160) || (c =? 5760)
   || (8192 <=? c) && (c <=? 8202)
   || (c =? 8232) || (c =? 8233) || (c =? 8239) || (c =? 8287) || (c =? 12288))%N.

Fixpoint lstrip (s : str) : str :=
  match s with
  | c :: r => if isspace c then lstrip r else s
  | [] => []
  end.

(** [s.strip()] *)
Definition strip (s : str) : str := rev (lstrip (rev (lstrip s))).

(** ** Numbers

    A Python [int] is an integer; a [float] is modelled by the exact
    decimal value [mant * 10^exp] of its literal, or an infinity or NaN.
    Rounding to binary64 and the overflow of a finite sum to an infinity
    are not modelled: they change the value of a float, never whether an
    operation raises. *)

Inductive pyfloat :=
| FDec (mant exp : Z)
| FInf (negative : bool)
| FNaN.

Inductive pynum :=
| PyInt (z : Z)
| PyFloat (f : pyfloat).

Definition float_add (a b : pyfloat) : pyfloat :=
  match a, b with
  | FNaN, _ | _, FNaN => FNaN
  | FInf s, FInf t => if Bool.eqb s t then FInf s else FNaN
  | FInf s, FDec _ _ | FDec _ _, FInf s => FInf s
  | FDec m1 e1, FDec m2 e2 =>
      let e := Z.min e1 e2 in
      FDec (m1 * 10 ^ (e1 - e) + m2 * 10 ^ (e2 - e)) e
  end.

(** The ints that convert to a float: CPython rounds an int to the
    nearest binary64, ties to even, and raises [OverflowError] when that
    is [2^1024] or more, that is from [2^1024 - 2^970] on. *)
Definition float_int_bound : Z := 2 ^ 1024 - 2 ^ 970.

Definition fits_float (z : Z) : bool := (Z.abs z <? float_int_bound)%Z.
Arguments fits_float : simpl never.

(** [a + b] on numbers: integer addition on two ints; otherwise the int
    operand, if any, is converted to a float first. *)
Definition num_add (a b : pynum) : result pynum :=
  match a, b with
  | PyInt x, PyInt y => Ok (PyInt (x + y))
  | PyInt x, PyFloat g =>
      if fits_float x then Ok (PyFloat (float_add (FDec x 0) g)) else Raise OverflowError
  | PyFloat f, PyInt y =>
      if fits_float y then Ok (PyFloat (float_add f (FDec y 0))) else Raise OverflowError
  | PyFloat f, PyFloat g => Ok (PyFloat (float_add f g))
  end.

(** ** JSON values as Python objects *)

Inductive json :=
| JNull                              (* None *)
| JBool (b : bool)                   (* True, False *)
| JNum (n : pynum)                   (* int, float *)
| JStr (s : str)                     (* str *)
| JArr (l : list json)               (* list *)
| JObj (d : list (str * json)).      (* dict, in insertion order *)

(** [d.get(k)] on the pairs of a dict. *)
Fixpoint dict_lookup (d : list (str * json)) (k : str) : option json :=
  match d with
  | [] => None
  | (k', v) :: r => if decide (k' = k) then Some v else dict_lookup r k
  end.

(** [d[k] = v]: overwrite in place, or append a new key. *)
Fixpoint dict_set (d : list (str * json)) (k : str) (v : json) : list (str * json) :=
  match d with
  | [] => [(k, v)]
  | (k', v') :: r => if decide (k' = k) then (k, v) :: r else (k', v') :: dict_set r k v
  end.

(** [dict(pairs)] *)
Definition py_dict (pairs : list (str * json)) : list (str * json) :=
  foldl (λ d kv, dict_set d kv.1 kv.2) [] pairs.

Definition is_dict (v : json) : bool :=
  match v with JObj _ => true | _ => false end.

(** ** [json.loads]

    Library model of CPython's [json] decoder (scanner.py, decoder.py and
    the C scanner for strings), with the default [strict=True].  The
    interpreter's resource limits (recursion depth, digits of an int
    literal) are not modelled. *)

Definition is_json_ws (c : N) : bool :=
  is_chr " " c || (c =? 9)%N || (c =? 10)%N || (c =? 13)%N.

(** [WHITESPACE.match(s, end).end()] *)
Fixpoint skip_ws (s : str) : str :=
  match s with
  | c :: r => if is_json_ws c then skip_ws r else s
  | [] => []
  end.

Definition is_digit (c : N) : bool := ((48 <=? c) && (c <=? 57))%N.

Fixpoint span_digits (s : str) : str * str :=
  match s with
  | c :: r => if is_digit c then let '(ds, rest) := span_digits r in (c :: ds, rest)
              else ([], s)
  | [] => ([], [])
  end.

Definition digits_value (ds : str) : Z :=
  foldl (λ acc c, 10 * acc + Z.of_N (c - 48))%Z 0%Z ds.

(** The integer group of [NUMBER_RE], an optional minus sign followed by
    a single 0 or by a nonzero digit and any digits: sign, digits, rest. *)
Definition match_integer (s : str) : option (bool * str * str) :=
  let '(neg, s1) :=
    match s with
    | c :: r => if is_chr "-" c then (true, r) else (false, s)
    | [] => (false, s)
    end in
  match s1 with
  | c :: r =>
      if is_chr "0" c then Some (neg, [c], r)
      else if is_digit c then let '(ds, rest) := span_digits r in Some (neg, c :: ds, rest)
      else None
  | [] => None
  end.

(** The optional group [(\.\d+)?]. *)
Definition match_frac (s : str) : option (str * str) :=
  match s with
  | c :: r =>
      if is_chr "." c then
        match span_digits r with
        | ([], _) => None
        | (ds, rest) => Some (ds, rest)
        end
      else None
  | [] => None
  end.

(** The optional group [([eE][-+]?\d+)?]. *)
Definition match_exp (s : str) : option (Z * str) :=
  match s with
  | c :: r =>
      if is_chr "e" c || is_chr "E" c then
        let '(sign, r1) :=
          match r with
          | c' :: r' => if is_chr "-" c' then ((-1)%Z, r')
                        else if is_chr "+" c' then (1%Z, r') else (1%Z, r)
          | [] => (1%Z, r)
          end in
        match span_digits r1 with
        | ([], _) => None
        | (ds, rest) => Some ((sign * digits_value ds)%Z, rest)
        end
      else None
  | [] => None
  end.

(** [NUMBER_RE.match]: an int when neither fraction nor exponent is
    present, a float otherwise. *)
Definition match_number (s : str) : option (pynum * str) :=
  match match_integer s with
  | None => None
  | Some (neg, ids, r0) =>
      let sgn := (if neg then -1 else 1)%Z in
      let '(frac, r1) :=
        match match_frac r0 with Some (fd, r) => (Some fd, r) | None => (None, r0) end in
      let '(ex, r2) :=
        match match_exp r1 with Some (e, r) => (Some e, r) | None => (None, r1) end in
      match frac, ex with
      | None, None => Some (PyInt (sgn * digits_value ids), r2)
      | _, _ =>
          let fd := default [] frac in
          let e := default 0%Z ex in
          Some (PyFloat (FDec (sgn * digits_value (ids ++ fd)) (e - Z.of_nat (length fd))), r2)
      end
  end.

Definition hex_val (c : N) : option N :=
  (if is_digit c then Some (c - 48)
   else if (97 <=? c) && (c <=? 102) then Some (c - 87)
   else if (65 <=? c) && (c <=? 70) then Some (c - 55)
   else None)%N.

Definition hex4 (a b c d : N) : option N :=
  h1 ← hex_val a; h2 ← hex_val b; h3 ← hex_val c; h4 ← hex_val d;
  Some (((h1 * 16 + h2) * 16 + h3) * 16 + h4)%N.

(** The [BACKSLASH] table of decoder.py. *)
Definition backslash (c : N) : option N :=
  if is_quote c then Some QUOTE
  else if is_backslash c then Some BACKSLASH
  else if is_chr "/" c then Some 47%N
  else if is_chr "b" c then Some 8%N
  else if is_chr "f" c then Some 12%N
  else if is_chr "n" c then Some 10%N
  else if is_chr "r" c then Some 13%N
  else if is_chr "t" c then Some 9%N
  else None.

Definition is_high_surrogate (u : N) : bool := ((55296 <=? u) && (u <=? 56319))%N.
Definition is_low_surrogate (u : N) : bool := ((56320 <=? u) && (u <=? 57343))%N.
Definition join_surrogates (u u2 : N) : N :=
  (65536 + ((u - 55296) * 1024 + (u2 - 56320)))%N.

(** [scanstring(s, end, strict=True)]: [s] starts after the opening quote;
    the result is the decoded string and the text after the closing
    quote, [None] for a [JSONDecodeError]. *)
Fixpoint scanstring (s : str) (chunks : str) : option (str * str) :=
  match s with
  | [] => None
  | c :: r =>
      if is_quote c then Some (chunks, r)
      else if is_backslash c then
        match r with
        | [] => None
        | esc :: r1 =>
            if is_chr "u" esc then
              match r1 with
              | h1 :: h2 :: h3 :: h4 :: r2 =>
                  match hex4 h1 h2 h3 h4 with
                  | None => None
                  | Some uni =>
                      if is_high_surrogate uni then
                        match r2 with
                        | b :: u :: g1 :: g2 :: g3 :: g4 :: r3 =>
                            if is_backslash b && is_chr "u" u then
                              match hex4 g1 g2 g3 g4 with
                              | None => None
                              | Some uni2 =>
                                  if is_low_surrogate uni2
                                  then scanstring r3 (chunks ++ [join_surrogates uni uni2])
                                  else scanstring r2 (chunks ++ [uni])
                              end
                            else scanstring r2 (chunks ++ [uni])
                        | _ => scanstring r2 (chunks ++ [uni])
                        end
                      else scanstring r2 (chunks ++ [uni])
                  end
              | _ => None
              end
            else
              match backslash esc with
              | Some ch => scanstring r1 (chunks ++ [ch])
              | None => None
              end
        end
      else if (c <? 32)%N then None
      else scanstring r (chunks ++ [c])
  end.

(** Outcome of a scan: a value and the remaining text, a decode error, or
    recursion budget exhausted. *)
Inductive pres :=
| POk (v : json) (rest : str)
| PErr
| PFuel.

(** [_scan_once], and the [while True] loops of [JSONArray] and
    [JSONObject]. *)
Fixpoint scan_once (fuel : nat) (s : str) : pres :=
  match fuel with
  | O => PFuel
  | S fuel =>
      match s with
      | [] => PErr
      | c :: r =>
          if is_quote c then
            match scanstring r [] with
            | Some (x, rest) => POk (JStr x) rest
            | None => PErr
            end
          else if is_chr "{" c then
            match skip_ws r with
            | c1 :: r2 =>
                if is_chr "}" c1 then POk (JObj []) r2
                else if is_quote c1 then object_loop fuel r2 []
                else PErr
            | [] => PErr
            end
          else if is_chr "[" c then
            match skip_ws r with
            | c1 :: r2 =>
                if is_chr "]" c1 then POk (JArr []) r2
                else array_loop fuel (c1 :: r2) []
            | [] => PErr
            end
          else if starts_with (lit "null") s then POk JNull (drop 4 s)
          else if starts_with (lit "true") s then POk (JBool true) (drop 4 s)
          else if starts_with (lit "false") s then POk (JBool false) (drop 5 s)
          else
            match match_number s with
            | Some (n, rest) => POk (JNum n) rest
            | None =>
                if starts_with (lit "NaN") s then POk (JNum (PyFloat FNaN)) (drop 3 s)
                else if starts_with (lit "Infinity") s
                then POk (JNum (PyFloat (FInf false))) (drop 8 s)
                else if starts_with (lit "-Infinity") s
                then POk (JNum (PyFloat (FInf true))) (drop 9 s)
                else PErr
            end
      end
  end
with array_loop (fuel : nat) (s : str) (values : list json) : pres :=
  match fuel with
  | O => PFuel
  | S fuel =>
      match scan_once fuel s with
      | POk value rest =>
          match skip_ws rest with
          | c :: r =>
              if is_chr "]" c then POk (JArr (values ++ [value])) r
              else if is_chr "," c then array_loop fuel (skip_ws r) (values ++ [value])
              else PErr
          | [] => PErr
          end
      | PErr => PErr
      | PFuel => PFuel
      end
  end
with object_loop (fuel : nat) (s : str) (pairs : list (str * json)) : pres :=
  match fuel with
  | O => PFuel
  | S fuel =>
      match scanstring s [] with
      | None => PErr
      | Some (key, r0) =>
          match skip_ws r0 with
          | c :: r1 =>
              if is_chr ":" c then
                match scan_once fuel (skip_ws r1) with
                | POk value rest =>
                    match skip_ws rest with
                    | c2 :: r2 =>
                        if is_chr "}" c2
                        then POk (JObj (py_dict (pairs ++ [(key, value)]))) r2
                        else if is_chr "," c2 then
                          match skip_ws r2 with
                          | c3 :: r3 =>
                              if is_quote c3
                              then object_loop fuel r3 (pairs ++ [(key, value)])
                              else PErr
                          | [] => PErr
                          end
                        else PErr
                    | [] => PErr
                    end
                | PErr => PErr
                | PFuel => PFuel
                end
              else PErr
          | [] => PErr
          end
      end
  end.

(** Recursion budget that the scan of [s] never exhausts. *)
Definition scan_budget (s : str) : nat := 2 * length s + 2.

(** [json.loads(s)] for a [str] argument. *)
Definition json_loads (s : str) : result json :=
  if starts_with [65279%N] s then Raise JSONDecodeError     (* UTF-8 BOM *)
  else
    match scan_once (scan_budget s) (skip_ws s) with
    | POk obj rest =>
        match skip_ws rest with
        | [] => Ok obj
        | _ :: _ => Raise JSONDecodeError                    (* Extra data *)
        end
    | PErr => Raise JSONDecodeError
    | PFuel => Raise RecursionError
    end.

(** ** [re.search(r'\[.*?\]', text, re.DOTALL)]

    The leftmost match of a non-greedy pattern starts at the first ['[']
    that is followed by some [']'] and ends at the first [']'] after it. *)

Fixpoint until_chr (a : ascii) (s : str) : option (str * str) :=
  match s with
  | [] => None
  | c :: r =>
      if is_chr a c then Some ([], r)
      else match until_chr a r with
           | Some (before, after) => Some (c :: before, after)
           | None => None
           end
  end.

(** The matched text, [json_match.group()], when there is a match. *)
Definition re_search_array (text : str) : option str :=
  '(_, after_open) ← until_chr "[" text;
  '(inside, _) ← until_chr "]" after_open;
  Some (lit "[" ++ inside ++ lit "]").

(** In the words of the specification, "the first balanced bracketed
    array substring": from the first ['['] to the [']'] that closes it,
    nested brackets counted.  [balanced_from depth s] reads [s] after an
    opening bracket with [depth] further brackets open. *)
Fixpoint balanced_from (depth : nat) (s : str) : option str :=
  match s with
  | [] => None
  | c :: r =>
      if is_chr "[" c then cons c <$> balanced_from (S depth) r
      else if is_chr "]" c then
        match depth with
        | O => Some [c]
        | S d => cons c <$> balanced_from d r
        end
      else cons c <$> balanced_from depth r
  end.

Definition first_balanced_array (text : str) : option str :=
  '(_, after_open) ← until_chr "[" text;
  inside ← balanced_from 0 after_open;
  Some (lit "[" ++ inside).

(** ** Batching (app.py, lines 130-133) *)

Definition batch_size : nat := 4.

(** The batches visited by
    [for i in range(0, len(images), batch_size): batch = images[i:i + batch_size]]. *)
Definition batches {A} (images : list A) : list (list A) :=
  (λ i, py_slice images i (i + batch_size)) <$> py_range 0 (length images) batch_size.

(** ** The batch extraction engine (app.py, lines 127-241) *)

(** Binary payloads (file contents, image data). *)
Definition bytes := list N.

(** An extracted image; the engine never inspects it. *)
Definition image := bytes.

(** What one batch's [try] block (lines 136-209) obtains from the excluded
    collaborators: either encoding the images or the inference call
    raised, or the reply's text arrived. *)
Inductive reply :=
| ApiRaises
| ApiText (text : str).

(** The inference service as seen by one file: the reply for the request
    built from the file name, the batch number and the batch. *)
Definition inference := str → nat → list image → reply.

(** Lines 211-234: the entries that a response text adds to
    [all_entries].  A batch that is skipped adds none. *)
Definition parse_response (response_text : str) : list json :=
  match json_loads response_text with
  | Ok (JArr batch_entries) => batch_entries
  | Ok _ => []                                  (* "Invalid response format" *)
  | Raise JSONDecodeError =>
      match re_search_array response_text with
      | Some json_match =>
          match json_loads json_match with
          | Ok (JArr batch_entries) => batch_entries
          | Ok _ => []
          | Raise _ => []                       (* "Could not parse JSON" *)
          end
      | None => []                              (* "No JSON found in response" *)
      end
  | Raise _ => []                               (* outer [except Exception] *)
  end.

(** One iteration of the loop at line 132, for the start index [i]. *)
Definition process_batch (claude : inference) (images : list image) (filename : str)
    (all_entries : list json) (i : nat) : list json :=
  let batch := py_slice images i (i + batch_size) in
  match claude filename (Nat.div i batch_size + 1) batch with
  | ApiRaises => all_entries                    (* line 236: log and continue *)
  | ApiText text => all_entries ++ parse_response (strip text)
  end.

(** What one reply adds to [all_entries]. *)
Definition reply_entries (r : reply) : list json :=
  match r with
  | ApiRaises => []
  | ApiText text => parse_response (strip text)
  end.

Definition process_images_in_batches (claude : inference) (images : list image)
    (filename : str) : list json :=
  foldl (process_batch claude images filename) []
        (py_range 0 (length images) batch_size).

(** [all_entries] after the first [k] iterations of the loop. *)
Definition entries_after (claude : inference) (images : list image)
    (filename : str) (k : nat) : list json :=
  foldl (process_batch claude images filename) []
        (take k (py_range 0 (length images) batch_size)).

(** The three ways in which the batch with text [text] is dropped. *)
Definition strict_parse_fails (response_text : str) : Prop :=
  ∃ e, json_loads response_text = Raise e.

Definition recovery_parse_fails (response_text : str) : Prop :=
  re_search_array response_text = None
  ∨ ∃ json_match e, re_search_array response_text = Some json_match
                    ∧ json_loads json_match = Raise e.

Definition parsed_non_array (response_text : str) : Prop :=
  ∃ v, json_loads response_text = Ok v ∧ ∀ l, v ≠ JArr l.

Definition batch_failed (r : reply) : Prop :=
  match r with
  | ApiRaises => True
  | ApiText text =>
      (strict_parse_fails (strip text) ∧ recovery_parse_fails (strip text))
      ∨ parsed_non_array (strip text)
  end.

(** ** The per-file tagging step (app.py, lines 243-257) *)

(** [entry[key] = value]: only a dict supports assignment by a [str] key. *)
Definition setitem (entry : json) (key : str) (value : json) : result json :=
  match entry with
  | JObj d => Ok (JObj (dict_set d key value))
  | _ => Raise TypeError
  end.

(** [for entry in all_entries: entry['source_file'] = filename] *)
Fixpoint tag_source_file (all_entries : list json) (filename : str) : result (list json) :=
  match all_entries with
  | [] => Ok []
  | entry :: rest =>
      match setitem entry (lit "source_file") (JStr filename) with
      | Raise e => Raise e
      | Ok entry' =>
          match tag_source_file rest filename with
          | Raise e => Raise e
          | Ok rest' => Ok (entry' :: rest')
          end
      end
  end.

Definition extract_timesheet_data_with_claude (claude : inference)
    (images : list image) (filename : str) : result (list json) :=
  match images with
  | [] => Ok []
  | _ :: _ => tag_source_file (process_images_in_batches claude images filename) filename
  end.

(** ** The module-level tables (app.py, lines 77-86) *)

(** The values of a record's ['status']: ['processing'], ['completed']
    and ['error']. *)
Inductive job_status := Processing | Completed | Failed.

Module Job.
(** A value of [processing_status]; [error] holds the exception whose
    [str] the source stores.  The environment metadata is omitted. *)
Record t := mk {
  status : job_status;
  total : nat;
  processed : nat;
  current_file : str;
  total_entries : nat;
  error : option exn
}.
Definition set_status (s : job_status) (j : t) : t :=
  mk s (total j) (processed j) (current_file j) (total_entries j) (error j).
Definition set_processed (n : nat) (j : t) : t :=
  mk (status j) (total j) n (current_file j) (total_entries j) (error j).
Definition set_current_file (f : str) (j : t) : t :=
  mk (status j) (total j) (processed j) f (total_entries j) (error j).
Definition set_total_entries (n : nat) (j : t) : t :=
  mk (status j) (total j) (processed j) (current_file j) n (error j).
Definition set_error (e : exn) (j : t) : t :=
  mk (status j) (total j) (processed j) (current_file j) (total_entries j) (Some e).
End Job.

Module Metrics.
Record t := mk {
  total_documents : nat;
  total_hours : pynum;
  total_entries : nat;
  total_images : nat
}.
End Metrics.

Record store := mk_store {
  processing_results : gmap str (list json);
  processing_status : gmap str Job.t;
  dashboard_metrics : Metrics.t
}.

Definition initial_store : store :=
  mk_store ∅ ∅ (Metrics.mk 0 (PyInt 0) 0 0).

(** ** Statements over the tables: state with exceptions *)

(** A computation reads and writes the tables and returns or raises;
    writes made before a raise stay. *)
Definition M (A : Type) : Type := store → result A * store.

#[global] Instance M_ret : MRet M := λ A a st, (Ok a, st).

#[global] Instance M_bind : MBind M := λ A B k m st,
  match m st with
  | (Ok a, st') => k a st'
  | (Raise e, st') => (Raise e, st')
  end.

Definition lift {A} (r : result A) : M A := λ st, (r, st).

(** [try: body except Exception as e: handler(e)] *)
Definition try_except {A} (body : M A) (handler : exn → M A) : M A := λ st,
  match body st with
  | (Ok a, st') => (Ok a, st')
  | (Raise e, st') => handler e st'
  end.

(** [try: body finally: final] *)
Definition try_finally {A} (body : M A) (final : M ()) : M A := λ st,
  let '(r, st') := body st in
  match final st' with
  | (Ok _, st'') => (r, st'')
  | (Raise e, st'') => (Raise e, st'')
  end.

(** [processing_status[job_id][field] = ...]; [KeyError] without a record. *)
Definition update_job (job_id : str) (f : Job.t → Job.t) : M () := λ st,
  match processing_status st !! job_id with
  | Some j =>
      (Ok (), mk_store (processing_results st)
                       (<[job_id := f j]> (processing_status st))
                       (dashboard_metrics st))
  | None => (Raise KeyError, st)
  end.

Definition update_metrics (f : Metrics.t → Metrics.t) : M () := λ st,
  (Ok (), mk_store (processing_results st) (processing_status st)
                   (f (dashboard_metrics st))).

(** Line 265. *)
Definition set_current_file (job_id filename : str) : M () :=
  update_job job_id (Job.set_current_file filename).

(** Line 266. *)
Definition incr_processed (job_id : str) : M () :=
  update_job job_id (λ j, Job.set_processed (Job.processed j + 1) j).

(** Line 287. *)
Definition add_images (n : nat) : M () :=
  update_metrics (λ m, Metrics.mk (Metrics.total_documents m) (Metrics.total_hours m)
                                  (Metrics.total_entries m) (Metrics.total_images m + n)).

(** Line 319. *)
Definition add_documents (n : nat) : M () :=
  update_metrics (λ m, Metrics.mk (Metrics.total_documents m + n) (Metrics.total_hours m)
                                  (Metrics.total_entries m) (Metrics.total_images m)).

(** Line 320. *)
Definition add_entries (n : nat) : M () :=
  update_metrics (λ m, Metrics.mk (Metrics.total_documents m) (Metrics.total_hours m)
                                  (Metrics.total_entries m + n) (Metrics.total_images m)).

(** [entry.get(key, default)]; [AttributeError] unless [entry] is a dict. *)
Definition entry_get (entry : json) (key : str) (dflt : json) : result json :=
  match entry with
  | JObj d => Ok (default dflt (dict_lookup d key))
  | _ => Raise AttributeError
  end.

(** [total + v] for a numeric [total]: [bool] counts as an int, anything
    else than a number is a [TypeError], and an int too large for a float
    that meets a float is an [OverflowError]. *)
Definition add_value (total : pynum) (v : json) : result pynum :=
  match v with
  | JNum n => num_add total n
  | JBool b => num_add total (PyInt (Z.b2z b))
  | _ => Raise TypeError
  end.

(** Line 324: [dashboard_metrics['total_hours'] += entry.get('hours', 0)]. *)
Definition add_hours (entry : json) : M () := λ st,
  let m := dashboard_metrics st in
  match entry_get entry (lit "hours") (JNum (PyInt 0)) with
  | Raise e => (Raise e, st)
  | Ok v =>
      match add_value (Metrics.total_hours m) v with
      | Raise e => (Raise e, st)
      | Ok h =>
          (Ok (), mk_store (processing_results st) (processing_status st)
                           (Metrics.mk (Metrics.total_documents m) h
                                       (Metrics.total_entries m) (Metrics.total_images m)))
      end
  end.

(** Line 327. *)
Definition store_result (job_id : str) (all_data : list json) : M () := λ st,
  (Ok (), mk_store (<[job_id := all_data]> (processing_results st))
                   (processing_status st) (dashboard_metrics st)).

(** Line 328. *)
Definition set_completed (job_id : str) : M () :=
  update_job job_id (Job.set_status Completed).

(** Line 329. *)
Definition set_total_entries (job_id : str) (n : nat) : M () :=
  update_job job_id (Job.set_total_entries n).

(** Line 335. *)
Definition set_failed (job_id : str) : M () :=
  update_job job_id (Job.set_status Failed).

(** Line 336. *)
Definition set_error (job_id : str) (e : exn) : M () :=
  update_job job_id (Job.set_error e).

(** ** The file extraction worker (app.py, lines 259-297) *)

(** The collaborators as seen by one call of [process_single_file]. *)
Record file_world := mk_world {
  tempfile_ok : bool;          (* writing the temporary file succeeds *)
  docx_images : list image;    (* [extract_images_from_docx]; it never raises *)
  claude : inference;
  unlink_ok : bool             (* [os.unlink] succeeds *)
}.

Definition external (ok : bool) : M () :=
  lift (if ok then Ok () else Raise ExternalError).

(** Lines 270-293: from the temporary file to the [finally]. *)
Definition extract_file (w : file_world) (filename : str) : M (list json) :=
  _ ← external (tempfile_ok w);
  try_finally
    (let images := docx_images w in
     match images with
     | [] => mret []                                           (* line 281 *)
     | _ :: _ =>
         data ← lift (extract_timesheet_data_with_claude (claude w) images filename);
         _ ← add_images (length images);
         mret data
     end)
    (external (unlink_ok w)).

(** The [try] block, lines 262-293. *)
Definition single_file_body (w : file_world) (file_data : str * bytes)
    (job_id : str) : M (list json) :=
  let '(filename, file_content) := file_data in
  _ ← set_current_file job_id filename;
  _ ← incr_processed job_id;
  extract_file w filename.

Definition process_single_file (w : file_world) (file_data : str * bytes)
    (job_id : str) : M (list json) :=
  try_except (single_file_body w file_data job_id)
             (λ e, mret []).                                   (* lines 295-297 *)

(** The number by which one call of the worker raises [total_images]:
    line 287 is reached when the temporary file was written and the
    extraction returned. *)
Definition images_counted (w : file_world) (filename : str) : nat :=
  if tempfile_ok w then
    match extract_timesheet_data_with_claude (claude w) (docx_images w) filename with
    | Ok _ => length (docx_images w)
    | Raise _ => 0
    end
  else 0.

(** Lines 265-266 on the job's record. *)
Definition file_started (filename : str) (j : Job.t) : Job.t :=
  Job.set_processed (Job.processed j + 1) (Job.set_current_file filename j).

(** ** The background job (app.py, lines 299-336) *)

(** The loop at line 305; [world i] serves the [i]-th file of the job. *)
Fixpoint for_files (world : nat → file_world) (i : nat) (files : list (str * bytes))
    (job_id : str) (all_data : list json) : M (list json) :=
  match files with
  | [] => mret all_data
  | file_data :: rest =>
      all_data' ← try_except
                    (result ← process_single_file (world i) file_data job_id;
                     mret (all_data ++ result))
                    (λ e, mret all_data);
      for_files world (S i) rest job_id all_data'
  end.

(** The loop at line 323. *)
Fixpoint for_hours (all_data : list json) : M () :=
  match all_data with
  | [] => mret ()
  | entry :: rest => _ ← add_hours entry; for_hours rest
  end.

(** Lines 318-329. *)
Definition finish_job (files : list (str * bytes)) (job_id : str)
    (all_data : list json) : M () :=
  _ ← add_documents (length files);
  _ ← add_entries (length all_data);
  _ ← for_hours all_data;
  _ ← store_result job_id all_data;
  _ ← set_completed job_id;
  set_total_entries job_id (length all_data).

Definition process_files_bulk (world : nat → file_world) (files : list (str * bytes))
    (job_id : str) : M () :=
  try_except
    (all_data ← for_files world 0 files job_id [];
     finish_job files job_id all_data)
    (λ e, _ ← set_failed job_id; set_error job_id e).

(** The image count added by the loop over the files of a job. *)
Fixpoint images_total (world : nat → file_world) (i : nat) (files : list (str * bytes)) : nat :=
  match files with
  | [] => 0
  | (filename, _) :: rest => images_counted (world i) filename + images_total world (S i) rest
  end.

(** The value that the loop at line 323 leaves in [total_hours], or the
    exception that stops it. *)
Fixpoint sum_hours (total : pynum) (all_data : list json) : result pynum :=
  match all_data with
  | [] => Ok total
  | entry :: rest =>
      match entry_get entry (lit "hours") (JNum (PyInt 0)) with
      | Raise e => Raise e
      | Ok v =>
          match add_value total v with
          | Raise e => Raise e
          | Ok total' => sum_hours total' rest
          end
      end
  end.

(** ** The spreadsheet export (app.py, lines 338-388) *)

(** [str.lower] on the ASCII letters.  The two comparisons below are
    against ASCII words that contain neither [k] nor [i], the only ASCII
    letters that are the lower case of a non-ASCII code point, so the
    rest of the case mapping does not matter. *)
Definition py_lower (s : str) : str :=
  (λ c, if (65 <=? c) && (c <=? 90) then c + 32 else c)%N <$> s.

Definition ends_with (suffix s : str) : bool := starts_with (rev suffix) (rev s).

#[global] Instance result_ret : MRet result := λ A a, Ok a.

#[global] Instance result_bind : MBind result := λ A B k r,
  match r with
  | Ok a => k a
  | Raise e => Raise e
  end.

(** Library model of openpyxl's cell assignment ([Cell._bind_value] and
    [Cell.check_string]): [None], booleans and numbers are stored as they
    are; a string is cut to its first 32767 characters, and stored unless
    what is left holds a control character; lists and dicts raise. *)
Definition illegal_character (c : N) : bool :=
  ((c <=? 8) || (c =? 11) || (c =? 12) || (14 <=? c) && (c <=? 31))%N.

Definition cell_limit : nat := Z.to_nat 32767.

Definition ws_cell (value : json) : result json :=
  match value with
  | JArr _ | JObj _ => Raise ValueError
  | JStr s =>
      let s' := take cell_limit s in
      if existsb illegal_character s' then Raise IllegalCharacterError else Ok (JStr s')
  | _ => Ok value
  end.

(** A rendered row: the seven cells and whether the status cell is
    highlighted. *)
Record sheet_row := mk_row { cells : list json; highlighted : bool }.

Definition workbook := list sheet_row.

(** [entry.get('submission_status', '').lower() == 'closed'] *)
Definition status_is_closed (entry : json) : result bool :=
  v ← entry_get entry (lit "submission_status") (JStr []);
  match v with
  | JStr s => Ok (bool_decide (py_lower s = lit "closed"))
  | _ => Raise AttributeError
  end.

(** Lines 362-373, for one entry. *)
Definition excel_row (entry : json) : result sheet_row :=
  c1 ← entry_get entry (lit "employee_name") (JStr (lit "Unknown")) ≫= ws_cell;
  c2 ← entry_get entry (lit "date") (JStr []) ≫= ws_cell;
  c3 ← entry_get entry (lit "hours") (JNum (PyInt 0)) ≫= ws_cell;
  c4 ← entry_get entry (lit "submission_status") (JStr (lit "pending")) ≫= ws_cell;
  c5 ← entry_get entry (lit "week") (JStr []) ≫= ws_cell;
  c6 ← entry_get entry (lit "total_hours") (JNum (PyInt 0)) ≫= ws_cell;
  c7 ← entry_get entry (lit "source_file") (JStr []) ≫= ws_cell;
  closed ← status_is_closed entry;
  mret (mk_row [c1; c2; c3; c4; c5; c6; c7] closed).

Fixpoint create_excel_file (data : list json) : result workbook :=
  match data with
  | [] => Ok []
  | entry :: rest =>
      row ← excel_row entry;
      rows ← create_excel_file rest;
      mret (row :: rows)
  end.

(** ** The request handlers (app.py, lines 1045-1145) *)

Inductive response :=
| RespError (code : nat) (message : str)    (* [jsonify({'error': message}), code] *)
| RespException (e : exn)                   (* [jsonify({'error': str(e)}), 500] *)
| RespStarted (job_id : str) (total_files : nat)
| RespStatus (j : Job.t)
| RespFile (wb : workbook).

(** Line 1062: the accepted documents. *)
Definition accepted (file : str * bytes) : bool :=
  ends_with (lit ".docx") (py_lower file.1) || ends_with (lit ".doc") (py_lower file.1).

(** Lines 1069-1078. *)
Definition init_status (job_id : str) (total : nat) : M () := λ st,
  (Ok (), mk_store (processing_results st)
                   (<[job_id := Job.mk Processing total 0 [] 0 None]> (processing_status st))
                   (dashboard_metrics st)).

(** [process_bulk] for the uploaded [files] and the identifier [job_id]
    drawn by [uuid.uuid4()]: the response and, when the job is accepted,
    the arguments of the thread that it starts. *)
Definition process_bulk (job_id : str) (files : list (str * bytes))
    : M (response * option (list (str * bytes))) :=
  match files with
  | [] => mret (RespError 400 (lit "No files provided"), None)
  | _ :: _ =>
      let file_data := filter (λ file, accepted file = true) files in
      match file_data with
      | [] => mret (RespError 400 (lit "No valid DOCX files found"), None)
      | _ :: _ =>
          _ ← init_status job_id (length file_data);
          mret (RespStarted job_id (length file_data), Some file_data)
      end
  end.

Definition get_status (job_id : str) : M response := λ st,
  match processing_status st !! job_id with
  | None => (Ok (RespError 404 (lit "Job not found")), st)
  | Some j => (Ok (RespStatus j), st)
  end.

(** [del processing_results[job_id]] *)
Definition del_result (job_id : str) : M () := λ st,
  match processing_results st !! job_id with
  | Some _ => (Ok (), mk_store (delete job_id (processing_results st))
                               (processing_status st) (dashboard_metrics st))
  | None => (Raise KeyError, st)
  end.

(** [del processing_status[job_id]] *)
Definition del_status (job_id : str) : M () := λ st,
  match processing_status st !! job_id with
  | Some _ => (Ok (), mk_store (processing_results st)
                               (delete job_id (processing_status st)) (dashboard_metrics st))
  | None => (Raise KeyError, st)
  end.

(** Lines 1107-1145.  Writing the workbook to memory (lines 1123-1125)
    is taken to succeed; it comes before the two deletions, so if it
    raises the answer is a 500 and nothing is deleted. *)
Definition download_result (job_id : str) : M response :=
  try_except
    (λ st,
       match processing_results st !! job_id with
       | None => (Ok (RespError 404 (lit "Results not found")), st)
       | Some [] => (Ok (RespError 400 (lit "No data extracted")), st)
       | Some data =>
           (wb ← lift (create_excel_file data);
            _ ← del_result job_id;
            _ ← del_status job_id;
            mret (RespFile wb)) st
       end)
    (λ e, mret (RespException e)).

(** ** The running system: the tables and one worker thread per job *)

(** Where a thread of [process_files_bulk] stands, with its locals; each
    step below executes one statement that touches the tables, as a
    whole.  That is the grain of [processing_status] and
    [processing_results], whose entry for a job is written by that job's
    thread and deleted by its retrieval only.  It is coarser than CPython
    for [dashboard_metrics]: a [+=] there reads, calls and writes in
    turn, and two jobs' threads can interleave inside it, so the steps
    say what one job adds to the counters and nothing about the counters
    of jobs that run together. *)
Inductive pc :=
| PFor (rest : list (str * bytes)) (all_data : list json)
    (* line 305: take the next file, line 265; or leave the loop, line 319 *)
| PProcessed (filename : str) (rest : list (str * bytes)) (all_data : list json)
    (* line 266 *)
| PExtract (filename : str) (rest : list (str * bytes)) (all_data : list json)
    (* lines 270-293 and 308 *)
| PEntries (all_data : list json)
    (* line 320 *)
| PHours (remaining all_data : list json)
    (* lines 323-324, one entry; or line 327 after the last *)
| PCompleted (all_data : list json)
    (* line 328 *)
| PTotalEntries (all_data : list json)
    (* line 329 *)
| PFailed (e : exn)
    (* line 335 *)
| PError (e : exn)
    (* line 336 *)
| PDone
| PCrashed (e : exn).
    (* the [except] block itself raised *)

Record thread := mk_thread { t_files : list (str * bytes); t_pc : pc }.

(** One statement of the thread of job [job_id]; [w] stands for the
    collaborators of the file at hand. *)
Definition thread_step (w : file_world) (job_id : str) (files : list (str * bytes))
    (p : pc) (st : store) : pc * store :=
  match p with
  | PFor ((filename, _) :: rest) all_data =>
      match set_current_file job_id filename st with
      | (Ok _, st') => (PProcessed filename rest all_data, st')
      | (Raise _, st') => (PFor rest all_data, st')       (* worker returns [] *)
      end
  | PProcessed filename rest all_data =>
      match incr_processed job_id st with
      | (Ok _, st') => (PExtract filename rest all_data, st')
      | (Raise _, st') => (PFor rest all_data, st')
      end
  | PExtract filename rest all_data =>
      match extract_file w filename st with
      | (Ok data, st') => (PFor rest (all_data ++ data), st')
      | (Raise _, st') => (PFor rest all_data, st')
      end
  | PFor [] all_data =>
      match add_documents (length files) st with
      | (Ok _, st') => (PEntries all_data, st')
      | (Raise e, st') => (PFailed e, st')
      end
  | PEntries all_data =>
      match add_entries (length all_data) st with
      | (Ok _, st') => (PHours all_data all_data, st')
      | (Raise e, st') => (PFailed e, st')
      end
  | PHours (entry :: remaining) all_data =>
      match add_hours entry st with
      | (Ok _, st') => (PHours remaining all_data, st')
      | (Raise e, st') => (PFailed e, st')
      end
  | PHours [] all_data =>
      match store_result job_id all_data st with
      | (Ok _, st') => (PCompleted all_data, st')
      | (Raise e, st') => (PFailed e, st')
      end
  | PCompleted all_data =>
      match set_completed job_id st with
      | (Ok _, st') => (PTotalEntries all_data, st')
      | (Raise e, st') => (PFailed e, st')
      end
  | PTotalEntries all_data =>
      match set_total_entries job_id (length all_data) st with
      | (Ok _, st') => (PDone, st')
      | (Raise e, st') => (PFailed e, st')
      end
  | PFailed e =>
      match set_failed job_id st with
      | (Ok _, st') => (PError e, st')
      | (Raise e', st') => (PCrashed e', st')
      end
  | PError e =>
      match set_error job_id e st with
      | (Ok _, st') => (PDone, st')
      | (Raise e', st') => (PCrashed e', st')
      end
  | PDone => (PDone, st)
  | PCrashed e => (PCrashed e, st)
  end.

Definition finished (p : pc) : bool :=
  match p with PDone | PCrashed _ => true | _ => false end.

(** The position, in the job's list, of the file that the thread is
    working on. *)
Definition file_index (files : list (str * bytes)) (p : pc) : nat :=
  match p with
  | PFor rest _ => length files - length rest
  | PProcessed _ rest _ | PExtract _ rest _ => length files - S (length rest)
  | _ => 0
  end.

(** The thread run on its own for at most [n] statements; [world i]
    serves the [i]-th file, as in [for_files]. *)
Fixpoint run_thread (world : nat → file_world) (job_id : str) (files : list (str * bytes))
    (n : nat) (p : pc) (st : store) : pc * store :=
  match n with
  | O => (p, st)
  | S n =>
      if finished p then (p, st)
      else
        let '(p', st') := thread_step (world (file_index files p)) job_id files p st in
        run_thread world job_id files n p' st'
  end.

(** Where the thread ends when [process_files_bulk] returns or raises. *)
Definition end_pc (r : result ()) : pc :=
  match r with
  | Ok _ => PDone
  | Raise e => PCrashed e
  end.

Record system := mk_system {
  tables : store;
  threads : gmap str thread
}.

Definition initial_system : system := mk_system initial_store ∅.

(** What can happen next: a request is served, or the thread of some job
    executes its next statement. *)
Inductive event :=
| EvSubmit (job_id : str) (files : list (str * bytes))   (* POST /process-bulk *)
| EvStatus (job_id : str)                                 (* GET /status/<job_id> *)
| EvDownload (job_id : str)                               (* GET /download/<job_id> *)
| EvWork (job_id : str) (w : file_world).

(** The successor state and the response, if any.  [uuid.uuid4()] is
    taken never to return an identifier that it returned before: a
    submission under a used identifier is not a step. *)
Definition step (s : system) (ev : event) : option (system * option response) :=
  match ev with
  | EvSubmit job_id files =>
      match threads s !! job_id with
      | Some _ => None
      | None =>
          match process_bulk job_id files (tables s) with
          | (Ok (resp, Some file_data), st') =>
              Some (mk_system st' (<[job_id := mk_thread file_data (PFor file_data [])]> (threads s)),
                    Some resp)
          | (Ok (resp, None), st') => Some (mk_system st' (threads s), Some resp)
          | (Raise e, st') => Some (mk_system st' (threads s), Some (RespException e))
          end
      end
  | EvStatus job_id =>
      match get_status job_id (tables s) with
      | (Ok resp, st') => Some (mk_system st' (threads s), Some resp)
      | (Raise e, st') => Some (mk_system st' (threads s), Some (RespException e))
      end
  | EvDownload job_id =>
      match download_result job_id (tables s) with
      | (Ok resp, st') => Some (mk_system st' (threads s), Some resp)
      | (Raise e, st') => Some (mk_system st' (threads s), Some (RespException e))
      end
  | EvWork job_id w =>
      match threads s !! job_id with
      | None => None
      | Some th =>
          if finished (t_pc th) then None
          else
            let '(p', st') := thread_step w job_id (t_files th) (t_pc th) (tables s) in
            Some (mk_system st' (<[job_id := mk_thread (t_files th) p']> (threads s)), None)
      end
  end.

Fixpoint run (s : system) (evs : list event) : option system :=
  match evs with
  | [] => Some s
  | ev :: rest =>
      match step s ev with
      | Some (s', _) => run s' rest
      | None => None
      end
  end.

Definition reachable (s : system) : Prop :=
  ∃ evs, run initial_system evs = Some s.

(** ** The invariant of the running system *)

(** The job's record exists, with the given status, [total] the number
    of accepted files, and [pending] increments of [processed] to come. *)
Definition rec_ok (files : list (str * bytes)) (pending : nat) (status : job_status)
    (rec : option Job.t) : Prop :=
  ∃ j, rec = Some j ∧ Job.status j = status ∧ Job.total j = length files
       ∧ Job.processed j + pending = Job.total j.

(** What the tables hold for a job whose thread stands at [p]: [rec] is
    its entry in [processing_status], [res] in [processing_results]. *)
Definition pc_ok (files : list (str * bytes)) (p : pc)
    (rec : option Job.t) (res : option (list json)) : Prop :=
  match p with
  | PFor rest _ | PExtract _ rest _ => res = None ∧ rec_ok files (length rest) Processing rec
  | PProcessed _ rest _ => res = None ∧ rec_ok files (S (length rest)) Processing rec
  | PEntries _ | PHours _ _ => res = None ∧ rec_ok files 0 Processing rec
  | PCompleted all_data =>
      (res = Some all_data ∧ rec_ok files 0 Processing rec) ∨ (res = None ∧ rec = None)
  | PTotalEntries all_data =>
      (res = Some all_data ∧ rec_ok files 0 Completed rec) ∨ (res = None ∧ rec = None)
  | PFailed _ => res = None ∧ (rec_ok files 0 Processing rec ∨ rec = None)
  | PError _ => res = None ∧ (rec_ok files 0 Failed rec ∨ rec = None)
  | PDone =>
      (is_Some res ∧ rec_ok files 0 Completed rec)
      ∨ (res = None ∧ rec = None)
      ∨ (res = None ∧ rec_ok files 0 Failed rec)
  | PCrashed _ => res = None ∧ rec = None
  end.

Definition job_ok (s : system) (job_id : str) : Prop :=
  let rec := processing_status (tables s) !! job_id in
  let res := processing_results (tables s) !! job_id in
  match threads s !! job_id with
  | Some th => pc_ok (t_files th) (t_pc th) rec res
  | None => rec = None ∧ res = None
  end.

Definition invariant (s : system) : Prop := ∀ job_id, job_ok s job_id.

(** The thread has not reached line 327 yet. *)
Definition before_store (p : pc) : bool :=
  match p with
  | PFor _ _ | PProcessed _ _ _ | PExtract _ _ _ | PEntries _ | PHours _ _ => true
  | _ => false
  end.

(** The job's result is gone, or was never stored, and its thread is
    past the point where it could store it. *)
Definition consumed (s : system) (job_id : str) : Prop :=
  processing_results (tables s) !! job_id = None
  ∧ ∃ th, threads s !! job_id = Some th ∧ before_store (t_pc th) = false.

(** ** Scenarios *)

(** Scenario B: five images, the second batch's reply is cut short. *)
Definition scenario_B_images : list image := [[1]; [2]; [3]; [4]; [5]]%N.

Definition scenario_B_claude : inference := λ filename batch_no batch,
  if Nat.eqb batch_no 1
  then ApiText (qlit "[{'employee_name':'A','hours':8},{'employee_name':'A','hours':7.5}]")
  else ApiText (qlit "[{'employee_name':'A','hou").

(** Scenario D: the array is wrapped in prose. *)
Definition scenario_D_text : str :=
  qlit "Here you go: [{'employee_name':'A','date':'06/09/2025','hours':8.0,'submission_status':'Closed','week':'W23','total_hours':40.0}] Thanks.".

Definition scenario_D_entry : json :=
  JObj [ (lit "employee_name", JStr (lit "A"));
         (lit "date", JStr (lit "06/09/2025"));
         (lit "hours", JNum (PyFloat (FDec 80 (-1))));
         (lit "submission_status", JStr (lit "Closed"));
         (lit "week", JStr (lit "W23"));
         (lit "total_hours", JNum (PyFloat (FDec 400 (-1)))) ].

(** A reply whose array holds a nested array. *)
Definition nested_text : str :=
  qlit "Here you go: [{'employee_name':'A','notes':['late']}] Thanks.".

(** A file of five images whose second batch's array carries a stray
    string after its entry. *)
Definition stray_claude : inference := λ filename batch_no batch,
  if Nat.eqb batch_no 1
  then ApiText (qlit "[{'employee_name':'A','hours':8},{'employee_name':'A','hours':7.5}]")
  else ApiText (qlit "[{'employee_name':'B','hours':4}, 'Total: 4 hours']").

Definition stray_world : file_world :=
  mk_world true scenario_B_images stray_claude true.


Definition one_job (job_id : str) (total : nat) : store :=
  mk_store ∅ {[ job_id := Job.mk Processing total 0 [] 0 None ]}
           (Metrics.mk 0 (PyInt 0) 0 0).

(** A document with one image whose entry gives the hours as text. *)
Definition text_hours_world : file_world :=
  mk_world true [[1%N]]
           (λ _ _ _, ApiText (qlit "[{'employee_name':'A','hours':'8'}]")) true.

(** Scenario A: two documents, one image each, one valid entry each. *)
Definition scenario_A_world : nat → file_world := λ _,
  mk_world true [[1%N]]
           (λ _ _ _, ApiText (qlit "[{'employee_name':'A','date':'06/09/2025','hours':8.0}]"))
           true.

Definition scenario_A_files : list (str * bytes) :=
  [(lit "a.docx", []); (lit "b.docx", [])].

(** Runs of the system.  [work n job w] is [n] statements of the job's
    thread, every file served by [w]. *)
Definition work (n : nat) (job_id : str) (w : file_world) : list event :=
  replicate n (EvWork job_id w).

Definition end_of (evs : list event) : system :=
  default initial_system (run initial_system evs).

(** A job that was submitted and has not run yet. *)
Definition submitted_events : list event :=
  [EvSubmit (lit "job") [(lit "a.docx", [])]].

(** Three uploads, two of them documents; the thread has started on the
    first. *)
Definition polled_events : list event :=
  EvSubmit (lit "job") [(lit "a.docx", []); (lit "notes.txt", []); (lit "c.DOC", [])]
  :: work 2 (lit "job") text_hours_world.

(** A job run to its end on a document whose entry gives the hours as
    text. *)
Definition failed_events : list event :=
  EvSubmit (lit "job") [(lit "a.docx", [])] :: work 8 (lit "job") text_hours_world.

(** A job run to its end on a document whose entry has a null status. *)
Definition null_status_world : file_world :=
  mk_world true [[1%N]]
           (λ _ _ _, ApiText (qlit "[{'employee_name':'A','hours':8,'submission_status':null}]"))
           true.

Definition null_status_events : list event :=
  EvSubmit (lit "job") [(lit "a.docx", [])] :: work 9 (lit "job") null_status_world.

Definition null_status_entry : json :=
  JObj [ (lit "employee_name", JStr (lit "A"));
         (lit "hours", JNum (PyInt 8));
         (lit "submission_status", JNull);
         (lit "source_file", JStr (lit "a.docx")) ].

(** A job run to its end on Scenario A's documents. *)
Definition completed_events : list event :=
  EvSubmit (lit "job") scenario_A_files :: work 13 (lit "job") (scenario_A_world 0).

Definition scenario_A_row (source_file : string) : sheet_row :=
  mk_row [ JStr (lit "A"); JStr (lit "06/09/2025"); JNum (PyFloat (FDec 80 (-1)));
           JStr (lit "pending"); JStr []; JNum (PyInt 0); JStr (lit source_file) ]
         false.

Definition scenario_A_workbook : workbook :=
  [scenario_A_row "a.docx"; scenario_A_row "b.docx"].

(** ** What a file and a job contribute *)

(** The entries that one call of the worker returns for a file whose
    job has a record: those of the tagging step when the temporary file
    was written, the extraction returned and the file was unlinked. *)
Definition file_entries (w : file_world) (filename : str) : list json :=
  if tempfile_ok w && unlink_ok w then
    match extract_timesheet_data_with_claude (claude w) (docx_images w) filename with
    | Ok data => data
    | Raise _ => []
    end
  else [].

(** The accumulator of the loop at line 305 after the files of a job. *)
Fixpoint job_entries (world : nat → file_world) (i : nat) (files : list (str * bytes))
    : list json :=
  match files with
  | [] => []
  | (filename, _) :: rest => file_entries (world i) filename ++ job_entries world (S i) rest
  end.


(** The relation between an entry as parsed and as tagged. *)
Definition tagged_as (filename : str) (raw entry : json) : Prop :=
  is_dict raw = true
  ∧ entry_get entry (lit "source_file") JNull = Ok (JStr filename)
  ∧ ∀ key dflt, key ≠ lit "source_file" → entry_get entry key dflt = entry_get raw key dflt.

(** A reply that carries a [source_file] of its own. *)
Definition own_source_claude : inference := λ _ _ _,
  ApiText (qlit "[{'employee_name':'A','source_file':'other.docx'}]").

(** A document whose only entry is fine but whose temporary file cannot
    be unlinked. *)
Definition unlink_fails_world : file_world :=
  mk_world true [[1%N]]
           (λ _ _ _, ApiText (qlit "[{'employee_name':'A','hours':8}]")) false.

(** The job that an event is about. *)
Definition event_job (ev : event) : str :=
  match ev with
  | EvSubmit job_id _ | EvStatus job_id | EvDownload job_id | EvWork job_id _ => job_id
  end.

(** Scenario C: a job run to its end on a document without images. *)
Definition no_images_world : file_world :=
  mk_world true [] (λ _ _ _, ApiRaises) true.

Definition scenario_C_events : list event :=
  EvSubmit (lit "job") [(lit "empty.docx", [])] :: work 8 (lit "job") no_images_world.

(** What may follow the end of a job: its retrieval is tried, its status
    is polled, another job is submitted and starts, and the retrieval is
    tried again. *)
Definition later_events : list event :=
  [ EvDownload (lit "job"); EvStatus (lit "job");
    EvSubmit (lit "other") [(lit "b.docx", [])];
    EvWork (lit "other") no_images_world; EvDownload (lit "job") ].

(** Two jobs submitted, neither started. *)
Definition two_jobs_events : list event :=
  [EvSubmit (lit "a") [(lit "a.docx", [])]; EvSubmit (lit "b") [(lit "b.docx", [])]].

(** ** The dashboard (app.py, lines 390-412) *)

Module Dashboard.
Record t := mk {
  documents_processed : nat;
  hours_extracted : pynum;
  accuracy_rate : nat;
  time_savings : nat;
  total_entries : nat;
  images_processed : nat;
  discrepancies : nat
}.
End Dashboard.

Definition dashboard (m : Metrics.t) : Dashboard.t :=
  let accuracy_rate := if 0 <? Metrics.total_entries m then 95 else 0 in
  let time_savings_per_doc := 10 in
  let discrepancies :=
    if 0 <? Metrics.total_entries m
    then Nat.max 1 (Nat.div (Metrics.total_entries m) 25) else 0 in
  Dashboard.mk (Metrics.total_documents m) (Metrics.total_hours m) accuracy_rate
               time_savings_per_doc (Metrics.total_entries m) (Metrics.total_images m)
               discrepancies.

(** ** What the spreadsheet shows for an entry *)

(** The seven cells of an entry's row: the entry's values, with the
    source's defaults for the keys it lacks. *)
Definition row_cells (d : list (str * json)) : list json :=
  [ default (JStr (lit "Unknown")) (dict_lookup d (lit "employee_name"));
    default (JStr []) (dict_lookup d (lit "date"));
    default (JNum (PyInt 0)) (dict_lookup d (lit "hours"));
    default (JStr (lit "pending")) (dict_lookup d (lit "submission_status"));
    default (JStr []) (dict_lookup d (lit "week"));
    default (JNum (PyInt 0)) (dict_lookup d (lit "total_hours"));
    default (JStr []) (dict_lookup d (lit "source_file")) ].

(** Lines 362-368: the seven cell assignments of a row, in order. *)
Fixpoint store_cells (values : list json) : result (list json) :=
  match values with
  | [] => Ok []
  | v :: rest => c ← ws_cell v; cs ← store_cells rest; mret (c :: cs)
  end.

(** What a cell keeps of a value that it accepts. *)
Definition stored_cell (v : json) : json :=
  match v with
  | JStr s => JStr (take cell_limit s)
  | _ => v
  end.

(** A value as a cell holds it: no list and no dict, and a string of at
    most 32767 characters, none of them a control character. *)
Definition storable (c : json) : Prop :=
  match c with
  | JArr _ | JObj _ => False
  | JStr s => length s ≤ cell_limit ∧ existsb illegal_character s = false
  | _ => True
  end.

Definition rendered_as (entry : json) (row : sheet_row) : Prop :=
  ∃ d, entry = JObj d
       ∧ cells row = stored_cell <$> row_cells d
       ∧ Forall storable (cells row)
       ∧ (highlighted row = true ↔
          ∃ s, dict_lookup d (lit "submission_status") = Some (JStr s)
               ∧ py_lower s = lit "closed").

(** Entries with a status in capitals, a status that is not closed, and
    no status at all. *)
Definition status_entries : list json :=
  [ JObj [(lit "employee_name", JStr (lit "A")); (lit "submission_status", JStr (lit "CLOSED"))];
    JObj [(lit "employee_name", JStr (lit "B")); (lit "submission_status", JStr (lit "Open"))];
    JObj [(lit "employee_name", JStr (lit "C"))] ].

(** ** Submitted names, and the later fields of a job's record *)



(** What a record's [error] and [total_entries] hold while the job's
    thread stands at [p]: both are written last, at lines 329 and 336. *)
Definition fields_ok (p : pc) (rec : option Job.t) (res : option (list json)) : Prop :=
  match rec with
  | None => True
  | Some j =>
      match p with
      | PDone =>
          (Job.status j = Completed ∧ Job.error j = None
           ∧ ∃ data, res = Some data ∧ Job.total_entries j = length data)
          ∨ (Job.status j = Failed ∧ is_Some (Job.error j) ∧ Job.total_entries j = 0)
      | _ => Job.error j = None ∧ Job.total_entries j = 0
      end
  end.

Definition job_fields (s : system) (job_id : str) : Prop :=
  match threads s !! job_id with
  | Some th => fields_ok (t_pc th) (processing_status (tables s) !! job_id)
                 (processing_results (tables s) !! job_id)
  | None => True
  end.

Definition fields_invariant (s : system) : Prop :=
  invariant s ∧ ∀ job_id, job_fields s job_id.

(* ===================================================================== *)
(** * Theorems                                                           *)
(* ===================================================================== *)

(** ** [json.loads]: the recursion budget is never exhausted *)

Lemma skip_ws_length s : length (skip_ws s) ≤ length s.
Proof. induction s as [|c r IH]; cbn; [done|]. destruct (is_json_ws c); cbn; lia. Qed.

Lemma scanstring_length : ∀ s chunks x rest,
  scanstring s chunks = Some (x, rest) → length rest ≤ length s.
Proof.
  intros s. remember (length s) as n eqn:Hn. revert s Hn.
  induction (lt_wf n) as [n _ IH]. intros s -> chunks x rest.
  destruct s as [|c r]; cbn [scanstring]; [done|].
  intros H.
  repeat case_match; simplify_eq; cbn [length] in *; try lia;
    match goal with
    | H : scanstring ?s' _ = Some (_, rest) |- _ =>
        eapply (IH (length s')) in H; [| cbn; lia | reflexivity]; cbn [length] in *; lia
    end.
Qed.

Lemma span_digits_length s ds rest :
  span_digits s = (ds, rest) → length rest ≤ length s.
Proof.
  revert ds rest. induction s as [|c r IH]; intros ds rest; cbn.
  - by intros [= <- <-].
  - destruct (is_digit c); [|by intros [= <- <-]].
    destruct (span_digits r) as [ds' rest'] eqn:Hr. intros [= <- <-].
    specialize (IH _ _ eq_refl). cbn. lia.
Qed.

Lemma match_integer_length s neg ids rest :
  match_integer s = Some (neg, ids, rest) → length rest < length s.
Proof.
  unfold match_integer. intros H.
  repeat case_match; simplify_eq;
    repeat match goal with
           | H : span_digits _ = _ |- _ => apply span_digits_length in H
           end; cbn [length] in *; lia.
Qed.

Lemma match_frac_length s fd rest :
  match_frac s = Some (fd, rest) → length rest ≤ length s.
Proof.
  unfold match_frac. intros H.
  repeat case_match; simplify_eq;
    repeat match goal with
           | H : span_digits _ = _ |- _ => apply span_digits_length in H
           end; cbn [length] in *; lia.
Qed.

Lemma match_exp_length s e rest :
  match_exp s = Some (e, rest) → length rest ≤ length s.
Proof.
  unfold match_exp. intros H.
  repeat case_match; simplify_eq;
    repeat match goal with
           | H : span_digits _ = _ |- _ => apply span_digits_length in H
           end; cbn [length] in *; lia.
Qed.

Lemma match_number_length s n rest :
  match_number s = Some (n, rest) → length rest < length s.
Proof.
  unfold match_number.
  destruct (match_integer s) as [[[neg ids] r0]|] eqn:Hi; [|done].
  apply match_integer_length in Hi.
  destruct (match_frac r0) as [[fd r1]|] eqn:Hf;
    [apply match_frac_length in Hf|];
    (destruct (match_exp _) as [[e r2]|] eqn:He; [apply match_exp_length in He|]);
    intros [= <- <-]; lia.
Qed.

Ltac length_facts IHs IHa IHo :=
  repeat match goal with
         | H : skip_ws ?a = _ |- _ =>
             let F := fresh "F" in
             pose proof (skip_ws_length a) as F; rewrite H in F; clear H
         | H : scanstring _ _ = Some _ |- _ => apply scanstring_length in H
         | H : match_number _ = Some _ |- _ => apply match_number_length in H
         | H : scan_once _ _ = POk _ _ |- _ => apply IHs in H
         | H : array_loop _ _ _ = POk _ _ |- _ => apply IHa in H
         | H : object_loop _ _ _ = POk _ _ |- _ => apply IHo in H
         end;
  repeat match goal with
         | H : context [length (skip_ws ?a)] |- _ =>
             lazymatch goal with
             | _ : length (skip_ws a) ≤ length a |- _ => fail
             | _ => pose proof (skip_ws_length a)
             end
         | |- context [length (skip_ws ?a)] =>
             lazymatch goal with
             | _ : length (skip_ws a) ≤ length a |- _ => fail
             | _ => pose proof (skip_ws_length a)
             end
         end;
  cbn [length] in *; rewrite ?length_drop in *.

Lemma scan_length fuel :
  (∀ s v rest, scan_once fuel s = POk v rest → length rest ≤ length s)
  ∧ (∀ s values v rest, array_loop fuel s values = POk v rest → length rest ≤ length s)
  ∧ (∀ s pairs v rest, object_loop fuel s pairs = POk v rest → length rest ≤ length s).
Proof.
  induction fuel as [|fuel (IHs & IHa & IHo)]; [by repeat split|].
  repeat split.
  - intros s v rest H. cbn [scan_once] in H.
    repeat case_match; simplify_eq; length_facts IHs IHa IHo; lia.
  - intros s values v rest H. cbn [array_loop] in H.
    repeat case_match; simplify_eq; length_facts IHs IHa IHo; lia.
  - intros s pairs v rest H. cbn [object_loop] in H.
    repeat case_match; simplify_eq; length_facts IHs IHa IHo; lia.
Qed.

Lemma scan_budget_enough fuel :
  (∀ s, 2 * length s + 1 ≤ fuel → scan_once fuel s ≠ PFuel)
  ∧ (∀ s values, 2 * length s + 2 ≤ fuel → array_loop fuel s values ≠ PFuel)
  ∧ (∀ s pairs, 2 * length s + 2 ≤ fuel → object_loop fuel s pairs ≠ PFuel).
Proof.
  induction fuel as [|fuel (IHs & IHa & IHo)]; [repeat split; intros; lia|].
  destruct (scan_length fuel) as (Ls & La & Lo).
  repeat split.
  - intros s Hb H. cbn [scan_once] in H.
    repeat case_match; simplify_eq;
      match goal with
      | H : array_loop _ _ _ = PFuel |- _ => revert H; apply IHa
      | H : object_loop _ _ _ = PFuel |- _ => revert H; apply IHo
      end; length_facts Ls La Lo; lia.
  - intros s values Hb H. cbn [array_loop] in H.
    repeat case_match; simplify_eq;
      match goal with
      | H : array_loop _ _ _ = PFuel |- _ => revert H; apply IHa
      | H : scan_once _ _ = PFuel |- _ => revert H; apply IHs
      end; length_facts Ls La Lo; lia.
  - intros s pairs Hb H. cbn [object_loop] in H.
    repeat case_match; simplify_eq;
      match goal with
      | H : object_loop _ _ _ = PFuel |- _ => revert H; apply IHo
      | H : scan_once _ _ = PFuel |- _ => revert H; apply IHs
      end; length_facts Ls La Lo; lia.
Qed.

Lemma json_loads_within_budget s : json_loads s ≠ Raise RecursionError.
Proof.
  unfold json_loads. destruct (starts_with _ s); [done|].
  destruct (scan_once (scan_budget s) (skip_ws s)) as [obj rest| |] eqn:Hscan.
  - by destruct (skip_ws rest).
  - done.
  - exfalso. revert Hscan. apply scan_budget_enough.
    pose proof (skip_ws_length s). unfold scan_budget. lia.
Qed.

(** A text that opens with ['['] decodes to a list or not at all. *)
Lemma array_loop_array fuel : ∀ s values v rest,
  array_loop fuel s values = POk v rest → ∃ l, v = JArr l.
Proof.
  induction fuel as [|fuel IH]; intros s values v rest; cbn [array_loop]; [done|].
  intros H. repeat case_match; simplify_eq; eauto.
Qed.

Lemma json_loads_bracket inside v :
  json_loads (lit "[" ++ inside) = Ok v → ∃ l, v = JArr l.
Proof.
  unfold json_loads. change (lit "[" ++ inside) with (91%N :: inside).
  cbn [starts_with skip_ws]. change (is_json_ws 91) with false.
  change (65279 =? 91)%N with false. cbn [andb].
  unfold scan_budget. cbn [length Nat.mul Nat.add]. rewrite Nat.add_comm.
  cbn [Nat.add scan_once].
  change (is_quote 91) with false. change (is_chr "{" 91) with false.
  change (is_chr "[" 91) with true. cbv iota.
  intros H. repeat case_match; simplify_eq; eauto using array_loop_array.
Qed.

(** ** Batching *)

Section Batching.
Context {A : Type}.
Implicit Types images : list A.

Lemma range_batch_cons n :
  0 < n →
  py_range 0 n batch_size = 0 :: ((λ i, batch_size + i) <$> py_range 0 (n - batch_size) batch_size).
Proof.
  intros Hn. unfold py_range, batch_size.
  assert (Hd : Nat.div (n - 0 + 4 - 1) 4 = S (Nat.div (n - 4 - 0 + 4 - 1) 4)).
  { destruct (le_lt_dec 4 n) as [Hge|Hlt].
    - replace (n - 0 + 4 - 1) with ((n - 4 - 0 + 4 - 1) + 1 * 4) by lia.
      rewrite Nat.div_add by lia. lia.
    - replace (n - 4 - 0 + 4 - 1) with 3 by lia.
      replace (n - 0 + 4 - 1) with ((n - 1) + 1 * 4) by lia.
      rewrite Nat.div_add by lia. rewrite Nat.div_small by lia. reflexivity. }
  rewrite Hd. cbn [seq fmap list_fmap]. f_equal.
  rewrite <- seq_shift, <- !list_fmap_compose.
  apply list_fmap_ext. intros _ k _. cbn. lia.
Qed.

(** The loop's batches obey the recursion "first four, then the rest". *)
Lemma batches_nil : batches (@nil A) = [].
Proof. reflexivity. Qed.

Lemma batches_cons images :
  images ≠ [] →
  batches images = take batch_size images :: batches (drop batch_size images).
Proof.
  intros Hne. unfold batches.
  rewrite range_batch_cons by (destruct images; [done | cbn; lia]).
  rewrite fmap_cons, length_drop, <- list_fmap_compose.
  f_equal. apply list_fmap_ext. intros _ i _. cbn. unfold py_slice.
  rewrite drop_drop. repeat f_equal; lia.
Qed.

Lemma batches_ind (P : list A → Prop) :
  P [] →
  (∀ images, images ≠ [] → P (drop batch_size images) → P images) →
  ∀ images, P images.
Proof.
  intros Hnil Hcons images.
  remember (length images) as n eqn:Hn.
  revert images Hn. induction (lt_wf n) as [n _ IH]. intros images ->.
  destruct images as [|x xs]; [exact Hnil|].
  apply Hcons; [done|].
  eapply IH; [|reflexivity]. rewrite length_drop. unfold batch_size. cbn. lia.
Qed.

Lemma batches_concat images : concat (batches images) = images.
Proof.
  induction images as [|images Hne IH] using batches_ind.
  - rewrite batches_nil. reflexivity.
  - rewrite batches_cons by done. cbn [concat]. rewrite IH. apply take_drop.
Qed.

Lemma batches_length images :
  length (batches images) = Nat.div (length images + 3) 4.
Proof.
  unfold batches, py_range, batch_size. rewrite !length_fmap, length_seq.
  f_equal. lia.
Qed.

Lemma batches_lookup images k :
  k < length (batches images) →
  batches images !! k = Some (py_slice images (4 * k) (4 * k + 4)).
Proof.
  intros Hk. unfold batches in *. rewrite list_lookup_fmap.
  unfold py_range in *. rewrite length_fmap, length_fmap, length_seq in Hk.
  rewrite list_lookup_fmap, lookup_seq_lt by done. cbn. unfold batch_size.
  repeat f_equal; lia.
Qed.

Lemma slice_length images i j :
  length (py_slice images i j) = Nat.min (j - i) (length images - i).
Proof. unfold py_slice. rewrite length_take, length_drop. reflexivity. Qed.

End Batching.

(** ** The batch extraction engine *)

Section Engine.
Variable claude : inference.
Variable images : list image.
Variable filename : str.

Local Abbreviation step := (process_batch claude images filename).
Local Abbreviation indices := (py_range 0 (length images) batch_size).

Lemma process_batch_app all_entries i :
  step all_entries i = all_entries ++ step [] i.
Proof.
  unfold process_batch. destruct (claude _ _ _); [by rewrite app_nil_r | done].
Qed.

Lemma foldl_process_batch all_entries l :
  foldl step all_entries l = all_entries ++ foldl step [] l.
Proof.
  revert all_entries. induction l as [|i l IH]; intros acc; cbn [foldl].
  - by rewrite app_nil_r.
  - rewrite (IH (step acc i)), (IH (step [] i)), (process_batch_app acc i).
    by rewrite app_assoc.
Qed.

Lemma indices_lookup k :
  k < length (batches images) → indices !! k = Some (4 * k).
Proof.
  intros Hk. unfold batches in Hk. rewrite length_fmap in Hk.
  unfold py_range in *. rewrite length_fmap, length_seq in Hk.
  rewrite list_lookup_fmap, lookup_seq_lt by done. cbn. f_equal.
  unfold batch_size. lia.
Qed.

(** The loop splits at any iteration: what was accumulated so far stays
    a prefix, and the remaining batches are processed after it. *)
Lemma process_split k :
  process_images_in_batches claude images filename
  = entries_after claude images filename k ++ foldl step [] (drop k indices).
Proof.
  unfold process_images_in_batches, entries_after.
  rewrite <- (take_drop k indices) at 1.
  by rewrite foldl_app, foldl_process_batch.
Qed.

Lemma entries_after_S k batch :
  batches images !! k = Some batch →
  entries_after claude images filename (S k)
  = match claude filename (k + 1) batch with
    | ApiRaises => entries_after claude images filename k
    | ApiText text => entries_after claude images filename k ++ parse_response (strip text)
    end.
Proof.
  intros Hb.
  assert (Hk : k < length (batches images)) by (eapply lookup_lt_Some; eauto).
  rewrite batches_lookup in Hb by done. injection Hb as <-.
  unfold entries_after.
  rewrite (take_S_r _ _ _ (indices_lookup k Hk)), foldl_app. cbn [foldl].
  unfold process_batch at 1.
  replace (Nat.div (4 * k) batch_size) with k
    by (unfold batch_size; rewrite Nat.mul_comm, Nat.div_mul; lia).
  unfold batch_size. reflexivity.
Qed.

Lemma foldl_process_batch_concat l :
  foldl step [] l = concat ((λ i, step [] i) <$> l).
Proof.
  induction l as [|i l IH]; [done|].
  cbn [foldl fmap list_fmap concat]. by rewrite foldl_process_batch, IH.
Qed.

(** The engine asks for batch [k], numbered [k + 1], the slice
    [images[4k : 4k+4]], and appends what the reply gives. *)
Lemma process_images_in_batches_concat :
  process_images_in_batches claude images filename
  = concat ((λ k, reply_entries
                    (claude filename (k + 1) (py_slice images (4 * k) (4 * k + 4))))
            <$> seq 0 (length (batches images))).
Proof.
  unfold process_images_in_batches. rewrite foldl_process_batch_concat.
  unfold batches. rewrite length_fmap.
  unfold py_range. rewrite length_fmap, length_seq, <- list_fmap_compose.
  f_equal. apply list_fmap_ext. intros _ k _. cbn.
  unfold process_batch, reply_entries.
  replace (Nat.div (k * batch_size) batch_size) with k
    by (unfold batch_size; rewrite Nat.div_mul; lia).
  replace (k * batch_size) with (4 * k) by (unfold batch_size; lia).
  unfold batch_size. by destruct (claude _ _ _).
Qed.

End Engine.

(** C1. For a list of [N] images [process_images_in_batches] asks the
    inference service for the batches of [batches images], in order, and
    these are [ceil(N/4)] batches; batch [k] is the contiguous slice
    [images[4k : 4k+4]], so batches follow the original order without
    overlap or gap; every batch has at most 4 images, every batch but the
    last has exactly 4, none is empty; and the batches concatenated in
    order give back the original list. *)
Theorem batches_partition (claude : inference) (images : list image) (filename : str) :
  let n := length images in
  let bs := batches images in
  process_images_in_batches claude images filename
  = concat ((λ k, reply_entries
                    (claude filename (k + 1) (py_slice images (4 * k) (4 * k + 4))))
            <$> seq 0 (length bs))
  ∧ length bs = Nat.div (n + 3) 4
  ∧ (n = 0 ∨ 4 * (length bs - 1) < n ≤ 4 * length bs)
  ∧ (∀ k, k < length bs → bs !! k = Some (py_slice images (4 * k) (4 * k + 4)))
  ∧ Forall (λ b, 1 ≤ length b ≤ 4) bs
  ∧ (∀ k b, S k < length bs → bs !! k = Some b → length b = 4)
  ∧ concat bs = images.
Proof.
  cbn zeta.
  pose proof (batches_length images) as Hlen.
  pose proof (Nat.div_mod_eq (length images + 3) 4) as Hdm.
  pose proof (Nat.mod_upper_bound (length images + 3) 4 ltac:(lia)) as Hmod.
  split; [apply process_images_in_batches_concat|].
  split; [exact Hlen|].
  split; [lia|].
  split; [intros k Hk; by apply batches_lookup|].
  split.
  { apply Forall_lookup. intros k b Hb.
    assert (Hk : k < length (batches images)) by (eapply lookup_lt_Some; eauto).
    rewrite batches_lookup in Hb by done. injection Hb as <-.
    rewrite slice_length. lia. }
  split.
  { intros k b Hk Hb. rewrite batches_lookup in Hb by lia. injection Hb as <-.
    rewrite slice_length. lia. }
  apply batches_concat.
Qed.

Lemma batches_partition_witness :
  length (batches scenario_B_images) = 2
  ∧ batches scenario_B_images !! 0 = Some [[1]; [2]; [3]; [4]]%N
  ∧ batches scenario_B_images !! 1 = Some [[5]]%N.
Proof.
  destruct (batches_partition scenario_B_claude scenario_B_images (lit "b.docx"))
    as (_ & Hlen & _ & Hslice & _).
  split; [exact Hlen|]. split.
  - exact (Hslice 0 ltac:(rewrite Hlen; cbn; lia)).
  - exact (Hslice 1 ltac:(rewrite Hlen; cbn; lia)).
Defined.


Lemma batch_failed_no_entries text :
  (strict_parse_fails text ∧ recovery_parse_fails text) ∨ parsed_non_array text →
  parse_response text = [].
Proof.
  unfold parse_response.
  intros [[[e He] Hrec] | (v & Hv & Hna)].
  - rewrite He. destruct e; try reflexivity.
    destruct Hrec as [-> | (m & e' & -> & ->)]; reflexivity.
  - rewrite Hv. destruct v; try reflexivity. by destruct (Hna l).
Qed.

(** C2. In [process_images_in_batches], a batch whose inference call
    raises, whose response text fails both the strict and the recovery
    parse, or whose parsed value is not an array leaves [all_entries] as
    it was before that batch: nothing is added, removed or altered.  The
    loop then goes on: the function's result is what had been accumulated
    before the batch followed by what the later batches contribute. *)
Theorem failed_batch_is_skipped (claude : inference) (images : list image)
    (filename : str) (k : nat) (batch : list image) :
  batches images !! k = Some batch →
  batch_failed (claude filename (k + 1) batch) →
  entries_after claude images filename (S k) = entries_after claude images filename k
  ∧ process_images_in_batches claude images filename
    = entries_after claude images filename k
      ++ foldl (process_batch claude images filename) []
               (drop (S k) (py_range 0 (length images) batch_size)).
Proof.
  intros Hb Hfail.
  assert (Hskip : entries_after claude images filename (S k)
                  = entries_after claude images filename k).
  { rewrite (entries_after_S _ _ _ _ _ Hb).
    destruct (claude filename (k + 1) batch) as [|text]; [done|].
    cbn in Hfail. rewrite (batch_failed_no_entries _ Hfail). apply app_nil_r. }
  split; [exact Hskip|].
  rewrite (process_split _ _ _ (S k)). by rewrite Hskip.
Qed.

Lemma failed_batch_is_skipped_witness :
  let result := process_images_in_batches scenario_B_claude scenario_B_images (lit "b.docx") in
  batches scenario_B_images !! 1 = Some [[5%N]]
  ∧ batch_failed (scenario_B_claude (lit "b.docx") 2 [[5%N]])
  ∧ result = entries_after scenario_B_claude scenario_B_images (lit "b.docx") 1
  ∧ length result = 2.
Proof.
  assert (Hb : batches scenario_B_images !! 1 = Some [[5%N]]) by reflexivity.
  assert (Hf : batch_failed (scenario_B_claude (lit "b.docx") 2 [[5%N]])).
  { left. split; [exists JSONDecodeError | left]; vm_compute; reflexivity. }
  destruct (failed_batch_is_skipped scenario_B_claude scenario_B_images
              (lit "b.docx") 1 [[5%N]] Hb Hf) as [_ Hres].
  cbn zeta. split; [exact Hb|]. split; [exact Hf|]. split.
  - rewrite Hres. vm_compute. reflexivity.
  - vm_compute. reflexivity.
Defined.

(** ** The recovery parse *)

Lemma is_chr_true a c : is_chr a c = true ↔ c = N_of_ascii a.
Proof. unfold is_chr. apply N.eqb_eq. Qed.

Lemma until_chr_Some a s before after :
  until_chr a s = Some (before, after) ↔
  s = before ++ N_of_ascii a :: after ∧ N_of_ascii a ∉ before.
Proof.
  revert before. induction s as [|c r IH]; intros before; cbn.
  - split; [done|]. intros [H _]. by destruct before.
  - destruct (is_chr a c) eqn:Hc.
    + apply is_chr_true in Hc as ->. split.
      * intros [= <- <-]. split; [done | apply not_elem_of_nil].
      * intros [H Hnot]. destruct before as [|b before]; cbn in H.
        -- by injection H as <-.
        -- injection H as <- _. exfalso. apply Hnot. left.
    + assert (Hne : c ≠ N_of_ascii a).
      { intros ->. by rewrite (proj2 (is_chr_true a _) eq_refl) in Hc. }
      destruct (until_chr a r) as [[b' a']|] eqn:Hr.
      * split.
        -- intros [= <- <-]. destruct (proj1 (IH b') eq_refl) as [-> Hnot].
           split; [done|]. intros [?|?]%elem_of_cons; done.
        -- intros [H Hnot]. destruct before as [|b before]; cbn in H.
           { injection H as -> _. done. }
           injection H as <- H. apply not_elem_of_cons in Hnot as [_ Hnot].
           by injection (proj2 (IH before) (conj H Hnot)) as -> ->.
      * split; [done|]. intros [H Hnot].
        destruct before as [|b before]; cbn in H.
        { injection H as -> _. done. }
        injection H as <- H. apply not_elem_of_cons in Hnot as [_ Hnot].
        by pose proof (proj2 (IH before) (conj H Hnot)).
Qed.

Lemma until_chr_None a s : until_chr a s = None ↔ N_of_ascii a ∉ s.
Proof.
  induction s as [|c r IH]; cbn.
  - split; [intros _; apply not_elem_of_nil | done].
  - destruct (is_chr a c) eqn:Hc.
    + apply is_chr_true in Hc as ->. split; [done|]. intros H. destruct H. left.
    + assert (Hne : c ≠ N_of_ascii a).
      { intros ->. by rewrite (proj2 (is_chr_true a _) eq_refl) in Hc. }
      destruct (until_chr a r) as [[b' a']|].
      * split; [done|]. intros H. apply not_elem_of_cons in H as [_ H].
        by apply IH in H.
      * split; [|done]. intros _. apply not_elem_of_cons. split; [done|].
        by apply IH.
Qed.

(** The match of the pattern: from the first ['['] to the first [']']
    after it. *)
Lemma re_search_array_Some text json_match :
  re_search_array text = Some json_match ↔
  ∃ pre inside post,
    text = pre ++ lit "[" ++ inside ++ lit "]" ++ post
    ∧ (N_of_ascii "[" ∉ pre) ∧ (N_of_ascii "]" ∉ inside)
    ∧ json_match = lit "[" ++ inside ++ lit "]".
Proof.
  unfold re_search_array. split.
  - destruct (until_chr "[" text) as [[pre after]|] eqn:H1; [|done]. cbn.
    destruct (until_chr "]" after) as [[inside post]|] eqn:H2; [|done]. cbn.
    intros [= <-]. apply until_chr_Some in H1 as [-> Hpre].
    apply until_chr_Some in H2 as [-> Hin].
    exists pre, inside, post. done.
  - intros (pre & inside & post & -> & Hpre & Hin & ->).
    rewrite (proj2 (until_chr_Some "[" _ pre (inside ++ lit "]" ++ post))) by done.
    cbn. rewrite (proj2 (until_chr_Some "]" _ inside post)) by done.
    reflexivity.
Qed.

(** C3. When the strict parse of a response text raises
    [JSONDecodeError], the engine takes the text from the first ['['] to
    the first [']'] after it (a non-greedy match, not a balanced one) and
    parses that: an array contributes its elements, anything else, or no
    such text, skips the batch.  For the Scenario D text the recovery
    parse extracts exactly the one entry. *)
Theorem recovery_parse :
  (∀ text, json_loads text = Raise JSONDecodeError →
     (∀ json_match, re_search_array text = Some json_match ↔
        ∃ pre inside post,
          text = pre ++ lit "[" ++ inside ++ lit "]" ++ post
          ∧ (N_of_ascii "[" ∉ pre) ∧ (N_of_ascii "]" ∉ inside)
          ∧ json_match = lit "[" ++ inside ++ lit "]")
     ∧ parse_response text
       = match re_search_array text with
         | Some json_match =>
             match json_loads json_match with
             | Ok (JArr batch_entries) => batch_entries
             | _ => []
             end
         | None => []
         end)
  ∧ json_loads (strip scenario_D_text) = Raise JSONDecodeError
  ∧ parse_response (strip scenario_D_text) = [scenario_D_entry].
Proof.
  split; [|split; vm_compute; reflexivity].
  intros text Hstrict. split; [intros m; apply re_search_array_Some|].
  unfold parse_response. rewrite Hstrict.
  destruct (re_search_array text) as [m|]; [|done].
  destruct (json_loads m) as [[]|]; reflexivity.
Qed.

Lemma recovery_parse_witness :
  json_loads (strip scenario_D_text) = Raise JSONDecodeError
  ∧ re_search_array (strip scenario_D_text)
    = Some (qlit "[{'employee_name':'A','date':'06/09/2025','hours':8.0,'submission_status':'Closed','week':'W23','total_hours':40.0}]")
  ∧ parse_response (strip scenario_D_text) = [scenario_D_entry].
Proof.
  assert (H : json_loads (strip scenario_D_text) = Raise JSONDecodeError)
    by (vm_compute; reflexivity).
  destruct (proj1 recovery_parse (strip scenario_D_text) H) as [_ Hparse].
  split; [exact H|]. split; [vm_compute; reflexivity|].
  rewrite Hparse. vm_compute. reflexivity.
Defined.

(** The recovery is not the first balanced array: on [nested_text] the
    balanced array is the whole list of one entry and parses, but the
    engine's match stops at the inner [']'], fails to parse, and the batch
    is skipped. *)
Lemma recovery_not_balanced :
  json_loads (strip nested_text) = Raise JSONDecodeError
  ∧ first_balanced_array (strip nested_text)
    = Some (qlit "[{'employee_name':'A','notes':['late']}]")
  ∧ json_loads (qlit "[{'employee_name':'A','notes':['late']}]")
    = Ok (JArr [JObj [(lit "employee_name", JStr (lit "A"));
                      (lit "notes", JArr [JStr (lit "late")])]])
  ∧ re_search_array (strip nested_text)
    = Some (qlit "[{'employee_name':'A','notes':['late']")
  ∧ parse_response (strip nested_text) = [].
Proof. repeat split; vm_compute; reflexivity. Qed.

(** ** The file extraction worker *)

Ltac unfold_M :=
  unfold mbind, M_bind, mret, M_ret, lift, external, try_except, try_finally,
    set_current_file, incr_processed, add_images, add_documents, add_entries,
    store_result, set_completed, set_total_entries, set_failed, set_error,
    update_job, update_metrics in *.

Lemma tag_source_file_raises all_entries filename x :
  x ∈ all_entries → is_dict x = false →
  tag_source_file all_entries filename = Raise TypeError.
Proof.
  intros Hx Hnd. induction all_entries as [|entry rest IH]; [by apply elem_of_nil in Hx|].
  cbn. apply elem_of_cons in Hx as [<- | Hx].
  - destruct x; try reflexivity. discriminate.
  - destruct entry; try reflexivity. cbn. by rewrite IH.
Qed.

Lemma tag_source_file_dicts all_entries filename :
  Forall (λ e, is_dict e = true) all_entries →
  ∃ tagged, tag_source_file all_entries filename = Ok tagged
            ∧ length tagged = length all_entries
            ∧ Forall (λ e, is_dict e = true) tagged.
Proof.
  induction 1 as [|entry rest Hd _ (tagged & IH & Hlen & Hall)]; [by exists []|].
  destruct entry; try discriminate. cbn. rewrite IH.
  eexists. split; [reflexivity|]. split; [cbn; by rewrite Hlen|].
  constructor; done.
Qed.

Lemma tag_source_file_Ok all_entries filename tagged :
  tag_source_file all_entries filename = Ok tagged →
  length tagged = length all_entries ∧ Forall (λ e, is_dict e = true) tagged.
Proof.
  revert tagged. induction all_entries as [|entry rest IH]; intros tagged; cbn.
  - intros [= <-]. done.
  - destruct entry; try discriminate. cbn.
    destruct (tag_source_file rest filename) as [rest'|]; [|discriminate].
    intros [= <-]. destruct (IH rest' eq_refl) as [Hlen Hall].
    split; [cbn; by rewrite Hlen | by constructor].
Qed.

(** The worker's [except] clause turns any raise of the body into []. *)
Lemma process_single_file_caught w file_data job_id st e st' :
  single_file_body w file_data job_id st = (Raise e, st') →
  process_single_file w file_data job_id st = (Ok [], st').
Proof. intros H. unfold process_single_file, try_except. by rewrite H. Qed.

Lemma process_single_file_returns w file_data job_id st :
  ∃ data st', process_single_file w file_data job_id st = (Ok data, st').
Proof.
  unfold process_single_file, try_except.
  destruct (single_file_body w file_data job_id st) as [[data|e] st']; eauto.
Qed.

Lemma extract_file_raises w filename st e :
  extract_timesheet_data_with_claude (claude w) (docx_images w) filename = Raise e →
  ∃ e', extract_file w filename st = (Raise e', st).
Proof.
  intros He. unfold extract_file. unfold_M.
  destruct (tempfile_ok w); [|eauto].
  destruct (docx_images w) as [|img imgs] eqn:Himgs; [discriminate|].
  rewrite He. destruct (unlink_ok w); eauto.
Qed.

Lemma single_file_body_raises w filename content job_id st e :
  extract_timesheet_data_with_claude (claude w) (docx_images w) filename = Raise e →
  ∃ e' st', single_file_body w (filename, content) job_id st = (Raise e', st').
Proof.
  intros He. unfold single_file_body. unfold_M.
  destruct (processing_status st !! job_id) as [j|]; [|eauto]. cbn.
  rewrite lookup_insert_eq.
  match goal with |- context [extract_file w filename ?s] =>
    destruct (extract_file_raises w filename s e He) as [e' ->] end.
  eauto.
Qed.

Lemma batch_entries_kept claude images filename k batch text l x :
  batches images !! k = Some batch →
  claude filename (k + 1) batch = ApiText text →
  json_loads (strip text) = Ok (JArr l) →
  x ∈ l →
  x ∈ process_images_in_batches claude images filename.
Proof.
  intros Hb Hr Hl Hx.
  rewrite (process_split _ _ _ (S k)), (entries_after_S _ _ _ _ _ Hb), Hr.
  unfold parse_response. rewrite Hl. set_solver.
Qed.

(** C10. If some batch of a file is answered by a text whose parsed JSON
    array has an element that is not an object, tagging the file's
    entries with [source_file] raises [TypeError], the worker's
    [except] clause catches it, and [process_single_file] returns the
    empty list for the whole file, whatever the other batches held. *)
Theorem non_object_entry_empties_file (w : file_world) (filename : str)
    (content : bytes) (job_id : str) (st : store)
    (k : nat) (batch : list image) (text : str) (l : list json) (x : json) :
  batches (docx_images w) !! k = Some batch →
  claude w filename (k + 1) batch = ApiText text →
  json_loads (strip text) = Ok (JArr l) →
  x ∈ l → is_dict x = false →
  extract_timesheet_data_with_claude (claude w) (docx_images w) filename = Raise TypeError
  ∧ (process_single_file w (filename, content) job_id st).1 = Ok [].
Proof.
  intros Hb Hr Hl Hx Hnd.
  assert (He : extract_timesheet_data_with_claude (claude w) (docx_images w) filename
               = Raise TypeError).
  { unfold extract_timesheet_data_with_claude.
    destruct (docx_images w) as [|img imgs] eqn:Himgs; [discriminate|].
    eapply tag_source_file_raises; [|exact Hnd].
    eapply batch_entries_kept; eauto. }
  split; [exact He|].
  destruct (single_file_body_raises w filename content job_id st _ He) as (e' & st' & Hbody).
  by rewrite (process_single_file_caught _ _ _ _ _ _ Hbody).
Qed.

Lemma non_object_entry_empties_file_witness :
  length (process_images_in_batches stray_claude scenario_B_images (lit "b.docx")) = 4
  ∧ (process_single_file stray_world (lit "b.docx", []) (lit "job") (one_job (lit "job") 1)).1
    = Ok [].
Proof.
  split; [vm_compute; reflexivity|].
  refine (proj2 (non_object_entry_empties_file stray_world (lit "b.docx") []
                   (lit "job") (one_job (lit "job") 1) 1 [[5%N]]
                   (qlit "[{'employee_name':'B','hours':4}, 'Total: 4 hours']")
                   [JObj [(lit "employee_name", JStr (lit "B")); (lit "hours", JNum (PyInt 4))];
                    JStr (lit "Total: 4 hours")]
                   (JStr (lit "Total: 4 hours")) _ _ _ _ _));
    try (vm_compute; reflexivity).
  apply elem_of_cons. right. apply elem_of_cons. left. reflexivity.
Defined.

Lemma metrics_eq (m m' : Metrics.t) :
  Metrics.total_documents m' = Metrics.total_documents m →
  Metrics.total_hours m' = Metrics.total_hours m →
  Metrics.total_entries m' = Metrics.total_entries m →
  Metrics.total_images m' = Metrics.total_images m →
  m' = m.
Proof. destruct m, m'; cbn; congruence. Qed.

(** What one call of the worker does to the tables. *)
Lemma process_single_file_store w filename content job_id st j :
  processing_status st !! job_id = Some j →
  ∃ data st',
    process_single_file w (filename, content) job_id st = (Ok data, st')
    ∧ processing_results st' = processing_results st
    ∧ processing_status st' = <[job_id := file_started filename j]> (processing_status st)
    ∧ Metrics.total_documents (dashboard_metrics st') = Metrics.total_documents (dashboard_metrics st)
    ∧ Metrics.total_hours (dashboard_metrics st') = Metrics.total_hours (dashboard_metrics st)
    ∧ Metrics.total_entries (dashboard_metrics st') = Metrics.total_entries (dashboard_metrics st)
    ∧ Metrics.total_images (dashboard_metrics st')
      = Metrics.total_images (dashboard_metrics st) + images_counted w filename.
Proof.
  intros Hj.
  unfold process_single_file, single_file_body, extract_file, images_counted. unfold_M.
  rewrite Hj. cbn. rewrite lookup_insert_eq, insert_insert_eq.
  assert (Hp : Job.processed (Job.set_current_file filename j) = Job.processed j)
    by reflexivity.
  remember (extract_timesheet_data_with_claude (claude w) (docx_images w) filename)
    as extracted eqn:Hex.
  clear Hex.
  destruct (tempfile_ok w); cbn;
    [destruct (docx_images w) as [|img imgs]; destruct extracted; cbn;
     destruct (unlink_ok w)|];
    eexists _, _; (split; [reflexivity|]); cbn; repeat split; try done; lia.
Qed.

Lemma process_single_file_no_job w file_data job_id st :
  processing_status st !! job_id = None →
  process_single_file w file_data job_id st = (Ok [], st).
Proof.
  intros Hj. destruct file_data as [filename content].
  unfold process_single_file, single_file_body. unfold_M. by rewrite Hj.
Qed.

Lemma process_single_file_status w file_data job_id st data st' j :
  process_single_file w file_data job_id st = (Ok data, st') →
  Job.status <$> processing_status st' !! j = Job.status <$> processing_status st !! j.
Proof.
  intros Hrun. destruct file_data as [filename content].
  destruct (processing_status st !! job_id) as [jb|] eqn:Hjb.
  - destruct (process_single_file_store w filename content job_id st jb Hjb)
      as (d & s & Hrun' & _ & Hst & _).
    rewrite Hrun in Hrun'. injection Hrun' as -> ->. rewrite Hst.
    destruct (decide (job_id = j)) as [->|Hne].
    + by rewrite lookup_insert_eq, Hjb.
    + by rewrite lookup_insert_ne.
  - rewrite process_single_file_no_job in Hrun by done. by injection Hrun as _ ->.
Qed.

Lemma process_single_file_no_images w file_data job_id st data st' :
  docx_images w = [] →
  process_single_file w file_data job_id st = (Ok data, st') →
  data = [] ∧ dashboard_metrics st' = dashboard_metrics st.
Proof.
  intros Himgs Hrun. destruct file_data as [filename content].
  destruct (processing_status st !! job_id) as [jb|] eqn:Hjb.
  - revert Hrun.
    unfold process_single_file, single_file_body, extract_file. unfold_M.
    rewrite Hjb. cbn. rewrite lookup_insert_eq, Himgs.
    destruct (tempfile_ok w); cbn; [destruct (unlink_ok w)|]; by intros [= <- <-].
  - rewrite process_single_file_no_job in Hrun by done. by injection Hrun as <- <-.
Qed.

(** C9. [process_single_file] always returns a list and never raises: a
    raise anywhere in its body is caught and becomes the empty list; a
    document without images gives the empty list, touches no metric and
    leaves every job's status as it was (no error is recorded); and the
    job's loop goes on with the next file. *)
Theorem worker_never_raises (world : nat → file_world) (i : nat)
    (file_data : str * bytes) (rest : list (str * bytes)) (job_id : str)
    (all_data : list json) (st : store) :
  ∃ data st',
    process_single_file (world i) file_data job_id st = (Ok data, st')
    ∧ (∀ e st1, single_file_body (world i) file_data job_id st = (Raise e, st1) →
         data = [] ∧ st' = st1)
    ∧ (docx_images (world i) = [] →
         data = [] ∧ dashboard_metrics st' = dashboard_metrics st)
    ∧ (∀ j, Job.status <$> processing_status st' !! j
            = Job.status <$> processing_status st !! j)
    ∧ for_files world i (file_data :: rest) job_id all_data st
      = for_files world (S i) rest job_id (all_data ++ data) st'.
Proof.
  destruct (process_single_file_returns (world i) file_data job_id st)
    as (data & st' & Hrun).
  exists data, st'. split; [exact Hrun|]. split; [|split; [|split]].
  - intros e st1 Hbody.
    rewrite (process_single_file_caught _ _ _ _ _ _ Hbody) in Hrun.
    by injection Hrun as <- <-.
  - intros Himgs. eapply process_single_file_no_images; eauto.
  - intros j. eapply process_single_file_status; eauto.
  - cbn [for_files]. unfold mbind, M_bind, try_except, mret, M_ret.
    by rewrite Hrun.
Qed.

Lemma worker_never_raises_witness :
  single_file_body stray_world (lit "b.docx", []) (lit "job") (one_job (lit "job") 1)
  = (Raise TypeError,
     mk_store ∅ {[ lit "job" := Job.mk Processing 1 1 (lit "b.docx") 0 None ]}
              (Metrics.mk 0 (PyInt 0) 0 0))
  ∧ process_single_file stray_world (lit "b.docx", []) (lit "job") (one_job (lit "job") 1)
    = (Ok [],
       mk_store ∅ {[ lit "job" := Job.mk Processing 1 1 (lit "b.docx") 0 None ]}
                (Metrics.mk 0 (PyInt 0) 0 0)).
Proof.
  assert (Hbody :
    single_file_body stray_world (lit "b.docx", []) (lit "job") (one_job (lit "job") 1)
    = (Raise TypeError,
       mk_store ∅ {[ lit "job" := Job.mk Processing 1 1 (lit "b.docx") 0 None ]}
                (Metrics.mk 0 (PyInt 0) 0 0))) by (vm_compute; reflexivity).
  split; [exact Hbody|].
  destruct (worker_never_raises (λ _, stray_world) 0 (lit "b.docx", []) []
              (lit "job") [] (one_job (lit "job") 1))
    as (data & st' & Hrun & Hcaught & _).
  destruct (Hcaught _ _ Hbody) as [-> ->]. exact Hrun.
Defined.

(** ** The background job *)

Section Job.
Variable world : nat → file_world.
Variable job_id : str.

Lemma for_files_store files : ∀ i all_data st j,
  processing_status st !! job_id = Some j →
  ∃ all_data' st' j',
    for_files world i files job_id all_data st = (Ok all_data', st')
    ∧ processing_results st' = processing_results st
    ∧ processing_status st' = <[job_id := j']> (processing_status st)
    ∧ Job.status j' = Job.status j
    ∧ Job.total j' = Job.total j
    ∧ Job.processed j' = Job.processed j + length files
    ∧ Metrics.total_documents (dashboard_metrics st') = Metrics.total_documents (dashboard_metrics st)
    ∧ Metrics.total_hours (dashboard_metrics st') = Metrics.total_hours (dashboard_metrics st)
    ∧ Metrics.total_entries (dashboard_metrics st') = Metrics.total_entries (dashboard_metrics st)
    ∧ Metrics.total_images (dashboard_metrics st')
      = Metrics.total_images (dashboard_metrics st) + images_total world i files.
Proof.
  induction files as [|[filename content] rest IH]; intros i all_data st j Hj.
  - exists all_data, st, j. cbn. rewrite insert_id by done.
    repeat split; try done; lia.
  - destruct (process_single_file_store (world i) filename content job_id st j Hj)
      as (data & st1 & Hrun & Hres & Hst & Hd & Hh & He & Hi).
    assert (Hj1 : processing_status st1 !! job_id = Some (file_started filename j))
      by (rewrite Hst; apply lookup_insert_eq).
    destruct (IH (S i) (all_data ++ data) st1 _ Hj1)
      as (all_data' & st' & j' & Hloop & Hres' & Hst' & Hs' & Ht' & Hp' & Hd' & Hh' & He' & Hi').
    exists all_data', st', j'. cbn [for_files].
    unfold mbind, M_bind, try_except, mret, M_ret. rewrite Hrun.
    split; [exact Hloop|]. split; [congruence|].
    split; [by rewrite Hst', Hst, insert_insert_eq|].
    cbn in *. repeat split; try congruence; lia.
Qed.

Lemma for_hours_store all_data : ∀ st r st',
  for_hours all_data st = (r, st') →
  processing_results st' = processing_results st
  ∧ processing_status st' = processing_status st
  ∧ Metrics.total_documents (dashboard_metrics st') = Metrics.total_documents (dashboard_metrics st)
  ∧ Metrics.total_entries (dashboard_metrics st') = Metrics.total_entries (dashboard_metrics st)
  ∧ Metrics.total_images (dashboard_metrics st') = Metrics.total_images (dashboard_metrics st)
  ∧ match r with
    | Ok _ => sum_hours (Metrics.total_hours (dashboard_metrics st)) all_data
              = Ok (Metrics.total_hours (dashboard_metrics st'))
    | Raise e => sum_hours (Metrics.total_hours (dashboard_metrics st)) all_data = Raise e
    end.
Proof.
  induction all_data as [|entry rest IH]; intros st r st'; cbn [for_hours sum_hours].
  - unfold mret, M_ret. intros [= <- <-]. done.
  - unfold mbind, M_bind, add_hours.
    destruct (entry_get entry (lit "hours") (JNum (PyInt 0))) as [v|e];
      [|by intros [= <- <-]].
    destruct (add_value (Metrics.total_hours (dashboard_metrics st)) v) as [h|e];
      [|by intros [= <- <-]].
    intros Hrest. apply IH in Hrest. cbn in Hrest. exact Hrest.
Qed.

Lemma finish_job_store files all_data st j :
  processing_status st !! job_id = Some j →
  ∃ r st',
    finish_job files job_id all_data st = (r, st')
    ∧ Metrics.total_documents (dashboard_metrics st')
      = Metrics.total_documents (dashboard_metrics st) + length files
    ∧ Metrics.total_entries (dashboard_metrics st')
      = Metrics.total_entries (dashboard_metrics st) + length all_data
    ∧ Metrics.total_images (dashboard_metrics st') = Metrics.total_images (dashboard_metrics st)
    ∧ match r with
      | Ok _ =>
          sum_hours (Metrics.total_hours (dashboard_metrics st)) all_data
          = Ok (Metrics.total_hours (dashboard_metrics st'))
          ∧ processing_results st' = <[job_id := all_data]> (processing_results st)
          ∧ processing_status st'
            = <[job_id := Job.set_total_entries (length all_data) (Job.set_status Completed j)]>
                (processing_status st)
      | Raise e =>
          sum_hours (Metrics.total_hours (dashboard_metrics st)) all_data = Raise e
          ∧ processing_results st' = processing_results st
          ∧ processing_status st' = processing_status st
      end.
Proof.
  intros Hj. unfold finish_job. unfold_M.
  match goal with |- context [for_hours all_data ?s] =>
    destruct (for_hours all_data s) as [r st1] eqn:Hfh end.
  apply for_hours_store in Hfh as (Hres & Hst & Hd & He & Hi & Hsum). cbn in *.
  destruct r as [[]|e].
  - rewrite Hst, Hj. cbn. rewrite lookup_insert_eq, insert_insert_eq.
    eexists _, _. split; [reflexivity|]. cbn. rewrite Hres. done.
  - eexists _, _. split; [reflexivity|]. done.
Qed.

Lemma job_failed_status st j e :
  processing_status st !! job_id = Some j →
  ∃ st', (_ ← set_failed job_id; set_error job_id e) st = (Ok (), st')
         ∧ processing_results st' = processing_results st
         ∧ processing_status st'
           = <[job_id := Job.set_error e (Job.set_status Failed j)]> (processing_status st)
         ∧ dashboard_metrics st' = dashboard_metrics st.
Proof.
  intros Hj. unfold_M. rewrite Hj. cbn. rewrite lookup_insert_eq, insert_insert_eq.
  eexists. done.
Qed.

End Job.

(** C6. For a job run by [process_files_bulk]: while its files are
    processed only the image count moves, once per file inside the worker
    and before the job's status changes; the documents, entries and hours
    counters are raised in the closing block, once each, and when the job
    ends as completed they stand at the old value plus the number of
    files, plus the number of entries, and plus the entries' hours. *)
Theorem metrics_follow_completion (world : nat → file_world)
    (files : list (str * bytes)) (job_id : str) (st : store) (j : Job.t) :
  processing_status st !! job_id = Some j →
  ∃ all_data st1 st2,
    for_files world 0 files job_id [] st = (Ok all_data, st1)
    ∧ process_files_bulk world files job_id st = (Ok (), st2)
    ∧ Job.status <$> processing_status st1 !! job_id = Some (Job.status j)
    ∧ Metrics.total_documents (dashboard_metrics st1) = Metrics.total_documents (dashboard_metrics st)
    ∧ Metrics.total_entries (dashboard_metrics st1) = Metrics.total_entries (dashboard_metrics st)
    ∧ Metrics.total_hours (dashboard_metrics st1) = Metrics.total_hours (dashboard_metrics st)
    ∧ Metrics.total_images (dashboard_metrics st1)
      = Metrics.total_images (dashboard_metrics st) + images_total world 0 files
    ∧ Metrics.total_images (dashboard_metrics st2) = Metrics.total_images (dashboard_metrics st1)
    ∧ (Job.status <$> processing_status st2 !! job_id = Some Completed →
       processing_results st2 !! job_id = Some all_data
       ∧ Metrics.total_documents (dashboard_metrics st2)
         = Metrics.total_documents (dashboard_metrics st) + length files
       ∧ Metrics.total_entries (dashboard_metrics st2)
         = Metrics.total_entries (dashboard_metrics st) + length all_data
       ∧ sum_hours (Metrics.total_hours (dashboard_metrics st)) all_data
         = Ok (Metrics.total_hours (dashboard_metrics st2))).
Proof.
  intros Hj.
  destruct (for_files_store world job_id files 0 [] st j Hj)
    as (all_data & st1 & j1 & Hloop & Hres1 & Hst1 & Hs1 & Ht1 & Hp1 & Hd1 & Hh1 & He1 & Hi1).
  assert (Hj1 : processing_status st1 !! job_id = Some j1)
    by (rewrite Hst1; apply lookup_insert_eq).
  destruct (finish_job_store job_id files all_data st1 j1 Hj1)
    as (r & st2 & Hfin & Hd2 & He2 & Hi2 & Hr).
  destruct r as [[]|e].
  - destruct Hr as (Hsum & Hres2 & Hst2).
    exists all_data, st1, st2.
    split; [exact Hloop|]. split.
    { unfold process_files_bulk, try_except, mbind, M_bind. by rewrite Hloop, Hfin. }
    split; [by rewrite Hj1; cbn; rewrite Hs1|].
    do 4 (split; [done|]). split; [done|].
    intros _. rewrite Hres2, lookup_insert_eq. repeat split; congruence.
  - destruct Hr as (Hsum & Hres2 & Hst2).
    assert (Hj2 : processing_status st2 !! job_id = Some j1) by congruence.
    destruct (job_failed_status job_id st2 j1 e Hj2) as (st3 & Hh & Hres3 & Hst3 & Hm3).
    exists all_data, st1, st3.
    split; [exact Hloop|]. split.
    { unfold process_files_bulk, try_except. unfold mbind at 1. unfold M_bind at 1.
      by rewrite Hloop, Hfin. }
    split; [by rewrite Hj1; cbn; rewrite Hs1|].
    do 4 (split; [done|]). split; [by rewrite Hm3|].
    rewrite Hst3, lookup_insert_eq. cbn. discriminate.
Qed.

Lemma metrics_follow_completion_witness :
  processing_status (one_job (lit "job") 2) !! lit "job"
  = Some (Job.mk Processing 2 0 [] 0 None)
  ∧ process_files_bulk scenario_A_world scenario_A_files (lit "job") (one_job (lit "job") 2)
    = (Ok (),
       mk_store {[ lit "job" := [ JObj [(lit "employee_name", JStr (lit "A"));
                                        (lit "date", JStr (lit "06/09/2025"));
                                        (lit "hours", JNum (PyFloat (FDec 80 (-1))));
                                        (lit "source_file", JStr (lit "a.docx"))];
                                  JObj [(lit "employee_name", JStr (lit "A"));
                                        (lit "date", JStr (lit "06/09/2025"));
                                        (lit "hours", JNum (PyFloat (FDec 80 (-1))));
                                        (lit "source_file", JStr (lit "b.docx"))] ] ]}
                {[ lit "job" := Job.mk Completed 2 2 (lit "b.docx") 2 None ]}
                (Metrics.mk 2 (PyFloat (FDec 160 (-1))) 2 2)).
Proof.
  assert (Hj : processing_status (one_job (lit "job") 2) !! lit "job"
               = Some (Job.mk Processing 2 0 [] 0 None)) by reflexivity.
  split; [exact Hj|].
  destruct (metrics_follow_completion scenario_A_world scenario_A_files (lit "job")
              (one_job (lit "job") 2) _ Hj) as (all_data & st1 & st2 & _ & Hrun & _).
  rewrite Hrun. vm_compute in Hrun. injection Hrun as <-. vm_compute. reflexivity.
Defined.

(** A job can end in the error state after the counters have moved: an
    entry whose hours are text stops the loop at line 323 with a
    [TypeError], when documents, entries and images are already counted. *)
Lemma failed_job_moves_metrics :
  process_files_bulk (λ _, text_hours_world) [(lit "a.docx", [])] (lit "job")
                     (one_job (lit "job") 1)
  = (Ok (),
     mk_store ∅ {[ lit "job" := Job.mk Failed 1 1 (lit "a.docx") 0 (Some TypeError) ]}
              (Metrics.mk 1 (PyInt 0) 1 1))
  ∧ dashboard_metrics (one_job (lit "job") 1) = Metrics.mk 0 (PyInt 0) 0 0.
Proof. split; vm_compute; reflexivity. Qed.

(** ** The running system *)

Lemma update_job_Some job_id f st j :
  processing_status st !! job_id = Some j →
  update_job job_id f st
  = (Ok (), mk_store (processing_results st) (<[job_id := f j]> (processing_status st))
                     (dashboard_metrics st)).
Proof. intros H. unfold update_job. by rewrite H. Qed.

Lemma update_job_None job_id f st :
  processing_status st !! job_id = None →
  update_job job_id f st = (Raise KeyError, st).
Proof. intros H. unfold update_job. by rewrite H. Qed.

Lemma extract_file_tables w filename st r st' :
  extract_file w filename st = (r, st') →
  processing_results st' = processing_results st
  ∧ processing_status st' = processing_status st.
Proof.
  unfold extract_file. unfold_M.
  remember (extract_timesheet_data_with_claude (claude w) (docx_images w) filename)
    as extracted eqn:Hex. clear Hex.
  destruct (tempfile_ok w); cbn; [|by intros [= <- <-]].
  destruct (docx_images w), extracted; cbn; destruct (unlink_ok w);
    by intros [= <- <-].
Qed.

Lemma add_hours_tables entry st r st' :
  add_hours entry st = (r, st') →
  processing_results st' = processing_results st
  ∧ processing_status st' = processing_status st.
Proof.
  unfold add_hours.
  destruct (entry_get _ _ _) as [v|]; [|by intros [= <- <-]].
  destruct (add_value _ _); by intros [= <- <-].
Qed.

(** A step of a thread leaves the entries of the other jobs alone. *)
Lemma thread_step_other w job_id files p st p' st' other :
  thread_step w job_id files p st = (p', st') →
  other ≠ job_id →
  processing_status st' !! other = processing_status st !! other
  ∧ processing_results st' !! other = processing_results st !! other.
Proof.
  intros Hstep Hne. destruct p as [[|[filename content] rest]| | | |[|entry rem]| | | | | |];
    cbn [thread_step] in Hstep.
  all: try (unfold set_current_file, incr_processed, set_completed, set_total_entries,
              set_failed, set_error in Hstep;
            destruct (processing_status st !! job_id) as [j|] eqn:Hj;
            [rewrite (update_job_Some _ _ _ _ Hj) in Hstep
            |rewrite (update_job_None _ _ _ Hj) in Hstep];
            injection Hstep as <- <-; cbn; by rewrite ?lookup_insert_ne).
  all: try (injection Hstep as <- <-; cbn; by rewrite ?lookup_insert_ne).
  - destruct (extract_file w filename st) as [[data|e] st1] eqn:Hex;
      injection Hstep as <- <-; by apply extract_file_tables in Hex as [-> ->].
  - destruct (add_hours entry st) as [[[]|e] st1] eqn:Hah;
      injection Hstep as <- <-; by apply add_hours_tables in Hah as [-> ->].
Qed.

Ltac step_update Hstep Hj :=
  unfold set_current_file, incr_processed, set_completed, set_total_entries,
    set_failed, set_error in Hstep;
  first [ rewrite (update_job_Some _ _ _ _ Hj) in Hstep
        | rewrite (update_job_None _ _ _ Hj) in Hstep ];
  injection Hstep as <- <-; cbn [processing_status processing_results pc_ok];
  rewrite ?lookup_insert_eq.

Ltac solve_rec_ok :=
  repeat match goal with
         | |- _ ∧ _ => split
         | |- rec_ok _ _ _ (Some _) => eexists; split; [reflexivity|]; cbn
         | |- is_Some _ => eexists; eassumption
         end;
  try done; try lia; try (by right); try (by right; left).

(** A step of a thread keeps its own job's entries as its new position
    requires. *)
Lemma thread_step_own w job_id files p st p' st' :
  pc_ok files p (processing_status st !! job_id) (processing_results st !! job_id) →
  thread_step w job_id files p st = (p', st') →
  pc_ok files p' (processing_status st' !! job_id) (processing_results st' !! job_id).
Proof.
  intros Hok Hstep.
  destruct p as [[|[filename content] rest] a|filename rest a|filename rest a|a
                |[|entry rem] a|a|a|e|e| |e];
    cbn [thread_step pc_ok] in *.
  - (* line 319 *)
    destruct Hok as (Hres & j & Hj & Hs & Ht & Hp).
    injection Hstep as <- <-. cbn. rewrite Hj. solve_rec_ok.
  - (* line 265 *)
    destruct Hok as (Hres & j & Hj & Hs & Ht & Hp).
    step_update Hstep Hj. cbn in Hp. solve_rec_ok.
  - (* line 266 *)
    destruct Hok as (Hres & j & Hj & Hs & Ht & Hp).
    step_update Hstep Hj. solve_rec_ok.
  - (* lines 270-293 *)
    destruct Hok as (Hres & j & Hj & Hs & Ht & Hp).
    destruct (extract_file w filename st) as [[data|e] st1] eqn:Hex;
      injection Hstep as <- <-; apply extract_file_tables in Hex as [-> ->];
      cbn [pc_ok]; rewrite Hj; solve_rec_ok.
  - (* line 320 *)
    destruct Hok as (Hres & j & Hj & Hs & Ht & Hp).
    injection Hstep as <- <-. cbn. rewrite Hj. solve_rec_ok.
  - (* line 327 *)
    destruct Hok as (Hres & j & Hj & Hs & Ht & Hp).
    injection Hstep as <- <-. cbn. rewrite lookup_insert_eq, Hj. left. solve_rec_ok.
  - (* line 324 *)
    destruct Hok as (Hres & j & Hj & Hs & Ht & Hp).
    destruct (add_hours entry st) as [[[]|e] st1] eqn:Hah;
      injection Hstep as <- <-; apply add_hours_tables in Hah as [-> ->];
      cbn [pc_ok]; rewrite Hj; [|split; [done|left]]; solve_rec_ok.
  - (* line 328 *)
    destruct Hok as [(Hres & j & Hj & Hs & Ht & Hp) | [Hres Hj]];
      step_update Hstep Hj; [left|]; solve_rec_ok.
  - (* line 329 *)
    destruct Hok as [(Hres & j & Hj & Hs & Ht & Hp) | [Hres Hj]];
      step_update Hstep Hj; [left; split; [by eexists|]|]; solve_rec_ok.
  - (* line 335 *)
    destruct Hok as (Hres & [(j & Hj & Hs & Ht & Hp) | Hj]);
      step_update Hstep Hj; [split; [done|left]|]; solve_rec_ok.
  - (* line 336 *)
    destruct Hok as (Hres & [(j & Hj & Hs & Ht & Hp) | Hj]);
      step_update Hstep Hj; [right; right|]; solve_rec_ok.
  - by injection Hstep as <- <-.
  - by injection Hstep as <- <-.
Qed.

(** The five outcomes of [download_result]. *)
Lemma download_not_found job_id st :
  processing_results st !! job_id = None →
  download_result job_id st = (Ok (RespError 404 (lit "Results not found")), st).
Proof. intros H. unfold download_result, try_except. by rewrite H. Qed.

Lemma download_no_data job_id st :
  processing_results st !! job_id = Some [] →
  download_result job_id st = (Ok (RespError 400 (lit "No data extracted")), st).
Proof. intros H. unfold download_result, try_except. by rewrite H. Qed.

Lemma download_render_raises job_id st data e :
  processing_results st !! job_id = Some data → data ≠ [] →
  create_excel_file data = Raise e →
  download_result job_id st = (Ok (RespException e), st).
Proof.
  intros H Hne He. unfold download_result, try_except. rewrite H.
  destruct data; [done|]. unfold_M. by rewrite He.
Qed.

Lemma download_file job_id st data wb j :
  processing_results st !! job_id = Some data → data ≠ [] →
  create_excel_file data = Ok wb →
  processing_status st !! job_id = Some j →
  download_result job_id st
  = (Ok (RespFile wb),
     mk_store (delete job_id (processing_results st))
              (delete job_id (processing_status st)) (dashboard_metrics st)).
Proof.
  intros H Hne Hwb Hj. unfold download_result, try_except. rewrite H.
  destruct data; [done|]. unfold_M. unfold del_result, del_status.
  rewrite Hwb, H. cbn. by rewrite Hj.
Qed.

Lemma download_no_record job_id st data wb :
  processing_results st !! job_id = Some data → data ≠ [] →
  create_excel_file data = Ok wb →
  processing_status st !! job_id = None →
  download_result job_id st
  = (Ok (RespException KeyError),
     mk_store (delete job_id (processing_results st))
              (processing_status st) (dashboard_metrics st)).
Proof.
  intros H Hne Hwb Hj. unfold download_result, try_except. rewrite H.
  destruct data; [done|]. unfold_M. unfold del_result, del_status.
  rewrite Hwb, H. cbn. by rewrite Hj.
Qed.

(** Wherever a thread stands, a stored result comes with a record, and
    the record bounds [processed] by [total]. *)
Lemma pc_ok_result files p rec res :
  pc_ok files p rec res → is_Some res → is_Some rec.
Proof.
  intros Hok [data ->].
  destruct p; cbn in Hok; try (by destruct Hok as [? _]).
  - destruct Hok as [(_ & j & -> & _) | [? _]]; [by eexists | done].
  - destruct Hok as [(_ & j & -> & _) | [? _]]; [by eexists | done].
  - destruct Hok as [(_ & j & -> & _) | [[? _] | [? _]]]; [by eexists | done | done].
Qed.

Lemma pc_ok_deleted files p res :
  is_Some res → (∃ rec, pc_ok files p rec res) → pc_ok files p None None.
Proof.
  intros [data ->] [rec Hok].
  destruct p; cbn in *; try (by destruct Hok as [? _]).
  - by right.
  - by right.
  - right. by left.
Qed.

Lemma pc_ok_record files p j res :
  pc_ok files p (Some j) res →
  Job.total j = length files ∧ Job.processed j ≤ Job.total j.
Proof.
  intros Hok.
  assert (Hrec : ∀ n st, rec_ok files n st (Some j) →
                 Job.total j = length files ∧ Job.processed j ≤ Job.total j).
  { intros n st (j' & [= <-] & _ & Ht & Hp). split; [done | lia]. }
  destruct p; cbn in Hok;
    repeat match goal with
           | H : _ ∧ _ |- _ => destruct H
           | H : _ ∨ _ |- _ => destruct H
           | H : rec_ok _ _ _ (Some j) |- _ => exact (Hrec _ _ H)
           | H : Some _ = None |- _ => discriminate H
           end.
Qed.

Lemma pc_ok_status files p j res :
  pc_ok files p (Some j) res →
  (Job.status j = Completed → is_Some res)
  ∧ (Job.status j = Failed → res = None).
Proof.
  intros Hok.
  destruct p; cbn in Hok;
    repeat match goal with
           | H : _ ∧ _ |- _ => destruct H
           | H : _ ∨ _ |- _ => destruct H
           | H : rec_ok _ _ _ (Some j) |- _ =>
               destruct H as (j' & [= <-] & Hs & _)
           | H : Some _ = None |- _ => discriminate H
           end;
    subst; split; intros; try congruence; try done; by eexists.
Qed.

Lemma invariant_initial : invariant initial_system.
Proof. intros job_id. unfold job_ok. cbn. by rewrite !lookup_empty. Qed.

Lemma invariant_step s ev s' resp :
  invariant s → step s ev = Some (s', resp) → invariant s'.
Proof.
  intros Hinv Hstep other. pose proof (Hinv other) as Hother.
  destruct s as [st ths]. destruct ev as [job_id files|job_id|job_id|job_id w];
    cbn [step tables threads] in Hstep.
  - (* submit *)
    pose proof (Hinv job_id) as Hjob. unfold job_ok in Hjob. cbn in Hjob.
    destruct (ths !! job_id) as [th|] eqn:Hth; [done|]. destruct Hjob as [Hrec Hres].
    unfold process_bulk in Hstep. destruct files as [|file files].
    { by injection Hstep as <- <-. }
    destruct (filter _ (file :: files)) as [|fd fds] eqn:Hfilter.
    { by injection Hstep as <- <-. }
    cbn in Hstep. injection Hstep as <- <-.
    unfold job_ok in *. cbn in *.
    destruct (decide (job_id = other)) as [<-|Hne].
    + rewrite !lookup_insert_eq. cbn. split; [done|]. eexists. split; [done|]. cbn. done.
    + by rewrite !lookup_insert_ne.
  - (* status *)
    unfold get_status in Hstep.
    destruct (processing_status st !! job_id); by injection Hstep as <- <-.
  - (* download *)
    pose proof (Hinv job_id) as Hjob. unfold job_ok in Hjob. cbn in Hjob.
    destruct (processing_results st !! job_id) as [data|] eqn:Hres.
    2:{ rewrite download_not_found in Hstep by done. by injection Hstep as <- <-. }
    destruct data as [|entry data].
    { rewrite download_no_data in Hstep by done. by injection Hstep as <- <-. }
    destruct (create_excel_file (entry :: data)) as [wb|e] eqn:Hwb.
    2:{ erewrite download_render_raises in Hstep by done. by injection Hstep as <- <-. }
    destruct (ths !! job_id) as [th|] eqn:Hth; [|by destruct Hjob].
    destruct (pc_ok_result _ _ _ _ Hjob ltac:(by eexists)) as [j Hj].
    erewrite download_file in Hstep by done. injection Hstep as <- <-.
    unfold job_ok in *. cbn in *.
    destruct (decide (job_id = other)) as [<-|Hne].
    + rewrite Hth, !lookup_delete_eq. eapply pc_ok_deleted; [|by eexists]. by eexists.
    + by rewrite !lookup_delete_ne.
  - (* a thread's statement *)
    pose proof (Hinv job_id) as Hjob. unfold job_ok in Hjob. cbn in Hjob.
    destruct (ths !! job_id) as [[files p]|] eqn:Hth; [|done]. cbn in *.
    destruct (finished p); [done|].
    destruct (thread_step w job_id files p st) as [p' st'] eqn:Hts.
    injection Hstep as <- <-. unfold job_ok in *. cbn in *.
    destruct (decide (job_id = other)) as [<-|Hne].
    + rewrite lookup_insert_eq. cbn. eapply thread_step_own; eauto.
    + rewrite lookup_insert_ne by done.
      by destruct (thread_step_other _ _ _ _ _ _ _ other Hts ltac:(done)) as [-> ->].
Qed.

Lemma invariant_run evs : ∀ s s', invariant s → run s evs = Some s' → invariant s'.
Proof.
  induction evs as [|ev evs IH]; intros s s' Hinv; cbn.
  - by intros [= <-].
  - destruct (step s ev) as [[s1 resp]|] eqn:Hstep; [|done].
    apply IH. eapply invariant_step; eauto.
Qed.

Lemma reachable_invariant s : reachable s → invariant s.
Proof. intros [evs Hrun]. eapply invariant_run; [apply invariant_initial | exact Hrun]. Qed.

(** C8. In every reachable state, whatever [get_status] reports for a job
    has [processed] at most [total], and [total] is the number of accepted
    documents that the job's thread was started with. *)
Theorem processed_never_exceeds_total (s : system) (job_id : str) (j : Job.t) (st' : store) :
  reachable s →
  get_status job_id (tables s) = (Ok (RespStatus j), st') →
  Job.processed j ≤ Job.total j
  ∧ ∃ th, threads s !! job_id = Some th ∧ Job.total j = length (t_files th).
Proof.
  intros Hreach Hpoll. apply reachable_invariant in Hreach.
  specialize (Hreach job_id). unfold job_ok in Hreach. unfold get_status in Hpoll.
  destruct (processing_status (tables s) !! job_id) as [j'|] eqn:Hj; [|done].
  injection Hpoll as -> _.
  destruct (threads s !! job_id) as [th|]; [|by destruct Hreach].
  destruct (pc_ok_record _ _ _ _ Hreach) as [Ht Hp]. eauto.
Qed.

Lemma processed_never_exceeds_total_witness :
  get_status (lit "job") (tables (end_of polled_events))
  = (Ok (RespStatus (Job.mk Processing 2 1 (lit "a.docx") 0 None)),
     tables (end_of polled_events))
  ∧ 1 ≤ 2.
Proof.
  assert (Hreach : reachable (end_of polled_events))
    by (exists polled_events; vm_compute; reflexivity).
  assert (Hpoll : get_status (lit "job") (tables (end_of polled_events))
                  = (Ok (RespStatus (Job.mk Processing 2 1 (lit "a.docx") 0 None)),
                     tables (end_of polled_events)))
    by (vm_compute; reflexivity).
  split; [exact Hpoll|].
  exact (proj1 (processed_never_exceeds_total _ _ _ _ Hreach Hpoll)).
Defined.

(** Under the invariant a record whose status is completed comes with
    a stored result. *)
Lemma completed_has_result (s : system) (job_id : str) (j : Job.t) :
  invariant s →
  processing_status (tables s) !! job_id = Some j →
  Job.status j = Completed →
  is_Some (processing_results (tables s) !! job_id).
Proof.
  intros Hinv Hj Hs. specialize (Hinv job_id). unfold job_ok in Hinv.
  rewrite Hj in Hinv.
  destruct (threads s !! job_id) as [th|]; [|by destruct Hinv].
  by apply (pc_ok_status _ _ _ _ Hinv).
Qed.

(** C7. In every reachable state and for every job id: a stored
    JobResult comes with its Job record; a record whose status is
    completed comes with its JobResult; a record whose status is error
    has no JobResult; so a record without JobResult belongs to a job that
    is still processing or that ended in error. *)
Theorem job_and_result_coexist (s : system) (job_id : str) :
  reachable s →
  let rec := processing_status (tables s) !! job_id in
  let res := processing_results (tables s) !! job_id in
  (is_Some res → is_Some rec)
  ∧ (∀ j, rec = Some j → Job.status j = Completed → is_Some res)
  ∧ (∀ j, rec = Some j → Job.status j = Failed → res = None)
  ∧ (∀ j, rec = Some j → res = None → Job.status j = Processing ∨ Job.status j = Failed).
Proof.
  intros Hreach. apply reachable_invariant in Hreach. rename Hreach into Hinv.
  specialize (Hinv job_id). unfold job_ok in Hinv. cbn zeta.
  destruct (threads s !! job_id) as [th|].
  2:{ destruct Hinv as [-> ->]. repeat split; try done. }
  split; [by eapply pc_ok_result|].
  assert (Hst : ∀ j, processing_status (tables s) !! job_id = Some j →
                (Job.status j = Completed → is_Some (processing_results (tables s) !! job_id))
                ∧ (Job.status j = Failed → processing_results (tables s) !! job_id = None)).
  { intros j Hj. rewrite Hj in Hinv. by eapply pc_ok_status. }
  split; [intros j Hj; by apply Hst|]. split; [intros j Hj; by apply Hst|].
  intros j Hj Hres. destruct (Job.status j) eqn:Hs; [by left | | by right].
  destruct (proj1 (Hst j Hj) Hs) as [data Hdata]. congruence.
Qed.

Lemma job_and_result_coexist_witness :
  processing_status (tables (end_of completed_events)) !! lit "job"
  = Some (Job.mk Completed 2 2 (lit "b.docx") 2 None)
  ∧ is_Some (processing_results (tables (end_of completed_events)) !! lit "job").
Proof.
  assert (Hreach : reachable (end_of completed_events))
    by (exists completed_events; vm_compute; reflexivity).
  assert (Hj : processing_status (tables (end_of completed_events)) !! lit "job"
               = Some (Job.mk Completed 2 2 (lit "b.docx") 2 None))
    by (vm_compute; reflexivity).
  split; [exact Hj|].
  exact (proj1 (proj2 (job_and_result_coexist _ (lit "job") Hreach)) _ Hj eq_refl).
Defined.

(** A job that ended in the error state keeps its record and has no
    JobResult, outside any processing window: its thread has finished. *)
Lemma failed_job_has_no_result :
  run initial_system failed_events = Some (end_of failed_events)
  ∧ threads (end_of failed_events) !! lit "job"
    = Some (mk_thread [(lit "a.docx", [])] PDone)
  ∧ processing_status (tables (end_of failed_events)) !! lit "job"
    = Some (Job.mk Failed 1 1 (lit "a.docx") 0 (Some TypeError))
  ∧ processing_results (tables (end_of failed_events)) !! lit "job" = None.
Proof. repeat split; vm_compute; reflexivity. Qed.

(** ** Retrieval *)

(** C5. In every reachable state, retrieval for a job id whose result is
    not stored gets the 404 answer "Results not found"; that is the case
    for an id that was never submitted and, with the same answer, for a
    job whose thread has not reached line 327 yet.  Retrieval of a stored
    empty result gets the 400 answer "No data extracted", which differs
    from the 404 answer. *)
Theorem retrieval_rejections (s : system) (job_id : str) :
  reachable s →
  (processing_results (tables s) !! job_id = None →
   download_result job_id (tables s)
   = (Ok (RespError 404 (lit "Results not found")), tables s))
  ∧ (threads s !! job_id = None → processing_results (tables s) !! job_id = None)
  ∧ (∀ th, threads s !! job_id = Some th → before_store (t_pc th) = true →
           processing_results (tables s) !! job_id = None)
  ∧ (processing_results (tables s) !! job_id = Some [] →
     download_result job_id (tables s)
     = (Ok (RespError 400 (lit "No data extracted")), tables s))
  ∧ RespError 404 (lit "Results not found") ≠ RespError 400 (lit "No data extracted").
Proof.
  intros Hreach. apply reachable_invariant in Hreach.
  specialize (Hreach job_id). unfold job_ok in Hreach.
  split; [apply download_not_found|].
  split; [intros Hth; rewrite Hth in Hreach; by destruct Hreach|].
  split; [|split; [apply download_no_data | discriminate]].
  intros th Hth Hbefore. rewrite Hth in Hreach.
  destruct (t_pc th); cbn in *; try discriminate; by destruct Hreach.
Qed.

Lemma retrieval_rejections_witness :
  threads (end_of submitted_events) !! lit "job"
  = Some (mk_thread [(lit "a.docx", [])] (PFor [(lit "a.docx", [])] []))
  ∧ download_result (lit "job") (tables (end_of submitted_events))
    = (Ok (RespError 404 (lit "Results not found")), tables (end_of submitted_events)).
Proof.
  assert (Hreach : reachable (end_of submitted_events))
    by (exists submitted_events; vm_compute; reflexivity).
  assert (Hth : threads (end_of submitted_events) !! lit "job"
                = Some (mk_thread [(lit "a.docx", [])] (PFor [(lit "a.docx", [])] [])))
    by (vm_compute; reflexivity).
  split; [exact Hth|].
  destruct (retrieval_rejections _ (lit "job") Hreach) as (H404 & _ & Hwork & _).
  exact (H404 (Hwork _ Hth eq_refl)).
Defined.

(** Retrieval while the job is processing gets the very answer given for
    an id that was never submitted. *)
Lemma processing_job_reports_not_found :
  run initial_system submitted_events = Some (end_of submitted_events)
  ∧ processing_status (tables (end_of submitted_events)) !! lit "job"
    = Some (Job.mk Processing 1 0 [] 0 None)
  ∧ threads (end_of submitted_events) !! lit "never" = None
  ∧ (download_result (lit "job") (tables (end_of submitted_events))).1
    = Ok (RespError 404 (lit "Results not found"))
  ∧ (download_result (lit "never") (tables (end_of submitted_events))).1
    = Ok (RespError 404 (lit "Results not found")).
Proof. repeat split; vm_compute; reflexivity. Qed.

Lemma thread_step_after_store w job_id files p st p' st' :
  before_store p = false →
  thread_step w job_id files p st = (p', st') →
  before_store p' = false ∧ processing_results st' = processing_results st.
Proof.
  intros Hp Hstep. destruct p; try discriminate; cbn [thread_step] in Hstep.
  all: try (unfold set_completed, set_total_entries, set_failed, set_error in Hstep;
            destruct (processing_status st !! job_id) as [j|] eqn:Hj;
            [rewrite (update_job_Some _ _ _ _ Hj) in Hstep
            |rewrite (update_job_None _ _ _ Hj) in Hstep];
            by injection Hstep as <- <-).
  all: by injection Hstep as <- <-.
Qed.

Lemma download_keeps_none job_id st r st' other :
  download_result job_id st = (r, st') →
  processing_results st !! other = None →
  processing_results st' !! other = None.
Proof.
  intros Hd Hnone.
  destruct (processing_results st !! job_id) as [data|] eqn:Hres.
  2:{ rewrite download_not_found in Hd by done. by injection Hd as _ <-. }
  destruct data as [|entry data].
  { rewrite download_no_data in Hd by done. by injection Hd as _ <-. }
  destruct (create_excel_file (entry :: data)) as [wb|e] eqn:Hwb.
  2:{ erewrite download_render_raises in Hd by done. by injection Hd as _ <-. }
  destruct (processing_status st !! job_id) as [j|] eqn:Hj.
  - erewrite download_file in Hd by done. injection Hd as _ <-. cbn.
    apply lookup_delete_None. by right.
  - erewrite download_no_record in Hd by done. injection Hd as _ <-. cbn.
    apply lookup_delete_None. by right.
Qed.

Lemma consumed_step s ev s' resp job_id :
  consumed s job_id → step s ev = Some (s', resp) → consumed s' job_id.
Proof.
  unfold consumed. intros (Hres & th & Hth & Hp) Hstep. destruct s as [st ths]. cbn in *.
  destruct ev as [other files|other|other|other w]; cbn [step tables threads] in Hstep.
  - destruct (ths !! other) as [?|] eqn:Hother; [done|].
    assert (Hne : other ≠ job_id) by congruence.
    unfold process_bulk in Hstep. destruct files as [|file files].
    { injection Hstep as <- <-. split; eauto. }
    destruct (filter _ (file :: files)) as [|fd fds].
    { injection Hstep as <- <-. split; eauto. }
    cbn in Hstep. injection Hstep as <- <-. cbn. split; [done|].
    exists th. by rewrite lookup_insert_ne.
  - unfold get_status in Hstep.
    destruct (processing_status st !! other); injection Hstep as <- <-; split; eauto.
  - destruct (download_result other st) as [[r|e] st1] eqn:Hd;
      injection Hstep as <- <-; cbn;
      (split; [by eapply download_keeps_none | eauto]).
  - destruct (ths !! other) as [[files p]|] eqn:Hother; [|done]. cbn in Hstep.
    destruct (finished p); [done|].
    destruct (thread_step w other files p st) as [p' st1] eqn:Hts.
    injection Hstep as <- <-. cbn.
    destruct (decide (other = job_id)) as [->|Hne].
    + rewrite Hother in Hth. injection Hth as <-. cbn in Hp.
      destruct (thread_step_after_store _ _ _ _ _ _ _ Hp Hts) as [Hp' Hres'].
      split; [by rewrite Hres'|]. eexists. rewrite lookup_insert_eq. split; [done|]. done.
    + destruct (thread_step_other _ _ _ _ _ _ _ job_id Hts ltac:(done)) as [_ Heq].
      split; [by rewrite Heq|]. exists th. by rewrite lookup_insert_ne.
Qed.

Lemma consumed_run evs : ∀ s s' job_id,
  consumed s job_id → run s evs = Some s' → consumed s' job_id.
Proof.
  induction evs as [|ev evs IH]; intros s s' job_id Hc; cbn.
  - by intros [= <-].
  - destruct (step s ev) as [[s1 resp]|] eqn:Hstep; [|done].
    apply IH. eapply consumed_step; eauto.
Qed.

(** Retrieval where the workbook is built.  In every reachable state, a
    job whose status is completed has its result stored.  If that result
    is not empty and [create_excel_file] returns a workbook for it,
    retrieval answers with the workbook and removes both the Job record
    and the JobResult; from then on, whatever else happens, retrieval of
    the same id answers 404 "Results not found". *)
Theorem retrieval_is_single_shot (s : system) (job_id : str) (j : Job.t) :
  reachable s →
  processing_status (tables s) !! job_id = Some j →
  Job.status j = Completed →
  ∃ data,
    processing_results (tables s) !! job_id = Some data
    ∧ ∀ wb, data ≠ [] → create_excel_file data = Ok wb →
        let st' := mk_store (delete job_id (processing_results (tables s)))
                            (delete job_id (processing_status (tables s)))
                            (dashboard_metrics (tables s)) in
        download_result job_id (tables s) = (Ok (RespFile wb), st')
        ∧ processing_results st' !! job_id = None
        ∧ processing_status st' !! job_id = None
        ∧ ∀ evs s', run (mk_system st' (threads s)) evs = Some s' →
            download_result job_id (tables s')
            = (Ok (RespError 404 (lit "Results not found")), tables s').
Proof.
  intros Hreach Hj Hs.
  destruct (completed_has_result s job_id j (reachable_invariant s Hreach) Hj Hs)
    as [data Hdata].
  exists data. split; [exact Hdata|]. intros wb Hne Hwb. cbn zeta.
  split; [by eapply download_file|].
  split; [apply lookup_delete_eq|]. split; [apply lookup_delete_eq|].
  intros evs s' Hrun. apply download_not_found.
  eapply (consumed_run evs _ s' job_id); [|exact Hrun].
  split; [apply lookup_delete_eq|]. cbn.
  apply reachable_invariant in Hreach. specialize (Hreach job_id).
  unfold job_ok in Hreach. rewrite Hdata in Hreach.
  destruct (threads s !! job_id) as [th|]; [|by destruct Hreach].
  exists th. split; [done|].
  destruct (t_pc th); cbn in *; try done; by destruct Hreach.
Qed.

Lemma retrieval_is_single_shot_witness :
  let st := tables (end_of completed_events) in
  processing_status st !! lit "job" = Some (Job.mk Completed 2 2 (lit "b.docx") 2 None)
  ∧ (download_result (lit "job") st).1 = Ok (RespFile scenario_A_workbook)
  ∧ download_result (lit "job") (download_result (lit "job") st).2
    = (Ok (RespError 404 (lit "Results not found")), (download_result (lit "job") st).2).
Proof.
  cbn zeta.
  assert (Hreach : reachable (end_of completed_events))
    by (exists completed_events; vm_compute; reflexivity).
  assert (Hj : processing_status (tables (end_of completed_events)) !! lit "job"
               = Some (Job.mk Completed 2 2 (lit "b.docx") 2 None))
    by (vm_compute; reflexivity).
  split; [exact Hj|].
  destruct (retrieval_is_single_shot _ _ _ Hreach Hj eq_refl) as (data & Hdata & Hget).
  assert (Hne : data ≠ []).
  { intros ->. vm_compute in Hdata. discriminate. }
  assert (Hwb : create_excel_file data = Ok scenario_A_workbook).
  { vm_compute in Hdata. injection Hdata as <-. vm_compute. reflexivity. }
  destruct (Hget _ Hne Hwb) as (Hfirst & _ & _ & Hlater).
  rewrite Hfirst. split; [reflexivity|]. exact (Hlater [] _ eq_refl).
Defined.

(** C4. The first retrieval of a job that completed with a non-empty
    result does not always succeed.  Here the job's one entry has the
    status null: line 371 guards [.lower()] with a default for a missing
    status only, so [.lower()] is called on [None] and raises
    [AttributeError] while the workbook is built; the handler answers 500
    and removes neither the Job record nor the JobResult. *)
Lemma completed_job_retrieval_fails :
  let st := tables (end_of null_status_events) in
  run initial_system null_status_events = Some (end_of null_status_events)
  ∧ processing_status st !! lit "job"
    = Some (Job.mk Completed 1 1 (lit "a.docx") 1 None)
  ∧ processing_results st !! lit "job" = Some [null_status_entry]
  ∧ download_result (lit "job") st = (Ok (RespException AttributeError), st).
Proof. repeat split; vm_compute; reflexivity. Qed.

(** ** The thread and the job function agree *)

Section Refinement.
Variable world : nat → file_world.
Variable job_id : str.
Variable files : list (str * bytes).

Local Abbreviation run_n := (run_thread world job_id files).

Lemma run_thread_finished n p st : finished p = true → run_n n p st = (p, st).
Proof. intros Hp. destruct n; cbn; [done | by rewrite Hp]. Qed.

Lemma run_thread_app n k p st p' st' :
  run_n n p st = (p', st') → run_n (n + k) p st = run_n k p' st'.
Proof.
  revert p st. induction n as [|n IH]; intros p st; cbn.
  - by intros [= <- <-].
  - destruct (finished p) eqn:Hp.
    + intros [= <- <-]. by rewrite run_thread_finished.
    + destruct (thread_step _ job_id files p st) as [p1 st1]. apply IH.
Qed.

(** The job function, statement by statement. *)
Lemma for_files_cons i filename content rest all_data st :
  for_files world i ((filename, content) :: rest) job_id all_data st
  = match set_current_file job_id filename st with
    | (Raise _, st1) => for_files world (S i) rest job_id (all_data ++ []) st1
    | (Ok _, st1) =>
        match incr_processed job_id st1 with
        | (Raise _, st2) => for_files world (S i) rest job_id (all_data ++ []) st2
        | (Ok _, st2) =>
            match extract_file (world i) filename st2 with
            | (Ok data, st3) => for_files world (S i) rest job_id (all_data ++ data) st3
            | (Raise _, st3) => for_files world (S i) rest job_id (all_data ++ []) st3
            end
        end
    end.
Proof.
  cbn [for_files].
  unfold process_single_file, single_file_body, try_except, mbind, M_bind, mret, M_ret.
  destruct (set_current_file job_id filename st) as [[[]|e1] st1]; [|done].
  destruct (incr_processed job_id st1) as [[[]|e2] st2]; [|done].
  by destruct (extract_file (world i) filename st2) as [[data|e3] st3].
Qed.

Lemma finish_job_eq all_data st :
  finish_job files job_id all_data st
  = match for_hours all_data
            (add_entries (length all_data) (add_documents (length files) st).2).2 with
    | (Raise e, st3) => (Raise e, st3)
    | (Ok _, st3) =>
        match set_completed job_id (store_result job_id all_data st3).2 with
        | (Raise e, st5) => (Raise e, st5)
        | (Ok _, st5) => set_total_entries job_id (length all_data) st5
        end
    end.
Proof.
  unfold finish_job, mbind, M_bind. cbn.
  destruct (for_hours all_data _) as [[[]|e] st3]; [|done]. cbn.
  by destruct (set_completed job_id _) as [[[]|e] st5].
Qed.

Lemma process_files_bulk_eq st :
  process_files_bulk world files job_id st
  = match for_files world 0 files job_id [] st with
    | (Raise e, st1) => (_ ← set_failed job_id; set_error job_id e) st1
    | (Ok all_data, st1) =>
        match finish_job files job_id all_data st1 with
        | (Ok u, st2) => (Ok u, st2)
        | (Raise e, st2) => (_ ← set_failed job_id; set_error job_id e) st2
        end
    end.
Proof.
  unfold process_files_bulk, try_except. unfold mbind at 1. unfold M_bind at 1.
  by destruct (for_files world 0 files job_id [] st) as [[all_data|e] st1].
Qed.

Lemma job_failed_eq e st :
  (_ ← set_failed job_id; set_error job_id e) st
  = match set_failed job_id st with
    | (Raise e', st1) => (Raise e', st1)
    | (Ok _, st1) => set_error job_id e st1
    end.
Proof. unfold mbind, M_bind. by destruct (set_failed job_id st) as [[[]|?] ?]. Qed.

(** The loop over the files. *)
Lemma run_thread_for_files rest : ∀ i all_data st,
  i + length rest = length files →
  ∃ n all_data' st',
    for_files world i rest job_id all_data st = (Ok all_data', st')
    ∧ run_n n (PFor rest all_data) st = (PFor [] all_data', st').
Proof.
  induction rest as [|[filename content] rest IH]; intros i all_data st Hi.
  { exists 0, all_data, st. done. }
  cbn [length] in Hi.
  assert (Hidx : ∀ a, file_index files (PExtract filename rest a) = i)
    by (intros; cbn; lia).
  rewrite for_files_cons, app_nil_r.
  destruct (set_current_file job_id filename st) as [[[]|e1] st1] eqn:H1.
  2:{ destruct (IH (S i) all_data st1 ltac:(lia)) as (n & a' & st' & Hloop & Hrun).
    exists (1 + n), a', st'. split; [exact Hloop|].
    rewrite (run_thread_app 1 n _ _ (PFor rest all_data) st1); [exact Hrun|].
    cbn -[file_index]. by rewrite H1. }
  destruct (incr_processed job_id st1) as [[[]|e2] st2] eqn:H2.
  2:{ destruct (IH (S i) all_data st2 ltac:(lia)) as (n & a' & st' & Hloop & Hrun).
    exists (2 + n), a', st'. split; [exact Hloop|].
    rewrite (run_thread_app 2 n _ _ (PFor rest all_data) st2); [exact Hrun|].
    cbn -[file_index]. rewrite H1. cbn -[file_index]. by rewrite H2. }
  destruct (extract_file (world i) filename st2) as [[data|e3] st3] eqn:H3.
  - destruct (IH (S i) (all_data ++ data) st3 ltac:(lia)) as (n & a' & st' & Hloop & Hrun).
    exists (3 + n), a', st'. split; [exact Hloop|].
    rewrite (run_thread_app 3 n _ _ (PFor rest (all_data ++ data)) st3); [exact Hrun|].
    cbn -[file_index]. rewrite H1. cbn -[file_index]. rewrite H2.
    cbn -[file_index]. by rewrite Hidx, H3.
  - destruct (IH (S i) all_data st3 ltac:(lia)) as (n & a' & st' & Hloop & Hrun).
    exists (3 + n), a', st'. split; [exact Hloop|].
    rewrite (run_thread_app 3 n _ _ (PFor rest all_data) st3); [exact Hrun|].
    cbn -[file_index]. rewrite H1. cbn -[file_index]. rewrite H2.
    cbn -[file_index]. by rewrite Hidx, H3.
Qed.

(** The loop over the entries' hours. *)
Lemma run_thread_for_hours remaining : ∀ all_data st,
  ∃ n, run_n n (PHours remaining all_data) st
       = match for_hours remaining st with
         | (Ok _, st') => (PHours [] all_data, st')
         | (Raise e, st') => (PFailed e, st')
         end.
Proof.
  induction remaining as [|entry rest IH]; intros all_data st.
  { exists 0. done. }
  cbn [for_hours]. unfold mbind, M_bind.
  destruct (add_hours entry st) as [[[]|e] st1] eqn:Hah.
  - destruct (IH all_data st1) as [n Hrun]. exists (1 + n).
    rewrite (run_thread_app 1 n _ _ (PHours rest all_data) st1); [exact Hrun|].
    cbn. by rewrite Hah.
  - exists 1. cbn. by rewrite Hah.
Qed.

(** Run on its own, the thread ends where [process_files_bulk] ends and
    leaves the tables as [process_files_bulk] leaves them. *)
Lemma thread_refines_job st :
  ∃ n, ∀ m, n ≤ m →
    run_n m (PFor files []) st
    = (end_pc (process_files_bulk world files job_id st).1,
       (process_files_bulk world files job_id st).2).
Proof.
  destruct (run_thread_for_files files 0 [] st ltac:(lia))
    as (n1 & all_data & st1 & Hloop & Hrun1).
  destruct (run_thread_for_hours all_data all_data
              (add_entries (length all_data) (add_documents (length files) st1).2).2)
    as [n2 Hrun2].
  (* the statements that follow the loops *)
  assert (Hend : ∃ n3 p st',
    finished p = true
    ∧ p = end_pc (process_files_bulk world files job_id st).1
    ∧ st' = (process_files_bulk world files job_id st).2
    ∧ run_n n3 (PFor [] all_data) st1 = (p, st')).
  { rewrite process_files_bulk_eq, Hloop, finish_job_eq.
    set (st2 := (add_entries (length all_data) (add_documents (length files) st1).2).2) in *.
    assert (Hrun0 : run_n 2 (PFor [] all_data) st1 = (PHours all_data all_data, st2))
      by reflexivity.
    clearbody st2.
    destruct (for_hours all_data st2) as [[[]|e] st3] eqn:Hfh.
    - (* the hours were added: lines 327-329 *)
      set (st4 := (store_result job_id all_data st3).2).
      assert (Hpre : run_n (2 + n2 + 1) (PFor [] all_data) st1 = (PCompleted all_data, st4)).
      { rewrite <- Nat.add_assoc.
        rewrite (run_thread_app 2 (n2 + 1) _ _ _ _ Hrun0).
        by rewrite (run_thread_app n2 1 _ _ _ _ Hrun2). }
      clearbody st4.
      destruct (set_completed job_id st4) as [[[]|e] st5] eqn:H5.
      + destruct (set_total_entries job_id (length all_data) st5) as [[[]|e] st6] eqn:H6.
        * exists (2 + n2 + 1 + 2), PDone, st6. repeat split; try done.
          rewrite (run_thread_app _ 2 _ _ _ _ Hpre). cbn. rewrite H5. cbn. by rewrite H6.
        * rewrite job_failed_eq.
          destruct (set_failed job_id st6) as [[[]|e'] st7] eqn:H7.
          -- destruct (set_error job_id e st7) as [[[]|e''] st8] eqn:H8.
             ++ exists (2 + n2 + 1 + 4), PDone, st8. repeat split; try done.
                rewrite (run_thread_app _ 4 _ _ _ _ Hpre). cbn. rewrite H5. cbn.
                rewrite H6. cbn. rewrite H7. cbn. by rewrite H8.
             ++ exists (2 + n2 + 1 + 4), (PCrashed e''), st8. repeat split; try done.
                rewrite (run_thread_app _ 4 _ _ _ _ Hpre). cbn. rewrite H5. cbn.
                rewrite H6. cbn. rewrite H7. cbn. by rewrite H8.
          -- exists (2 + n2 + 1 + 3), (PCrashed e'), st7. repeat split; try done.
             rewrite (run_thread_app _ 3 _ _ _ _ Hpre). cbn. rewrite H5. cbn.
             rewrite H6. cbn. by rewrite H7.
      + rewrite job_failed_eq.
        destruct (set_failed job_id st5) as [[[]|e'] st7] eqn:H7.
        * destruct (set_error job_id e st7) as [[[]|e''] st8] eqn:H8.
          -- exists (2 + n2 + 1 + 3), PDone, st8. repeat split; try done.
             rewrite (run_thread_app _ 3 _ _ _ _ Hpre). cbn. rewrite H5. cbn.
             rewrite H7. cbn. by rewrite H8.
          -- exists (2 + n2 + 1 + 3), (PCrashed e''), st8. repeat split; try done.
             rewrite (run_thread_app _ 3 _ _ _ _ Hpre). cbn. rewrite H5. cbn.
             rewrite H7. cbn. by rewrite H8.
        * exists (2 + n2 + 1 + 2), (PCrashed e'), st7. repeat split; try done.
          rewrite (run_thread_app _ 2 _ _ _ _ Hpre). cbn. rewrite H5. cbn. by rewrite H7.
    - (* an entry's hours raised: lines 335-336 *)
      assert (Hpre : run_n (2 + n2) (PFor [] all_data) st1 = (PFailed e, st3)).
      { by rewrite (run_thread_app 2 n2 _ _ _ _ Hrun0). }
      rewrite job_failed_eq.
      destruct (set_failed job_id st3) as [[[]|e'] st7] eqn:H7.
      + destruct (set_error job_id e st7) as [[[]|e''] st8] eqn:H8.
        * exists (2 + n2 + 2), PDone, st8. repeat split; try done.
          rewrite (run_thread_app _ 2 _ _ _ _ Hpre). cbn. rewrite H7. cbn. by rewrite H8.
        * exists (2 + n2 + 2), (PCrashed e''), st8. repeat split; try done.
          rewrite (run_thread_app _ 2 _ _ _ _ Hpre). cbn. rewrite H7. cbn. by rewrite H8.
      + exists (2 + n2 + 1), (PCrashed e'), st7. repeat split; try done.
        rewrite (run_thread_app _ 1 _ _ _ _ Hpre). cbn. by rewrite H7. }
  destruct Hend as (n3 & p & st' & Hfin & <- & <- & Hrun3).
  exists (n1 + n3). intros m Hm.
  replace m with (n1 + (n3 + (m - (n1 + n3)))) by lia.
  rewrite (run_thread_app _ _ _ _ _ _ Hrun1), (run_thread_app _ _ _ _ _ _ Hrun3).
  by apply run_thread_finished.
Qed.

End Refinement.

(* ===================================================================== *)
(** * Further properties of the code                                     *)
(* ===================================================================== *)

(** ** The recovery parse and the tagging step *)

(** X1. Whatever the recovery pattern matches opens with a bracket, so
    when it decodes at all it decodes to a list: the [isinstance] test at
    line 226 never fails, and after a failed strict parse the batch
    contributes exactly the elements of that list. *)
Theorem recovered_value_is_list (text json_match : str) (v : json) :
  re_search_array text = Some json_match →
  json_loads json_match = Ok v →
  ∃ l, v = JArr l
       ∧ (json_loads text = Raise JSONDecodeError → parse_response text = l).
Proof.
  intros Hm Hv.
  destruct (proj1 (re_search_array_Some _ _) Hm) as (pre & inside & post & _ & _ & _ & Heq).
  assert (Hl : ∃ l, v = JArr l).
  { rewrite Heq in Hv. by apply json_loads_bracket in Hv. }
  destruct Hl as [l ->]. exists l. split; [done|].
  intros Hstrict. unfold parse_response. by rewrite Hstrict, Hm, Hv.
Qed.

Lemma recovered_value_is_list_witness :
  ∃ l, JArr [scenario_D_entry] = JArr l
       ∧ (json_loads (strip scenario_D_text) = Raise JSONDecodeError →
          parse_response (strip scenario_D_text) = l).
Proof.
  refine (recovered_value_is_list (strip scenario_D_text)
            (qlit "[{'employee_name':'A','date':'06/09/2025','hours':8.0,'submission_status':'Closed','week':'W23','total_hours':40.0}]")
            (JArr [scenario_D_entry]) _ _); vm_compute; reflexivity.
Defined.

Lemma dict_lookup_set_eq d k v : dict_lookup (dict_set d k v) k = Some v.
Proof.
  induction d as [|[k' v'] d IH]; cbn.
  - by rewrite decide_True.
  - destruct (decide (k' = k)) as [->|Hne]; cbn.
    + by rewrite decide_True.
    + by rewrite decide_False.
Qed.

Lemma dict_lookup_set_ne d k v k' :
  k' ≠ k → dict_lookup (dict_set d k v) k' = dict_lookup d k'.
Proof.
  intros Hne. induction d as [|[k0 v0] d IH]; cbn.
  - by rewrite decide_False.
  - destruct (decide (k0 = k)) as [->|Hne0]; cbn.
    + by rewrite !decide_False.
    + destruct (decide (k0 = k')); [done | exact IH].
Qed.

Lemma tag_source_file_tagged all_entries filename : ∀ tagged,
  tag_source_file all_entries filename = Ok tagged →
  Forall2 (tagged_as filename) all_entries tagged.
Proof.
  induction all_entries as [|raw rest IH]; intros tagged; cbn.
  - intros [= <-]. constructor.
  - destruct raw as [| | | | |d]; try discriminate. cbn.
    destruct (tag_source_file rest filename) as [rest'|]; [|discriminate].
    intros [= <-]. constructor; [|by apply IH].
    split; [done|]. split; cbn.
    + by rewrite dict_lookup_set_eq.
    + intros key dflt Hne. by rewrite dict_lookup_set_ne.
Qed.

(** X2. When [extract_timesheet_data_with_claude] returns, it returns the
    engine's entries one for one and in order, each an object whose
    [source_file] is the file name, also when the reply carried a
    [source_file] of its own, and whose other keys read as before. *)
Theorem tagging_sets_source_file (claude : inference) (images : list image)
    (filename : str) (tagged : list json) :
  extract_timesheet_data_with_claude claude images filename = Ok tagged →
  Forall2 (tagged_as filename) (process_images_in_batches claude images filename) tagged.
Proof.
  unfold extract_timesheet_data_with_claude. destruct images as [|img imgs].
  - intros [= <-]. constructor.
  - apply tag_source_file_tagged.
Qed.

Lemma tagging_sets_source_file_witness :
  extract_timesheet_data_with_claude own_source_claude [[1%N]] (lit "a.docx")
  = Ok [JObj [(lit "employee_name", JStr (lit "A"));
              (lit "source_file", JStr (lit "a.docx"))]]
  ∧ Forall2 (tagged_as (lit "a.docx"))
            [JObj [(lit "employee_name", JStr (lit "A"));
                   (lit "source_file", JStr (lit "other.docx"))]]
            [JObj [(lit "employee_name", JStr (lit "A"));
                   (lit "source_file", JStr (lit "a.docx"))]].
Proof.
  assert (H : extract_timesheet_data_with_claude own_source_claude [[1%N]] (lit "a.docx")
              = Ok [JObj [(lit "employee_name", JStr (lit "A"));
                          (lit "source_file", JStr (lit "a.docx"))]])
    by (vm_compute; reflexivity).
  split; [exact H|].
  exact (tagging_sets_source_file own_source_claude [[1%N]] (lit "a.docx") _ H).
Defined.

(** ** The worker and the job, as functions of their inputs *)

Lemma process_single_file_entries w filename content job_id st j :
  processing_status st !! job_id = Some j →
  (process_single_file w (filename, content) job_id st).1 = Ok (file_entries w filename).
Proof.
  intros Hj.
  unfold process_single_file, single_file_body, extract_file, file_entries. unfold_M.
  rewrite Hj. cbn. rewrite lookup_insert_eq.
  remember (extract_timesheet_data_with_claude (claude w) (docx_images w) filename)
    as extracted eqn:Hex.
  destruct (tempfile_ok w); cbn; [|done].
  destruct (docx_images w) as [|img imgs] eqn:Himgs.
  - cbn in Hex. subst extracted. by destruct (unlink_ok w).
  - clear Hex. destruct extracted; cbn; by destruct (unlink_ok w).
Qed.

(** X3. For a job that has a record, one call of the worker returns the
    file's entries and marks the file as started: [processed] is raised
    by one and [current_file] is the file's name, whether the file
    succeeds or fails; the record's other fields, the other jobs' records
    and all results stay as they were. *)
Theorem worker_marks_progress (w : file_world) (filename : str) (content : bytes)
    (job_id : str) (st : store) (j : Job.t) :
  processing_status st !! job_id = Some j →
  ∃ st',
    process_single_file w (filename, content) job_id st = (Ok (file_entries w filename), st')
    ∧ processing_status st' !! job_id
      = Some (Job.mk (Job.status j) (Job.total j) (Job.processed j + 1) filename
                     (Job.total_entries j) (Job.error j))
    ∧ (∀ other, other ≠ job_id →
         processing_status st' !! other = processing_status st !! other)
    ∧ processing_results st' = processing_results st.
Proof.
  intros Hj.
  destruct (process_single_file_store w filename content job_id st j Hj)
    as (data & st' & Hrun & Hres & Hst & _).
  pose proof (process_single_file_entries w filename content job_id st j Hj) as Hdata.
  rewrite Hrun in Hdata. cbn in Hdata. injection Hdata as ->.
  exists st'. split; [exact Hrun|]. rewrite Hst. split; [by rewrite lookup_insert_eq|].
  split; [|exact Hres]. intros other Hne. by rewrite lookup_insert_ne.
Qed.

Lemma worker_marks_progress_witness :
  processing_status (one_job (lit "job") 1) !! lit "job"
  = Some (Job.mk Processing 1 0 [] 0 None)
  ∧ ∃ st',
      process_single_file stray_world (lit "b.docx", []) (lit "job") (one_job (lit "job") 1)
      = (Ok (file_entries stray_world (lit "b.docx")), st')
      ∧ processing_status st' !! lit "job"
        = Some (Job.mk Processing 1 1 (lit "b.docx") 0 None).
Proof.
  assert (Hj : processing_status (one_job (lit "job") 1) !! lit "job"
               = Some (Job.mk Processing 1 0 [] 0 None)) by reflexivity.
  split; [exact Hj|].
  destruct (worker_marks_progress stray_world (lit "b.docx") [] (lit "job") _ _ Hj)
    as (st' & Hrun & Hrec & _).
  exists st'. split; [exact Hrun | exact Hrec].
Defined.

(** X4. When [os.unlink] raises after a successful extraction, the
    exception of the [finally] block replaces the return value: the
    worker returns no entries for the file, yet the file's images have
    already been added to [total_images]. *)
Theorem unlink_failure_discards_entries (w : file_world) (filename : str)
    (content : bytes) (job_id : str) (st : store) (j : Job.t) (data : list json) :
  processing_status st !! job_id = Some j →
  tempfile_ok w = true →
  unlink_ok w = false →
  extract_timesheet_data_with_claude (claude w) (docx_images w) filename = Ok data →
  ∃ st',
    process_single_file w (filename, content) job_id st = (Ok [], st')
    ∧ Metrics.total_images (dashboard_metrics st')
      = Metrics.total_images (dashboard_metrics st) + length (docx_images w).
Proof.
  intros Hj Htmp Hunlink Hex.
  destruct (process_single_file_store w filename content job_id st j Hj)
    as (d & st' & Hrun & _ & _ & _ & _ & _ & Himg).
  pose proof (process_single_file_entries w filename content job_id st j Hj) as Hdata.
  rewrite Hrun in Hdata. cbn in Hdata. injection Hdata as ->.
  exists st'. unfold file_entries in Hrun. rewrite Htmp, Hunlink in Hrun. cbn in Hrun.
  split; [exact Hrun|]. rewrite Himg. unfold images_counted. by rewrite Htmp, Hex.
Qed.

Lemma unlink_failure_discards_entries_witness :
  extract_timesheet_data_with_claude (claude unlink_fails_world)
    (docx_images unlink_fails_world) (lit "a.docx")
  = Ok [JObj [(lit "employee_name", JStr (lit "A")); (lit "hours", JNum (PyInt 8));
              (lit "source_file", JStr (lit "a.docx"))]]
  ∧ ∃ st',
      process_single_file unlink_fails_world (lit "a.docx", []) (lit "job")
                          (one_job (lit "job") 1) = (Ok [], st')
      ∧ Metrics.total_images (dashboard_metrics st') = 0 + 1.
Proof.
  assert (Hex : extract_timesheet_data_with_claude (claude unlink_fails_world)
                  (docx_images unlink_fails_world) (lit "a.docx")
                = Ok [JObj [(lit "employee_name", JStr (lit "A"));
                            (lit "hours", JNum (PyInt 8));
                            (lit "source_file", JStr (lit "a.docx"))]])
    by (vm_compute; reflexivity).
  split; [exact Hex|].
  exact (unlink_failure_discards_entries unlink_fails_world (lit "a.docx") [] (lit "job")
           (one_job (lit "job") 1) _ _ eq_refl eq_refl eq_refl Hex).
Defined.

Lemma file_entries_tagged w filename entry :
  entry ∈ file_entries w filename →
  is_dict entry = true
  ∧ entry_get entry (lit "source_file") JNull = Ok (JStr filename).
Proof.
  unfold file_entries. destruct (tempfile_ok w && unlink_ok w); [|by intros ?%elem_of_nil].
  destruct (extract_timesheet_data_with_claude _ _ _) as [data|] eqn:Hex;
    [|by intros ?%elem_of_nil].
  intros Hin.
  unfold extract_timesheet_data_with_claude in Hex.
  destruct (docx_images w) as [|img imgs].
  { injection Hex as <-. by apply elem_of_nil in Hin. }
  pose proof (tag_source_file_Ok _ _ _ Hex) as [_ Hd].
  apply tag_source_file_tagged in Hex.
  split; [by eapply Forall_forall in Hd|].
  apply list_elem_of_lookup in Hin as [k Hk].
  destruct (Forall2_lookup_r _ _ _ _ _ Hex Hk) as (raw & _ & _ & Hsrc & _). exact Hsrc.
Qed.

Lemma job_entries_tagged world files : ∀ i entry,
  entry ∈ job_entries world i files →
  is_dict entry = true
  ∧ ∃ file, file ∈ files ∧ entry_get entry (lit "source_file") JNull = Ok (JStr file.1).
Proof.
  induction files as [|[filename content] rest IH]; intros i entry; cbn.
  - by intros ?%elem_of_nil.
  - intros [Hin|Hin]%elem_of_app.
    + apply file_entries_tagged in Hin as [Hd Hsrc]. split; [done|].
      exists (filename, content). split; [left | done].
    + apply IH in Hin as (Hd & file & Hfile & Hsrc). split; [done|].
      exists file. split; [by right | done].
Qed.

Lemma for_files_entries world job_id files : ∀ i all_data st j,
  processing_status st !! job_id = Some j →
  (for_files world i files job_id all_data st).1 = Ok (all_data ++ job_entries world i files).
Proof.
  induction files as [|[filename content] rest IH]; intros i all_data st j Hj.
  - cbn. by rewrite app_nil_r.
  - destruct (process_single_file_store (world i) filename content job_id st j Hj)
      as (data & st1 & Hrun & _ & Hst & _).
    pose proof (process_single_file_entries (world i) filename content job_id st j Hj)
      as Hdata.
    rewrite Hrun in Hdata. cbn in Hdata. injection Hdata as ->.
    cbn [for_files job_entries]. unfold mbind, M_bind, try_except, mret, M_ret.
    rewrite Hrun, app_assoc.
    eapply IH. rewrite Hst. apply lookup_insert_eq.
Qed.

(** X5. For a job that has a record, the accumulator that the loop over
    the files hands to the closing block is the concatenation, in the
    order of submission, of what each file contributes; a file whose
    extraction fails contributes nothing.  Every entry of it is an object
    whose [source_file] names one of the job's files. *)
Theorem job_result_is_concatenation (world : nat → file_world)
    (files : list (str * bytes)) (job_id : str) (st : store) (j : Job.t) :
  processing_status st !! job_id = Some j →
  (for_files world 0 files job_id [] st).1 = Ok (job_entries world 0 files)
  ∧ ∀ entry, entry ∈ job_entries world 0 files →
      is_dict entry = true
      ∧ ∃ file, file ∈ files
                ∧ entry_get entry (lit "source_file") JNull = Ok (JStr file.1).
Proof.
  intros Hj. split.
  - by rewrite (for_files_entries world job_id files 0 [] st j Hj).
  - apply job_entries_tagged.
Qed.

Lemma job_result_is_concatenation_witness :
  processing_status (one_job (lit "job") 2) !! lit "job"
  = Some (Job.mk Processing 2 0 [] 0 None)
  ∧ (for_files scenario_A_world 0 scenario_A_files (lit "job") [] (one_job (lit "job") 2)).1
    = Ok (file_entries (scenario_A_world 0) (lit "a.docx")
          ++ file_entries (scenario_A_world 1) (lit "b.docx") ++ []).
Proof.
  assert (Hj : processing_status (one_job (lit "job") 2) !! lit "job"
               = Some (Job.mk Processing 2 0 [] 0 None)) by reflexivity.
  split; [exact Hj|].
  exact (proj1 (job_result_is_concatenation scenario_A_world scenario_A_files
                  (lit "job") _ _ Hj)).
Defined.






(** ** Jobs in the running system *)

(** The outcomes of [download_result], by what it does to the tables. *)
Lemma download_cases job_id st :
  (∃ resp, download_result job_id st = (Ok resp, st) ∧ ∀ wb, resp ≠ RespFile wb)
  ∨ (∃ wb, is_Some (processing_status st !! job_id)
           ∧ download_result job_id st
             = (Ok (RespFile wb),
                mk_store (delete job_id (processing_results st))
                         (delete job_id (processing_status st)) (dashboard_metrics st)))
  ∨ (processing_status st !! job_id = None
     ∧ is_Some (processing_results st !! job_id)
     ∧ download_result job_id st
       = (Ok (RespException KeyError),
          mk_store (delete job_id (processing_results st))
                   (processing_status st) (dashboard_metrics st))).
Proof.
  destruct (processing_results st !! job_id) as [data|] eqn:Hres.
  2:{ left. eexists. by rewrite download_not_found. }
  destruct data as [|entry data].
  { left. eexists. by rewrite download_no_data. }
  destruct (create_excel_file (entry :: data)) as [wb|e] eqn:Hwb.
  2:{ left. eexists. by erewrite download_render_raises. }
  destruct (processing_status st !! job_id) as [j|] eqn:Hj.
  - right. left. exists wb. split; [by eexists|]. by erewrite download_file.
  - right. right. split; [done|]. split; [by eexists|]. by erewrite download_no_record.
Qed.

Lemma download_other job_id st r st' other :
  download_result job_id st = (r, st') → other ≠ job_id →
  processing_status st' !! other = processing_status st !! other
  ∧ processing_results st' !! other = processing_results st !! other
  ∧ dashboard_metrics st' = dashboard_metrics st.
Proof.
  intros Hd Hne.
  destruct (download_cases job_id st)
    as [(resp & H & _) | [(wb & _ & H) | (_ & _ & H)]];
    rewrite H in Hd; injection Hd as <- <-; cbn; by rewrite ?lookup_delete_ne.
Qed.

Lemma step_thread_exists s job_id j :
  invariant s → processing_status (tables s) !! job_id = Some j →
  ∃ th, threads s !! job_id = Some th
        ∧ pc_ok (t_files th) (t_pc th) (Some j) (processing_results (tables s) !! job_id).
Proof.
  intros Hinv Hj. specialize (Hinv job_id). unfold job_ok in Hinv.
  rewrite Hj in Hinv. destruct (threads s !! job_id) as [th|]; [eauto | by destruct Hinv].
Qed.

Lemma thread_step_terminal w job_id files p st p' st' j :
  pc_ok files p (Some j) (processing_results st !! job_id) →
  processing_status st !! job_id = Some j →
  Job.status j ≠ Processing →
  thread_step w job_id files p st = (p', st') →
  (∃ j', processing_status st' !! job_id = Some j' ∧ Job.status j' = Job.status j)
  ∧ processing_results st' = processing_results st.
Proof.
  intros Hok Hj Hs Hstep.
  assert (Hno : ∀ n, ¬ rec_ok files n Processing (Some j)).
  { intros n (j' & [= <-] & Hs' & _). done. }
  destruct p; cbn [pc_ok thread_step] in *;
    repeat match goal with
           | H : _ ∧ _ |- _ => destruct H
           | H : _ ∨ _ |- _ => destruct H
           | H : rec_ok _ _ Processing (Some j) |- _ => destruct (Hno _ H)
           | H : Some _ = None |- _ => discriminate H
           end;
    try (unfold set_total_entries, set_error in Hstep;
         rewrite (update_job_Some _ _ _ _ Hj) in Hstep; injection Hstep as <- <-; cbn;
         rewrite lookup_insert_eq; by eauto);
    try (injection Hstep as <- <-; by eauto).
Qed.

(** One step of the system, seen from a job whose status is no longer
    processing. *)
Lemma terminal_job_step s ev s' resp job_id j :
  invariant s → step s ev = Some (s', resp) →
  processing_status (tables s) !! job_id = Some j →
  Job.status j ≠ Processing →
  ((∃ j', processing_status (tables s') !! job_id = Some j' ∧ Job.status j' = Job.status j)
   ∧ processing_results (tables s') !! job_id = processing_results (tables s) !! job_id)
  ∨ (∃ wb, ev = EvDownload job_id ∧ resp = Some (RespFile wb)
           ∧ processing_status (tables s') !! job_id = None
           ∧ processing_results (tables s') !! job_id = None).
Proof.
  intros Hinv Hstep Hj Hs.
  destruct (step_thread_exists s job_id j Hinv Hj) as (th & Hth & Hok).
  destruct s as [st ths]. cbn [tables threads] in *.
  destruct ev as [other files|other|other|other w]; cbn [step tables threads] in Hstep.
  - destruct (ths !! other) as [?|] eqn:Hother; [done|].
    assert (Hne : other ≠ job_id) by congruence.
    unfold process_bulk in Hstep. destruct files as [|file files].
    { injection Hstep as <- <-. left. eauto. }
    destruct (filter _ (file :: files)) as [|fd fds].
    { injection Hstep as <- <-. left. eauto. }
    cbn in Hstep. injection Hstep as <- <-. cbn. left.
    rewrite lookup_insert_ne by done. eauto.
  - unfold get_status in Hstep.
    destruct (processing_status st !! other); injection Hstep as <- <-; left; eauto.
  - destruct (decide (other = job_id)) as [->|Hne].
    + destruct (download_cases job_id st)
        as [(r & H & _) | [(wb & _ & H) | (Hnone & _ & _)]]; [| |congruence];
        rewrite H in Hstep; injection Hstep as <- <-.
      * left. eauto.
      * right. exists wb. cbn. by rewrite !lookup_delete_eq.
    + destruct (download_result other st) as [[r|e] st1] eqn:Hd;
        destruct (download_other _ _ _ _ job_id Hd ltac:(done)) as (Hst & Hres & _);
        injection Hstep as <- <-; cbn; left; rewrite Hst, Hres; eauto.
  - destruct (ths !! other) as [[files p]|] eqn:Hother; [|done]. cbn in Hstep.
    destruct (finished p); [done|].
    destruct (thread_step w other files p st) as [p' st1] eqn:Hts.
    injection Hstep as <- <-. cbn. left.
    destruct (decide (other = job_id)) as [->|Hne].
    + rewrite Hother in Hth. injection Hth as <-. cbn in Hok.
      destruct (thread_step_terminal _ _ _ _ _ _ _ _ Hok Hj Hs Hts) as [Hrec Hres].
      by rewrite Hres.
    + destruct (thread_step_other _ _ _ _ _ _ _ job_id Hts ltac:(done)) as [-> ->]. eauto.
Qed.

(** X7. A job's status never goes back: from a reachable state in which
    its record shows completed or error, a step leaves the record with
    the same status and the result as it was, or it is the successful
    retrieval of that job, which removes both. *)
Theorem status_never_reverts (s : system) (ev : event) (s' : system)
    (resp : option response) (job_id : str) (j : Job.t) :
  reachable s → step s ev = Some (s', resp) →
  processing_status (tables s) !! job_id = Some j →
  Job.status j ≠ Processing →
  ((∃ j', processing_status (tables s') !! job_id = Some j' ∧ Job.status j' = Job.status j)
   ∧ processing_results (tables s') !! job_id = processing_results (tables s) !! job_id)
  ∨ (∃ wb, ev = EvDownload job_id ∧ resp = Some (RespFile wb)
           ∧ processing_status (tables s') !! job_id = None
           ∧ processing_results (tables s') !! job_id = None).
Proof.
  intros Hreach Hstep Hj Hs.
  eapply terminal_job_step; eauto using reachable_invariant.
Qed.

Lemma status_never_reverts_witness :
  step (end_of completed_events) (EvStatus (lit "job"))
  = Some (end_of completed_events, Some (RespStatus (Job.mk Completed 2 2 (lit "b.docx") 2 None)))
  ∧ ∃ j', processing_status (tables (end_of completed_events)) !! lit "job" = Some j'
          ∧ Job.status j' = Completed.
Proof.
  assert (Hreach : reachable (end_of completed_events))
    by (exists completed_events; vm_compute; reflexivity).
  assert (Hstep : step (end_of completed_events) (EvStatus (lit "job"))
                  = Some (end_of completed_events,
                          Some (RespStatus (Job.mk Completed 2 2 (lit "b.docx") 2 None))))
    by (vm_compute; reflexivity).
  assert (Hj : processing_status (tables (end_of completed_events)) !! lit "job"
               = Some (Job.mk Completed 2 2 (lit "b.docx") 2 None))
    by (vm_compute; reflexivity).
  split; [exact Hstep|].
  destruct (status_never_reverts _ _ _ _ _ _ Hreach Hstep Hj ltac:(discriminate))
    as [[Hrec _] | (wb & Hev & _)]; [exact Hrec | discriminate Hev].
Defined.

(** A job that ended and whose retrieval cannot succeed, because nothing
    or an empty list is stored for it, is left as it is by every step. *)
Lemma unretrievable_step s ev s' resp job_id j :
  invariant s → step s ev = Some (s', resp) →
  processing_status (tables s) !! job_id = Some j →
  Job.status j ≠ Processing →
  (processing_results (tables s) !! job_id = None
   ∨ processing_results (tables s) !! job_id = Some []) →
  (∃ j', processing_status (tables s') !! job_id = Some j' ∧ Job.status j' = Job.status j)
  ∧ processing_results (tables s') !! job_id = processing_results (tables s) !! job_id.
Proof.
  intros Hinv Hstep Hj Hs Hres.
  destruct (terminal_job_step s ev s' resp job_id j Hinv Hstep Hj Hs)
    as [H | (wb & -> & -> & _)]; [exact H|].
  exfalso. cbn in Hstep.
  destruct Hres as [Hres|Hres];
    [rewrite (download_not_found _ _ Hres) in Hstep
    |rewrite (download_no_data _ _ Hres) in Hstep]; discriminate.
Qed.

Lemma unretrievable_run evs : ∀ s s' job_id j,
  invariant s → run s evs = Some s' →
  processing_status (tables s) !! job_id = Some j →
  Job.status j ≠ Processing →
  (processing_results (tables s) !! job_id = None
   ∨ processing_results (tables s) !! job_id = Some []) →
  (∃ j', processing_status (tables s') !! job_id = Some j' ∧ Job.status j' = Job.status j)
  ∧ processing_results (tables s') !! job_id = processing_results (tables s) !! job_id.
Proof.
  induction evs as [|ev evs IH]; intros s s' job_id j Hinv; cbn.
  - intros [= <-]. eauto.
  - destruct (step s ev) as [[s1 resp]|] eqn:Hstep; [|done].
    intros Hrun Hj Hs Hres.
    destruct (unretrievable_step _ _ _ _ _ _ Hinv Hstep Hj Hs Hres) as [(j1 & Hj1 & Hs1) Hres1].
    destruct (IH s1 s' job_id j1 (invariant_step _ _ _ _ Hinv Hstep) Hrun Hj1
                ltac:(congruence) ltac:(by rewrite Hres1)) as [(j' & Hj' & Hs') Hres'].
    split; [exists j'; split; congruence | congruence].
Qed.

(** X8. A job that ended in the error state stays as it is: after any
    further steps its record is still there with the error status, no
    result is stored for it, and its retrieval answers 404. *)
Theorem failed_job_is_final (s : system) (job_id : str) (j : Job.t)
    (evs : list event) (s' : system) :
  reachable s →
  processing_status (tables s) !! job_id = Some j →
  Job.status j = Failed →
  run s evs = Some s' →
  (∃ j', processing_status (tables s') !! job_id = Some j' ∧ Job.status j' = Failed)
  ∧ processing_results (tables s') !! job_id = None
  ∧ download_result job_id (tables s')
    = (Ok (RespError 404 (lit "Results not found")), tables s').
Proof.
  intros Hreach Hj Hs Hrun. apply reachable_invariant in Hreach.
  destruct (step_thread_exists s job_id j Hreach Hj) as (th & _ & Hok).
  pose proof (proj2 (pc_ok_status _ _ _ _ Hok) Hs) as Hres.
  destruct (unretrievable_run evs s s' job_id j Hreach Hrun Hj ltac:(congruence)
              ltac:(by left)) as [(j' & Hj' & Hs') Hres'].
  rewrite Hres in Hres'.
  split; [exists j'; split; congruence|]. split; [done|]. by apply download_not_found.
Qed.

Lemma failed_job_is_final_witness :
  let s' := end_of (failed_events ++ later_events) in
  run (end_of failed_events) later_events = Some s'
  ∧ (∃ j', processing_status (tables s') !! lit "job" = Some j' ∧ Job.status j' = Failed)
  ∧ processing_results (tables s') !! lit "job" = None
  ∧ download_result (lit "job") (tables s')
    = (Ok (RespError 404 (lit "Results not found")), tables s').
Proof.
  cbn zeta.
  assert (Hreach : reachable (end_of failed_events))
    by (exists failed_events; vm_compute; reflexivity).
  assert (Hj : processing_status (tables (end_of failed_events)) !! lit "job"
               = Some (Job.mk Failed 1 1 (lit "a.docx") 0 (Some TypeError)))
    by (vm_compute; reflexivity).
  assert (Hrun : run (end_of failed_events) later_events
                 = Some (end_of (failed_events ++ later_events)))
    by (vm_compute; reflexivity).
  split; [exact Hrun|].
  exact (failed_job_is_final _ _ _ _ _ Hreach Hj eq_refl Hrun).
Defined.

(** X9. A completed job whose result is empty is never cleaned up: its
    retrieval answers 400 and removes nothing, so after any further steps
    the record, still completed, and the empty result are both there. *)
Theorem empty_job_is_never_removed (s : system) (job_id : str) (j : Job.t)
    (evs : list event) (s' : system) :
  reachable s →
  processing_status (tables s) !! job_id = Some j →
  Job.status j = Completed →
  processing_results (tables s) !! job_id = Some [] →
  run s evs = Some s' →
  (∃ j', processing_status (tables s') !! job_id = Some j' ∧ Job.status j' = Completed)
  ∧ processing_results (tables s') !! job_id = Some []
  ∧ download_result job_id (tables s')
    = (Ok (RespError 400 (lit "No data extracted")), tables s').
Proof.
  intros Hreach Hj Hs Hres Hrun. apply reachable_invariant in Hreach.
  destruct (unretrievable_run evs s s' job_id j Hreach Hrun Hj ltac:(congruence)
              ltac:(by right)) as [(j' & Hj' & Hs') Hres'].
  rewrite Hres in Hres'.
  split; [exists j'; split; congruence|]. split; [done|]. by apply download_no_data.
Qed.

Lemma empty_job_is_never_removed_witness :
  let s' := end_of (scenario_C_events ++ later_events) in
  run (end_of scenario_C_events) later_events = Some s'
  ∧ (∃ j', processing_status (tables s') !! lit "job" = Some j' ∧ Job.status j' = Completed)
  ∧ processing_results (tables s') !! lit "job" = Some []
  ∧ download_result (lit "job") (tables s')
    = (Ok (RespError 400 (lit "No data extracted")), tables s').
Proof.
  cbn zeta.
  assert (Hreach : reachable (end_of scenario_C_events))
    by (exists scenario_C_events; vm_compute; reflexivity).
  assert (Hj : processing_status (tables (end_of scenario_C_events)) !! lit "job"
               = Some (Job.mk Completed 1 1 (lit "empty.docx") 0 None))
    by (vm_compute; reflexivity).
  assert (Hres : processing_results (tables (end_of scenario_C_events)) !! lit "job"
                 = Some []) by (vm_compute; reflexivity).
  assert (Hrun : run (end_of scenario_C_events) later_events
                 = Some (end_of (scenario_C_events ++ later_events)))
    by (vm_compute; reflexivity).
  split; [exact Hrun|].
  exact (empty_job_is_never_removed _ _ _ _ _ Hreach Hj eq_refl Hres Hrun).
Defined.

(** X10. In a reachable state [download_result] never raises and is all
    or nothing: either it answers with the workbook and removes the job's
    record and result together, or it answers with an error and leaves
    the tables exactly as they were.  It never touches the metrics. *)
Theorem download_all_or_nothing (s : system) (job_id : str) :
  reachable s →
  ∃ resp st',
    download_result job_id (tables s) = (Ok resp, st')
    ∧ dashboard_metrics st' = dashboard_metrics (tables s)
    ∧ ((∃ wb, resp = RespFile wb
              ∧ processing_results st' = delete job_id (processing_results (tables s))
              ∧ processing_status st' = delete job_id (processing_status (tables s)))
       ∨ (st' = tables s ∧ ∀ wb, resp ≠ RespFile wb)).
Proof.
  intros Hreach. apply reachable_invariant in Hreach.
  destruct (download_cases job_id (tables s))
    as [(resp & H & Hnot) | [(wb & _ & H) | (Hnone & Hres & _)]].
  - exists resp, (tables s). split; [done|]. split; [done|]. by right.
  - eexists _, _. split; [exact H|]. split; [done|]. left. by exists wb.
  - exfalso. specialize (Hreach job_id). unfold job_ok in Hreach.
    destruct (threads s !! job_id) as [th|].
    + apply pc_ok_result in Hreach; [|done]. rewrite Hnone in Hreach. by destruct Hreach.
    + destruct Hreach as [_ Hr]. rewrite Hr in Hres. by destruct Hres.
Qed.

Lemma download_all_or_nothing_witness :
  download_result (lit "job") (tables (end_of null_status_events))
  = (Ok (RespException AttributeError), tables (end_of null_status_events))
  ∧ processing_results (tables (end_of null_status_events)) !! lit "job"
    = Some [null_status_entry].
Proof.
  assert (Hreach : reachable (end_of null_status_events))
    by (exists null_status_events; vm_compute; reflexivity).
  destruct (download_all_or_nothing _ (lit "job") Hreach)
    as (resp & st' & Hd & _ & [(wb & -> & _) | [-> _]]).
  - vm_compute in Hd. discriminate.
  - split; [|vm_compute; reflexivity].
    rewrite Hd. f_equal. vm_compute in Hd. by injection Hd as <-.
Defined.

(** X11. Jobs do not interfere through the tables: an event about one
    job leaves the record, the result and the thread of every other job
    as they were. *)
Theorem events_leave_other_jobs_alone (s : system) (ev : event) (s' : system)
    (resp : option response) (other : str) :
  step s ev = Some (s', resp) →
  other ≠ event_job ev →
  processing_status (tables s') !! other = processing_status (tables s) !! other
  ∧ processing_results (tables s') !! other = processing_results (tables s) !! other
  ∧ threads s' !! other = threads s !! other.
Proof.
  intros Hstep Hne. destruct s as [st ths].
  destruct ev as [job_id files|job_id|job_id|job_id w]; cbn [event_job] in Hne;
    cbn [step tables threads] in *.
  - destruct (ths !! job_id) as [?|] eqn:Hth; [done|].
    unfold process_bulk in Hstep. destruct files as [|file files].
    { by injection Hstep as <- <-. }
    destruct (filter _ (file :: files)) as [|fd fds].
    { by injection Hstep as <- <-. }
    cbn in Hstep. injection Hstep as <- <-. cbn. by rewrite !lookup_insert_ne.
  - unfold get_status in Hstep.
    destruct (processing_status st !! job_id); by injection Hstep as <- <-.
  - destruct (download_result job_id st) as [[r|e] st1] eqn:Hd;
      destruct (download_other _ _ _ _ other Hd Hne) as (Hst & Hres & _);
      by injection Hstep as <- <-.
  - destruct (ths !! job_id) as [[files p]|] eqn:Hth; [|done]. cbn in Hstep.
    destruct (finished p); [done|].
    destruct (thread_step w job_id files p st) as [p' st1] eqn:Hts.
    injection Hstep as <- <-. cbn.
    destruct (thread_step_other _ _ _ _ _ _ _ other Hts Hne) as [-> ->].
    by rewrite lookup_insert_ne.
Qed.

Lemma events_leave_other_jobs_alone_witness :
  step (end_of two_jobs_events) (EvWork (lit "a") text_hours_world)
  = Some (end_of (two_jobs_events ++ work 1 (lit "a") text_hours_world), None)
  ∧ processing_status
      (tables (end_of (two_jobs_events ++ work 1 (lit "a") text_hours_world))) !! lit "b"
    = Some (Job.mk Processing 1 0 [] 0 None).
Proof.
  assert (Hstep : step (end_of two_jobs_events) (EvWork (lit "a") text_hours_world)
                  = Some (end_of (two_jobs_events ++ work 1 (lit "a") text_hours_world),
                          None)) by (vm_compute; reflexivity).
  split; [exact Hstep|].
  destruct (events_leave_other_jobs_alone _ _ _ _ (lit "b") Hstep ltac:(discriminate))
    as (Hrec & _ & _).
  rewrite Hrec. vm_compute. reflexivity.
Defined.

(** ** The dashboard and the spreadsheet *)

(** X13. The dashboard's estimates follow the entry counter: with no
    entries the accuracy and the discrepancies are 0; with entries the
    accuracy is 95 and the discrepancies lie between 1 and the number of
    entries, being a 25th of it from 25 entries on; and more entries
    never give fewer discrepancies. *)
Theorem dashboard_estimates (m m' : Metrics.t) :
  (Metrics.total_entries m = 0 →
   Dashboard.accuracy_rate (dashboard m) = 0 ∧ Dashboard.discrepancies (dashboard m) = 0)
  ∧ (0 < Metrics.total_entries m →
     Dashboard.accuracy_rate (dashboard m) = 95
     ∧ 1 ≤ Dashboard.discrepancies (dashboard m) ≤ Metrics.total_entries m
     ∧ (25 ≤ Metrics.total_entries m →
        Dashboard.discrepancies (dashboard m) = Nat.div (Metrics.total_entries m) 25))
  ∧ (Metrics.total_entries m ≤ Metrics.total_entries m' →
     Dashboard.discrepancies (dashboard m) ≤ Dashboard.discrepancies (dashboard m')).
Proof.
  unfold dashboard. cbn [Dashboard.accuracy_rate Dashboard.discrepancies].
  pose proof (Nat.div_mod_eq (Metrics.total_entries m) 25) as Hm.
  pose proof (Nat.mod_upper_bound (Metrics.total_entries m) 25 ltac:(lia)) as Hm'.
  pose proof (Nat.div_mod_eq (Metrics.total_entries m') 25) as Hn.
  pose proof (Nat.mod_upper_bound (Metrics.total_entries m') 25 ltac:(lia)) as Hn'.
  destruct (Nat.ltb_spec 0 (Metrics.total_entries m));
    destruct (Nat.ltb_spec 0 (Metrics.total_entries m'));
    repeat split; intros; try lia.
Qed.

Lemma dashboard_estimates_witness :
  Dashboard.accuracy_rate (dashboard (Metrics.mk 3 (PyInt 120) 60 7)) = 95
  ∧ Dashboard.discrepancies (dashboard (Metrics.mk 3 (PyInt 120) 60 7)) = 2.
Proof.
  destruct (dashboard_estimates (Metrics.mk 3 (PyInt 120) 60 7) (Metrics.mk 3 (PyInt 120) 60 7))
    as (_ & Hpos & _).
  destruct (Hpos ltac:(cbn; lia)) as (Hacc & _ & Hdisc).
  split; [exact Hacc | exact (Hdisc ltac:(cbn; lia))].
Defined.

Lemma result_bind_Ok {A B} (r : result A) (k : A → result B) (y : B) :
  r ≫= k = Ok y → ∃ x, r = Ok x ∧ k x = Ok y.
Proof. unfold mbind, result_bind. destruct r as [x|e]; [eauto | discriminate]. Qed.

Lemma ws_cell_Ok v c : ws_cell v = Ok c → c = stored_cell v ∧ storable c.
Proof.
  unfold ws_cell. destruct v; try (by intros [= <-]); try discriminate.
  destruct (existsb illegal_character (take cell_limit s)) eqn:Hs;
    [discriminate | intros [= <-]].
  split; [done|]. split; [|done]. rewrite length_take. lia.
Qed.

Lemma ws_cell_raises v e :
  ws_cell v = Raise e → e = ValueError ∨ e = IllegalCharacterError.
Proof.
  unfold ws_cell. destruct v; try discriminate; try (intros [= <-]; by left).
  destruct (existsb _ _); [intros [= <-]; by right | discriminate].
Qed.

Lemma cell_Ok d key dflt c :
  entry_get (JObj d) key dflt ≫= ws_cell = Ok c →
  c = stored_cell (default dflt (dict_lookup d key)) ∧ storable c.
Proof. cbn [entry_get]. intros (v & [= <-] & Hc)%result_bind_Ok. by apply ws_cell_Ok. Qed.

Lemma excel_row_rendered entry row :
  excel_row entry = Ok row → rendered_as entry row.
Proof.
  unfold excel_row. destruct entry as [| | | | |d]; try discriminate.
  intros (c1 & H1 & H)%result_bind_Ok. apply cell_Ok in H1 as [E1 S1].
  apply result_bind_Ok in H as (c2 & H2 & H). apply cell_Ok in H2 as [E2 S2].
  apply result_bind_Ok in H as (c3 & H3 & H). apply cell_Ok in H3 as [E3 S3].
  apply result_bind_Ok in H as (c4 & H4 & H). apply cell_Ok in H4 as [E4 S4].
  apply result_bind_Ok in H as (c5 & H5 & H). apply cell_Ok in H5 as [E5 S5].
  apply result_bind_Ok in H as (c6 & H6 & H). apply cell_Ok in H6 as [E6 S6].
  apply result_bind_Ok in H as (c7 & H7 & H). apply cell_Ok in H7 as [E7 S7].
  apply result_bind_Ok in H as (closed & Hclosed & H). injection H as <-.
  exists d. split; [done|]. cbn [cells highlighted].
  split; [unfold row_cells; cbn [fmap list_fmap]; congruence|].
  split; [repeat constructor; assumption|].
  unfold status_is_closed in Hclosed. cbn [entry_get] in Hclosed.
  apply result_bind_Ok in Hclosed as (v & [= <-] & Hclosed).
  destruct (dict_lookup d (lit "submission_status")) as [v|] eqn:Hs; cbn in Hclosed.
  - destruct v as [| | |s| |]; try discriminate. injection Hclosed as <-.
    rewrite bool_decide_eq_true. split; [eauto|]. by intros (s' & [= <-] & Hc).
  - injection Hclosed as <-. split; [|by intros (s' & [=] & _)].
    intros Hc. vm_compute in Hc. discriminate Hc.
Qed.

(** X14. When [create_excel_file] returns, the sheet has, below the
    headers, one row per entry, in the order of the entries.  A row holds
    the entry's seven values, with the source's defaults for missing
    keys, as the cells keep them: a string is cut to its first 32767
    characters, and no cell holds a list, a dict or a control character.
    The status cell is highlighted exactly when the entry has a status
    that reads "closed" in any mix of upper and lower case; an entry
    without a status shows "pending" and is not highlighted. *)
Theorem workbook_rows (data : list json) (wb : workbook) :
  create_excel_file data = Ok wb →
  Forall2 rendered_as data wb.
Proof.
  revert wb. induction data as [|entry rest IH]; intros wb; cbn [create_excel_file].
  - intros [= <-]. constructor.
  - intros (row & Hrow & H)%result_bind_Ok.
    apply result_bind_Ok in H as (rows & Hrows & H). injection H as <-.
    constructor; [by apply excel_row_rendered | by apply IH].
Qed.

Lemma workbook_rows_witness :
  create_excel_file status_entries
  = Ok [ mk_row [JStr (lit "A"); JStr []; JNum (PyInt 0); JStr (lit "CLOSED");
                 JStr []; JNum (PyInt 0); JStr []] true;
         mk_row [JStr (lit "B"); JStr []; JNum (PyInt 0); JStr (lit "Open");
                 JStr []; JNum (PyInt 0); JStr []] false;
         mk_row [JStr (lit "C"); JStr []; JNum (PyInt 0); JStr (lit "pending");
                 JStr []; JNum (PyInt 0); JStr []] false ]
  ∧ Forall2 rendered_as status_entries
      [ mk_row [JStr (lit "A"); JStr []; JNum (PyInt 0); JStr (lit "CLOSED");
                JStr []; JNum (PyInt 0); JStr []] true;
        mk_row [JStr (lit "B"); JStr []; JNum (PyInt 0); JStr (lit "Open");
                JStr []; JNum (PyInt 0); JStr []] false;
        mk_row [JStr (lit "C"); JStr []; JNum (PyInt 0); JStr (lit "pending");
                JStr []; JNum (PyInt 0); JStr []] false ].
Proof.
  assert (H : create_excel_file status_entries
    = Ok [ mk_row [JStr (lit "A"); JStr []; JNum (PyInt 0); JStr (lit "CLOSED");
                   JStr []; JNum (PyInt 0); JStr []] true;
           mk_row [JStr (lit "B"); JStr []; JNum (PyInt 0); JStr (lit "Open");
                   JStr []; JNum (PyInt 0); JStr []] false;
           mk_row [JStr (lit "C"); JStr []; JNum (PyInt 0); JStr (lit "pending");
                   JStr []; JNum (PyInt 0); JStr []] false ])
    by (vm_compute; reflexivity).
  split; [exact H | exact (workbook_rows _ _ H)].
Defined.

(** The row of a dict, as the cell assignments followed by the test of
    line 371. *)
Lemma excel_row_eq d :
  excel_row (JObj d)
  = (cs ← store_cells (row_cells d);
     closed ← status_is_closed (JObj d);
     mret (mk_row cs closed)).
Proof.
  unfold excel_row, row_cells. cbn [entry_get store_cells].
  unfold mbind, result_bind, mret, result_ret.
  repeat match goal with
         | |- context [ws_cell ?v] => destruct (ws_cell v); [|reflexivity]
         end.
  reflexivity.
Qed.

Lemma store_cells_raises values e :
  store_cells values = Raise e → e = ValueError ∨ e = IllegalCharacterError.
Proof.
  induction values as [|v rest IH]; cbn [store_cells]; [discriminate|].
  unfold mbind, result_bind, mret, result_ret.
  destruct (ws_cell v) as [c|e1] eqn:Hv; [|intros [= <-]; by eapply ws_cell_raises].
  destruct (store_cells rest) as [cs|e2]; [discriminate | intros [= <-]; by apply IH].
Qed.

Lemma store_cells_Ok values cs :
  store_cells values = Ok cs → Forall (λ v, ∃ c, ws_cell v = Ok c) values.
Proof.
  revert cs. induction values as [|v rest IH]; intros cs; cbn [store_cells]; [by constructor|].
  intros (c & Hc & H)%result_bind_Ok. apply result_bind_Ok in H as (cs' & Hcs & _).
  constructor; [eauto | by eapply IH].
Qed.

Lemma status_is_closed_raises entry e :
  status_is_closed entry = Raise e → e = AttributeError.
Proof.
  unfold status_is_closed, mbind, result_bind.
  destruct (entry_get entry _ _) as [v|e1] eqn:Hget.
  - destruct v; try discriminate; by intros [= <-].
  - destruct entry; try discriminate Hget; injection Hget as <-; by intros [= <-].
Qed.

Lemma status_not_string d v :
  dict_lookup d (lit "submission_status") = Some v →
  (∀ s, v ≠ JStr s) →
  status_is_closed (JObj d) = Raise AttributeError.
Proof.
  intros Hs Hv. unfold status_is_closed, mbind, result_bind. cbn [entry_get].
  rewrite Hs. cbn [default from_option id].
  destruct v; try reflexivity. by destruct (Hv s).
Qed.

Lemma excel_row_exn entry e :
  excel_row entry = Raise e →
  e = AttributeError ∨ e = ValueError ∨ e = IllegalCharacterError.
Proof.
  destruct entry as [| | | | |d];
    try (unfold excel_row; cbn [entry_get]; unfold mbind, result_bind;
         intros [= <-]; by left).
  rewrite excel_row_eq. unfold mbind, result_bind, mret, result_ret.
  destruct (store_cells (row_cells d)) as [cs|e1] eqn:Hcells.
  - destruct (status_is_closed (JObj d)) as [closed|e2] eqn:Hclosed; [discriminate|].
    intros [= <-]. left. by eapply status_is_closed_raises.
  - intros [= <-]. right. by eapply store_cells_raises.
Qed.

Lemma create_excel_file_exn data e :
  create_excel_file data = Raise e →
  e = AttributeError ∨ e = ValueError ∨ e = IllegalCharacterError.
Proof.
  induction data as [|entry rest IH]; cbn [create_excel_file]; [discriminate|].
  unfold mbind, result_bind, mret, result_ret.
  destruct (excel_row entry) as [row|e1] eqn:Hrow; [|intros [= <-]; by eapply excel_row_exn].
  destruct (create_excel_file rest) as [rows|e2]; [discriminate | intros [= <-]; by apply IH].
Qed.

Lemma create_excel_file_raises data entry e :
  entry ∈ data → excel_row entry = Raise e →
  ∃ e', create_excel_file data = Raise e'.
Proof.
  intros Hin Hrow. induction data as [|x rest IH]; [by apply elem_of_nil in Hin|].
  cbn [create_excel_file]. unfold mbind, result_bind.
  apply elem_of_cons in Hin as [<-|Hin].
  - rewrite Hrow. eauto.
  - destruct (excel_row x); [|eauto].
    destruct (IH Hin) as [e' ->]. eauto.
Qed.

(** X15. A stored result in which some entry has a status that is
    present and not a string cannot be retrieved.  Building that entry's
    row raises: if a cell refuses one of the seven values (lines 362-368;
    a status that is a list or a dict is refused itself, at line 365) the
    [ValueError] or [IllegalCharacterError] of the first refusal, and
    otherwise the [AttributeError] of [.lower()] at line 371.  So
    [create_excel_file] raises one of these three, and
    [download_result] answers 500 with that exception and leaves the
    tables as they were. *)
Theorem non_string_status_blocks_retrieval (st : store) (job_id : str)
    (data : list json) (d : list (str * json)) (v : json) :
  processing_results st !! job_id = Some data →
  JObj d ∈ data →
  dict_lookup d (lit "submission_status") = Some v →
  (∀ s, v ≠ JStr s) →
  ∃ e_row e,
    excel_row (JObj d) = Raise e_row
    ∧ match store_cells (row_cells d) with
      | Raise e' => e_row = e' ∧ (e' = ValueError ∨ e' = IllegalCharacterError)
      | Ok _ => e_row = AttributeError ∧ (∀ l, v ≠ JArr l) ∧ (∀ o, v ≠ JObj o)
      end
    ∧ create_excel_file data = Raise e
    ∧ (e = AttributeError ∨ e = ValueError ∨ e = IllegalCharacterError)
    ∧ download_result job_id st = (Ok (RespException e), st).
Proof.
  intros Hres Hin Hs Hv.
  pose proof (status_not_string d v Hs Hv) as Hclosed.
  assert (Hrow : ∃ e_row, excel_row (JObj d) = Raise e_row
            ∧ match store_cells (row_cells d) with
              | Raise e' => e_row = e' ∧ (e' = ValueError ∨ e' = IllegalCharacterError)
              | Ok _ => e_row = AttributeError ∧ (∀ l, v ≠ JArr l) ∧ (∀ o, v ≠ JObj o)
              end).
  { rewrite excel_row_eq. unfold mbind, result_bind.
    destruct (store_cells (row_cells d)) as [cs|e1] eqn:Hcells.
    - rewrite Hclosed. eexists. split; [reflexivity|]. split; [done|].
      apply store_cells_Ok in Hcells. rewrite Forall_forall in Hcells.
      assert (Hv4 : v ∈ row_cells d).
      { unfold row_cells. rewrite Hs. do 3 apply list_elem_of_further.
        apply list_elem_of_here. }
      destruct (Hcells v Hv4) as [c Hc].
      split; intros ? ->; discriminate Hc.
    - eexists. split; [reflexivity|]. split; [done|]. by eapply store_cells_raises. }
  destruct Hrow as (e_row & Hrow & Hkind).
  destruct (create_excel_file_raises data (JObj d) e_row Hin Hrow) as [e He].
  exists e_row, e. split; [exact Hrow|]. split; [exact Hkind|].
  split; [exact He|]. split; [by eapply create_excel_file_exn|].
  eapply download_render_raises; [exact Hres | | exact He].
  intros ->. by apply elem_of_nil in Hin.
Qed.

Lemma non_string_status_blocks_retrieval_witness :
  processing_results (tables (end_of null_status_events)) !! lit "job"
  = Some [null_status_entry]
  ∧ create_excel_file [null_status_entry] = Raise AttributeError
  ∧ download_result (lit "job") (tables (end_of null_status_events))
    = (Ok (RespException AttributeError), tables (end_of null_status_events)).
Proof.
  assert (Hres : processing_results (tables (end_of null_status_events)) !! lit "job"
                 = Some [null_status_entry]) by (vm_compute; reflexivity).
  split; [exact Hres|].
  destruct (non_string_status_blocks_retrieval _ _ _ _ JNull Hres
              ltac:(apply elem_of_cons; left; reflexivity)
              ltac:(vm_compute; reflexivity) ltac:(discriminate))
    as (e_row & e & _ & _ & Hwb & _ & Hget).
  assert (He : e = AttributeError).
  { vm_compute in Hwb. by injection Hwb as <-. }
  subst e. split; [exact Hwb | exact Hget].
Defined.

Lemma pc_ok_finished files p j res :
  pc_ok files p (Some j) res → Job.status j ≠ Processing →
  Job.processed j = Job.total j.
Proof.
  intros Hok Hs.
  assert (Hrec : ∀ n st, rec_ok files n st (Some j) →
                 st = Job.status j ∧ Job.processed j + n = Job.total j).
  { intros n st (j' & [= <-] & Hst & _ & Hp). done. }
  destruct p; cbn in Hok;
    repeat match goal with
           | H : _ ∧ _ |- _ => destruct H
           | H : _ ∨ _ |- _ => destruct H
           | H : rec_ok _ _ _ (Some j) |- _ => apply Hrec in H
           | H : Some _ = None |- _ => discriminate H
           end; try congruence; lia.
Qed.

(** X16. In every reachable state a job whose status is no longer
    processing has all its files behind it: [processed] equals [total]. *)
Theorem finished_job_processed_all (s : system) (job_id : str) (j : Job.t) :
  reachable s →
  processing_status (tables s) !! job_id = Some j →
  Job.status j ≠ Processing →
  Job.processed j = Job.total j.
Proof.
  intros Hreach Hj Hs. apply reachable_invariant in Hreach.
  destruct (step_thread_exists s job_id j Hreach Hj) as (th & _ & Hok).
  by eapply pc_ok_finished.
Qed.

Lemma finished_job_processed_all_witness :
  processing_status (tables (end_of failed_events)) !! lit "job"
  = Some (Job.mk Failed 1 1 (lit "a.docx") 0 (Some TypeError))
  ∧ 1 = 1.
Proof.
  assert (Hreach : reachable (end_of failed_events))
    by (exists failed_events; vm_compute; reflexivity).
  assert (Hj : processing_status (tables (end_of failed_events)) !! lit "job"
               = Some (Job.mk Failed 1 1 (lit "a.docx") 0 (Some TypeError)))
    by (vm_compute; reflexivity).
  split; [exact Hj|].
  exact (finished_job_processed_all _ _ _ Hreach Hj ltac:(discriminate)).
Defined.

(** ** Submission *)






(** ** The fields written last *)

Lemma fields_ok_None p res : fields_ok p None res.
Proof. done. Qed.

Lemma fields_ok_running p j res :
  finished p = false → Job.error j = None → Job.total_entries j = 0 →
  fields_ok p (Some j) res.
Proof. intros Hp He Ht. destruct p; try done. Qed.

Lemma fields_ok_running_inv p j res :
  finished p = false → fields_ok p (Some j) res →
  Job.error j = None ∧ Job.total_entries j = 0.
Proof. intros Hp H. destruct p; try done. Qed.

Ltac fields_update Hstep Hj :=
  unfold set_current_file, incr_processed, set_completed, set_total_entries,
    set_failed, set_error in Hstep;
  first [ rewrite (update_job_Some _ _ _ _ Hj) in Hstep
        | rewrite (update_job_None _ _ _ Hj) in Hstep ];
  injection Hstep as <- <-; cbn [processing_status processing_results];
  rewrite ?lookup_insert_eq, ?Hj.

(** A step of a thread keeps its own record's late fields as its new
    position requires. *)
Lemma thread_step_fields w job_id files p st p' st' :
  pc_ok files p (processing_status st !! job_id) (processing_results st !! job_id) →
  fields_ok p (processing_status st !! job_id) (processing_results st !! job_id) →
  thread_step w job_id files p st = (p', st') →
  fields_ok p' (processing_status st' !! job_id) (processing_results st' !! job_id).
Proof.
  intros Hok Hf Hstep.
  destruct (processing_status st !! job_id) as [j|] eqn:Hj.
  2:{ assert (processing_status st' !! job_id = None) as ->; [|apply fields_ok_None].
      destruct p as [[|[filename content] rest] a|filename rest a|filename rest a|a
                    |[|entry rem] a|a|a|e|e| |e];
        cbn [thread_step] in Hstep;
        try (by fields_update Hstep Hj);
        try (by injection Hstep as <- <-).
      - destruct (extract_file w filename st) as [[data|e] st1] eqn:Hex;
          injection Hstep as <- <-; apply extract_file_tables in Hex as [_ Hs];
          by rewrite Hs.
      - destruct (add_hours entry st) as [[[]|e] st1] eqn:Hah;
          injection Hstep as <- <-; apply add_hours_tables in Hah as [_ Hs];
          by rewrite Hs. }
  destruct p as [[|[filename content] rest] a|filename rest a|filename rest a|a
                |[|entry rem] a|a|a|e|e| |e];
    cbn [thread_step] in Hstep.
  all: try (apply fields_ok_running_inv in Hf as [He Ht]; [|done]).
  - injection Hstep as <- <-. cbn. rewrite Hj. by apply fields_ok_running.
  - fields_update Hstep Hj. by apply fields_ok_running.
  - fields_update Hstep Hj. by apply fields_ok_running.
  - destruct (extract_file w filename st) as [[data|e] st1] eqn:Hex;
      injection Hstep as <- <-; apply extract_file_tables in Hex as [-> ->];
      rewrite Hj; by apply fields_ok_running.
  - injection Hstep as <- <-. cbn. rewrite Hj. by apply fields_ok_running.
  - injection Hstep as <- <-. cbn. rewrite Hj. by apply fields_ok_running.
  - destruct (add_hours entry st) as [[[]|e] st1] eqn:Hah;
      injection Hstep as <- <-; apply add_hours_tables in Hah as [-> ->];
      rewrite Hj; by apply fields_ok_running.
  - fields_update Hstep Hj. by apply fields_ok_running.
  - (* line 329 *)
    cbn [pc_ok] in Hok. destruct Hok as [(Hres & j' & [= <-] & Hs & _) | [_ [=]]].
    fields_update Hstep Hj. cbn. left. rewrite Hres. eauto.
  - fields_update Hstep Hj. by apply fields_ok_running.
  - (* line 336 *)
    cbn [pc_ok] in Hok. destruct Hok as (Hres & [(j' & [= <-] & Hs & _) | [=]]).
    fields_update Hstep Hj. cbn. right. eauto.
  - by injection Hstep as <- <-; rewrite Hj.
  - by injection Hstep as <- <-; rewrite Hj.
Qed.

Lemma fields_invariant_step s ev s' resp :
  fields_invariant s → step s ev = Some (s', resp) → fields_invariant s'.
Proof.
  intros [Hinv Hfields] Hstep. split; [by eapply invariant_step|].
  intros other. pose proof (Hfields other) as Hother.
  destruct s as [st ths]. destruct ev as [job_id files|job_id|job_id|job_id w];
    cbn [step tables threads] in Hstep.
  - (* submit *)
    destruct (ths !! job_id) as [th|] eqn:Hth; [done|].
    unfold process_bulk in Hstep. destruct files as [|file files].
    { by injection Hstep as <- <-. }
    destruct (filter _ (file :: files)) as [|fd fds] eqn:Hfilter.
    { by injection Hstep as <- <-. }
    cbn in Hstep. injection Hstep as <- <-.
    unfold job_fields in *. cbn in *.
    destruct (decide (job_id = other)) as [<-|Hne].
    + rewrite !lookup_insert_eq. by cbn.
    + by rewrite !lookup_insert_ne.
  - (* status *)
    unfold get_status in Hstep.
    destruct (processing_status st !! job_id); by injection Hstep as <- <-.
  - (* download *)
    pose proof (Hinv job_id) as Hjob. unfold job_ok in Hjob. cbn in Hjob.
    destruct (processing_results st !! job_id) as [data|] eqn:Hres.
    2:{ rewrite download_not_found in Hstep by done. by injection Hstep as <- <-. }
    destruct data as [|entry data].
    { rewrite download_no_data in Hstep by done. by injection Hstep as <- <-. }
    destruct (create_excel_file (entry :: data)) as [wb|e] eqn:Hwb.
    2:{ erewrite download_render_raises in Hstep by done. by injection Hstep as <- <-. }
    destruct (ths !! job_id) as [th|] eqn:Hth; [|by destruct Hjob].
    destruct (pc_ok_result _ _ _ _ Hjob ltac:(by eexists)) as [j Hj].
    erewrite download_file in Hstep by done. injection Hstep as <- <-.
    unfold job_fields in *. cbn in *.
    destruct (decide (job_id = other)) as [<-|Hne].
    + rewrite Hth, !lookup_delete_eq. apply fields_ok_None.
    + by rewrite !lookup_delete_ne.
  - (* a thread's statement *)
    pose proof (Hinv job_id) as Hjob. unfold job_ok in Hjob. cbn in Hjob.
    pose proof (Hfields job_id) as Hfjob. unfold job_fields in Hfjob. cbn in Hfjob.
    destruct (ths !! job_id) as [[files p]|] eqn:Hth; [|done]. cbn in *.
    destruct (finished p); [done|].
    destruct (thread_step w job_id files p st) as [p' st'] eqn:Hts.
    injection Hstep as <- <-. unfold job_fields in *. cbn in *.
    destruct (decide (job_id = other)) as [<-|Hne].
    + rewrite lookup_insert_eq. cbn. eapply thread_step_fields; eauto.
    + rewrite lookup_insert_ne by done.
      by destruct (thread_step_other _ _ _ _ _ _ _ other Hts ltac:(done)) as [-> ->].
Qed.

Lemma fields_invariant_run evs :
  ∀ s s', fields_invariant s → run s evs = Some s' → fields_invariant s'.
Proof.
  induction evs as [|ev evs IH]; intros s s' Hinv; cbn.
  - by intros [= <-].
  - destruct (step s ev) as [[s1 resp]|] eqn:Hstep; [|done].
    apply IH. eapply fields_invariant_step; eauto.
Qed.

Lemma reachable_fields s : reachable s → fields_invariant s.
Proof.
  intros [evs Hrun]. eapply fields_invariant_run; [|exact Hrun].
  split; [apply invariant_initial | intros job_id; unfold job_fields; cbn].
  by rewrite lookup_empty.
Qed.

(** X18. In every reachable state the record of a job has its late
    fields in step with its status and its thread.  While the status is
    processing there is no error and [total_entries] is 0.  A completed
    job has no error and a stored result, and [total_entries] is 0 until
    the thread has ended, when it is the number of stored entries.  A
    failed job has no stored result and [total_entries] 0, and its error
    is recorded exactly when the thread has ended. *)
Theorem record_fields_follow_thread (s : system) (job_id : str) (j : Job.t) :
  reachable s →
  processing_status (tables s) !! job_id = Some j →
  ∃ th, threads s !! job_id = Some th
    ∧ match Job.status j with
      | Processing =>
          Job.error j = None ∧ Job.total_entries j = 0 ∧ finished (t_pc th) = false
      | Completed =>
          Job.error j = None
          ∧ ∃ data, processing_results (tables s) !! job_id = Some data
              ∧ Job.total_entries j = (if finished (t_pc th) then length data else 0)
      | Failed =>
          processing_results (tables s) !! job_id = None
          ∧ Job.total_entries j = 0
          ∧ (if finished (t_pc th) then is_Some (Job.error j) else Job.error j = None)
      end.
Proof.
  intros Hreach Hj. apply reachable_fields in Hreach as [Hinv Hfields].
  destruct (step_thread_exists s job_id j Hinv Hj) as (th & Hth & Hok).
  specialize (Hfields job_id). unfold job_fields in Hfields.
  rewrite Hth, Hj in Hfields. exists th. split; [done|].
  destruct th as [files p]. cbn [t_pc t_files] in *.
  destruct p; cbn [pc_ok fields_ok finished] in *;
    repeat match goal with
           | H : _ ∧ _ |- _ => destruct H
           | H : _ ∨ _ |- _ => destruct H
           | H : ∃ _, _ |- _ => destruct H
           | H : rec_ok _ _ _ (Some j) |- _ =>
               destruct H as (j' & [= <-] & Hs & _)
           | H : Some _ = None |- _ => discriminate H
           | H : is_Some None |- _ => by destruct H
           end;
    try congruence;
    rewrite Hs; repeat split; try done; try congruence; eauto.
Qed.

Lemma record_fields_follow_thread_witness :
  ∃ th, threads (end_of completed_events) !! lit "job" = Some th
    ∧ Job.error (Job.mk Completed 2 2 (lit "b.docx") 2 None) = None
    ∧ ∃ data, processing_results (tables (end_of completed_events)) !! lit "job" = Some data
        ∧ 2 = (if finished (t_pc th) then length data else 0).
Proof.
  assert (Hreach : reachable (end_of completed_events))
    by (exists completed_events; vm_compute; reflexivity).
  assert (Hj : processing_status (tables (end_of completed_events)) !! lit "job"
               = Some (Job.mk Completed 2 2 (lit "b.docx") 2 None))
    by (vm_compute; reflexivity).
  exact (record_fields_follow_thread _ _ _ Hreach Hj).
Defined.
